(** * Switchboard / Sixerr plugin: the connection client, the request relay,
      the payment flow and the signing proxy, embedded from the TypeScript
      sources and checked against the specification.

    Conventions of the embedding.
    - JavaScript numbers are IEEE 754 doubles ([jsnum]): a finite value, an
      infinity or NaN.  Arithmetic rounds every result to the nearest double,
      ties to even ([round64]), overflows to infinity and gives NaN for
      infinity times zero; the sign of zero is not kept.  Counters and clock
      readings, which stay integers far below 2^53, are integers ([Z]), and
      a number of a JSON value is held by the exact value of its double.
    - [Math.random()] is an explicit argument (the draw).
    - Library functions the repository only calls ([JSON.parse],
      [JSON.stringify], the signer, [btoa]) are Section variables.
    - Callbacks and socket writes are recorded in an effect log. *)

From Stdlib Require Import ZArith QArith Qround Qminmax Qpower Qreduction.
From Stdlib Require Import List String Ascii Bool Lia Lqa DecimalString.
Import ListNotations.

Set Warnings "-register-all".
Open Scope string_scope.

(* ------------------------------------------------------------------------ *)
(** ** JSON values (what [JSON.parse] returns)                                *)
(* ------------------------------------------------------------------------ *)

Inductive json : Type :=
| JNull
| JBool (b : bool)
| JNum (q : Q)
| JStr (s : string)
| JArr (l : list json)
| JObj (fields : list (string * json)).

(** Property read on an object held as a key/value list. *)
Fixpoint assoc (k : string) (fields : list (string * json)) : option json :=
  match fields with
  | [] => None
  | (k', v) :: rest => if String.eqb k k' then Some v else assoc k rest
  end.

(** [o[k]] for a value that is not [null]/[undefined]: [undefined] ([None])
    unless [o] is an object that has the key. *)
Definition get (k : string) (j : json) : option json :=
  match j with
  | JObj fields => assoc k fields
  | _ => None
  end.

(** JavaScript truthiness of a JSON value. *)
Definition truthy (j : json) : bool :=
  match j with
  | JNull => false
  | JBool b => b
  | JNum q => negb (Qeq_bool q 0)
  | JStr s => negb (String.eqb s "")
  | JArr _ => true
  | JObj _ => true
  end.

(** [x === "lit"] for a possibly undefined [x]. *)
Definition is_str (lit : string) (x : option json) : bool :=
  match x with
  | Some (JStr s) => String.eqb s lit
  | _ => false
  end.

(* ------------------------------------------------------------------------ *)
(** ** JavaScript numbers                                                     *)
(* ------------------------------------------------------------------------ *)

(** A JavaScript number: not-a-number, an infinity, or a finite value. *)
Inductive jsnum : Type :=
| NaN
| Infinite (negative : bool)
| Fin (q : Q).

Definition isNaN (x : jsnum) : bool :=
  match x with NaN => true | _ => false end.

(** The exponent of the binade of a positive rational:
    [2^e <= q < 2^(e+1)]. *)
Definition log2_floor (q : Q) : Z :=
  let d := (Z.log2 (Qnum q) - Z.log2 (Zpos (Qden q)))%Z in
  if Qle_bool (2 ^ d) q then d else (d - 1)%Z.

(** The nearest integer, ties to the even one. *)
Definition round_half_even (x : Q) : Z :=
  let f := Qfloor x in
  match Qcompare (x - inject_Z f) (1 # 2) with
  | Lt => f
  | Gt => (f + 1)%Z
  | Eq => if Z.even f then f else (f + 1)%Z
  end.

(** The multiple of the spacing of doubles nearest to a positive rational:
    53 significant bits, and a spacing never below [2^-1074]. *)
Definition round64_pos (q : Q) : Q :=
  let ex := Z.max (log2_floor q - 52) (-1074) in
  inject_Z (round_half_even (q / 2 ^ ex)) * 2 ^ ex.

(** The double nearest to a rational, ties to even; from [2^1024] on the
    result is an infinity.  Finite results are in lowest terms. *)
Definition round64 (q : Q) : jsnum :=
  let r := Qred q in
  match Qnum r with
  | Z0 => Fin 0
  | Zpos _ =>
      let v := round64_pos r in
      if Qle_bool (2 ^ 1024) v then Infinite false else Fin (Qred v)
  | Zneg _ =>
      let v := round64_pos (- r) in
      if Qle_bool (2 ^ 1024) v then Infinite true else Fin (Qred (- v))
  end.

(** A number literal or parsed value as the double it is. *)
Definition to_double (x : jsnum) : jsnum :=
  match x with
  | Fin q => round64 q
  | _ => x
  end.

(** [a * b]. *)
Definition js_mul (a b : jsnum) : jsnum :=
  match a, b with
  | NaN, _ | _, NaN => NaN
  | Infinite s, Infinite t => Infinite (xorb s t)
  | Infinite s, Fin q | Fin q, Infinite s =>
      match Qcompare q 0 with
      | Eq => NaN
      | Gt => Infinite s
      | Lt => Infinite (negb s)
      end
  | Fin p, Fin q => round64 (p * q)
  end.

(** [a + b]. *)
Definition js_add (a b : jsnum) : jsnum :=
  match a, b with
  | NaN, _ | _, NaN => NaN
  | Infinite s, Infinite t => if Bool.eqb s t then Infinite s else NaN
  | Infinite s, Fin _ | Fin _, Infinite s => Infinite s
  | Fin p, Fin q => round64 (p + q)
  end.

(** [b ** e] for an integer [e >= 0]: 1 for exponent 0 whatever the base;
    otherwise the power, rounded once.  The language leaves the last bit of
    a power to the engine; where the power is a double itself, as for the
    powers of two, there is nothing to round. *)
Definition js_pow (b : jsnum) (e : Z) : jsnum :=
  if (e =? 0)%Z then Fin 1
  else match b with
       | NaN => NaN
       | Infinite s => Infinite (s && Z.odd e)
       | Fin q => round64 (q ^ e)
       end.

(** [Math.round] on a real: the nearest integer, halves rounded up. *)
Definition Math_round (x : Q) : Z := Qfloor (x + (1 # 2)).

(** [Math.round]: NaN and the infinities are returned as they are. *)
Definition js_Math_round (x : jsnum) : jsnum :=
  match x with
  | Fin q => Fin (inject_Z (Math_round q))
  | _ => x
  end.

(** [Math.min]: NaN when either argument is. *)
Definition js_Math_min (a b : jsnum) : jsnum :=
  match a, b with
  | NaN, _ | _, NaN => NaN
  | Infinite true, _ | _, Infinite true => Infinite true
  | Infinite false, x | x, Infinite false => x
  | Fin p, Fin q => if Qle_bool p q then a else b
  end.

(* ------------------------------------------------------------------------ *)
(** ** reconnect.ts                                                           *)
(* ------------------------------------------------------------------------ *)

(** The fields are the number literals of a policy; [computeBackoff] reads
    them as doubles. *)
Record BackoffPolicy : Type := {
  initialMs : Q;
  maxMs : Q;
  factor : Q;
  jitter : Q
}.

Definition DEFAULT_RECONNECT_POLICY : BackoffPolicy :=
  {| initialMs := 1000; maxMs := 30000; factor := 2; jitter := 1 # 4 |}.

(** [computeBackoff(policy, attempt)], the draw of [Math.random()] made
    explicit as [rnd]. *)
Definition computeBackoff (policy : BackoffPolicy) (attempt : Z) (rnd : Q) : jsnum :=
  let base := js_mul (round64 (initialMs policy))
                (js_pow (round64 (factor policy)) (Z.max (attempt - 1) 0)) in
  let jit := js_mul (js_mul base (round64 (jitter policy))) (Fin rnd) in
  js_Math_min (round64 (maxMs policy)) (js_Math_round (js_add base jit)).

(** The delay as the specification words it, over the reals:
    [min(maxDelay, round(initialDelay * factor^max(k-1,0) * (1 + jitter * U)))]. *)
Definition backoff_formula (policy : BackoffPolicy) (k : Z) (U : Q) : Q :=
  Qmin (maxMs policy)
    (inject_Z (Math_round (initialMs policy * factor policy ^ Z.max (k - 1) 0
                           * (1 + jitter policy * U)))).

(* ------------------------------------------------------------------------ *)
(** ** String primitives of the runtime                                       *)
(* ------------------------------------------------------------------------ *)

(** Strings are sequences of code units below 256. *)

Definition code (c : ascii) : N := N_of_ascii c.

(** White space and line terminators, as [String.prototype.trim] and the
    string-to-number conversion strip them. *)
Definition is_space (c : ascii) : bool :=
  let n := code c in
  ((9 <=? n) && (n <=? 13) || (n =? 32) || (n =? 160))%N.

Fixpoint trim_start (s : list ascii) : list ascii :=
  match s with
  | c :: rest => if is_space c then trim_start rest else s
  | [] => []
  end.

Definition trim_l (s : list ascii) : list ascii :=
  rev (trim_start (rev (trim_start s))).

Definition trim (s : string) : string :=
  string_of_list_ascii (trim_l (list_ascii_of_string s)).

(** [s.split(sep)] for a non-empty separator: the pieces between the
    occurrences of [sep], found left to right without overlap; the result is
    never empty.  [skip] counts the characters of a separator just matched
    that are still to be passed over. *)
Fixpoint split_from (sep : string) (skip : nat) (s : string) : list string :=
  match s with
  | EmptyString => [EmptyString]
  | String c rest =>
      match skip with
      | S k => split_from sep k rest
      | O =>
          if String.prefix sep s
          then EmptyString :: split_from sep (String.length sep - 1) rest
          else match split_from sep 0 rest with
               | piece :: pieces => String c piece :: pieces
               | [] => [String c EmptyString]
               end
      end
  end.

Definition str_split (sep : string) (s : string) : list string := split_from sep 0 s.

(** [s.startsWith(p)]. *)
Definition startsWith (p s : string) : bool := String.prefix p s.

(** [s.slice(n)] for [0 <= n]. *)
Fixpoint slice_from (n : nat) (s : string) : string :=
  match n, s with
  | O, _ => s
  | S n', String _ rest => slice_from n' rest
  | S _, EmptyString => EmptyString
  end.

(* ------------------------------------------------------------------------ *)
(** ** [Number(string)]                                                       *)
(* ------------------------------------------------------------------------ *)

Definition digit_val (base : N) (c : ascii) : option N :=
  let n := code c in
  let v := (if (48 <=? n) && (n <=? 57) then Some (n - 48)
            else if (97 <=? n) && (n <=? 102) then Some (n - 87)
            else if (65 <=? n) && (n <=? 70) then Some (n - 55)
            else None)%N in
  match v with
  | Some d => if (d <? base)%N then Some d else None
  | None => None
  end.

(** Longest prefix of base-[base] digits: its value, its length, the rest. *)
Fixpoint take_digits (base : N) (acc : N) (len : nat) (s : list ascii)
  : N * nat * list ascii :=
  match s with
  | c :: rest =>
      match digit_val base c with
      | Some d => take_digits base (acc * base + d)%N (S len) rest
      | None => (acc, len, s)
      end
  | [] => (acc, len, [])
  end.

(** A whole string of one or more base-[base] digits. *)
Definition all_digits (base : N) (s : list ascii) : option N :=
  match take_digits base 0 0 s with
  | (v, S _, []) => Some v
  | _ => None
  end.

(** ExponentPart (optional): [e] or [E], an optional sign, digits. *)
Definition exponent_part (s : list ascii) : option Z :=
  match s with
  | [] => Some 0%Z
  | e :: rest =>
      if Ascii.eqb e "e" || Ascii.eqb e "E" then
        match rest with
        | sg :: rest' =>
            if Ascii.eqb sg "-" then option_map (fun v => (- Z.of_N v)%Z) (all_digits 10 rest')
            else if Ascii.eqb sg "+" then option_map Z.of_N (all_digits 10 rest')
            else option_map Z.of_N (all_digits 10 rest)
        | [] => None
        end
      else None
  end.

(** StrUnsignedDecimalLiteral. *)
Definition unsigned_decimal (s : list ascii) : option jsnum :=
  if list_eq_dec ascii_dec s (list_ascii_of_string "Infinity") then Some (Infinite false)
  else
    let '(ip, ilen, r1) := take_digits 10 0 0 s in
    match r1 with
    | dot :: r2 =>
        if Ascii.eqb dot "." then
          let '(fp, flen, r3) := take_digits 10 0 0 r2 in
          match ilen, flen with
          | O, O => None
          | _, _ =>
              match exponent_part r3 with
              | Some e =>
                  Some (Fin ((inject_Z (Z.of_N ip)
                              + inject_Z (Z.of_N fp) / inject_Z (10 ^ Z.of_nat flen))
                             * 10 ^ e))
              | None => None
              end
          end
        else
          match ilen, exponent_part r1 with
          | S _, Some e => Some (Fin (inject_Z (Z.of_N ip) * 10 ^ e))
          | _, _ => None
          end
    | [] =>
        match ilen with
        | S _ => Some (Fin (inject_Z (Z.of_N ip)))
        | O => None
        end
    end.

Definition negate (x : jsnum) : jsnum :=
  match x with
  | NaN => NaN
  | Infinite b => Infinite (negb b)
  | Fin q => Fin (- q)
  end.

(** NonDecimalIntegerLiteral: [0x], [0o], [0b] and their upper-case forms. *)
Definition non_decimal (s : list ascii) : option jsnum :=
  match s with
  | z :: x :: rest =>
      if Ascii.eqb z "0" then
        let radix :=
          if Ascii.eqb x "x" || Ascii.eqb x "X" then Some 16%N
          else if Ascii.eqb x "o" || Ascii.eqb x "O" then Some 8%N
          else if Ascii.eqb x "b" || Ascii.eqb x "B" then Some 2%N
          else None in
        match radix with
        | Some b => option_map (fun v => Fin (inject_Z (Z.of_N v))) (all_digits b rest)
        | None => None
        end
      else None
  | _ => None
  end.

(** [Number(s)] on a string: white space stripped, the empty string is 0,
    then the double nearest to the value of a numeric literal, or [NaN]. *)
Definition Number (s : string) : jsnum :=
  match trim_l (list_ascii_of_string s) with
  | [] => Fin 0
  | (c :: rest) as t =>
      match non_decimal t with
      | Some v => to_double v
      | None =>
          let r :=
            if Ascii.eqb c "-" then option_map negate (unsigned_decimal rest)
            else if Ascii.eqb c "+" then unsigned_decimal rest
            else unsigned_decimal t in
          match r with Some v => to_double v | None => NaN end
      end
  end.

(* ------------------------------------------------------------------------ *)
(** ** permit2.ts: parseChainId                                               *)
(* ------------------------------------------------------------------------ *)

(** The outcome of code that may throw an [Error] with a message. *)
Inductive result (A : Type) : Type :=
| Ok (a : A)
| Throw (message : string).
Arguments Ok {A} a.
Arguments Throw {A} message.

Definition last_part (parts : list string) : string :=
  List.last parts EmptyString.

Definition parseChainId (network : string) : result jsnum :=
  let parts := str_split ":" network in
  let id := Number (last_part parts) in
  if isNaN id then Throw ("Cannot parse chain ID from network: " ++ network)
  else Ok id.

(* ------------------------------------------------------------------------ *)
(** ** Small helpers                                                          *)
(* ------------------------------------------------------------------------ *)

Definition nl : string := String "010" EmptyString.

(** Decimal text of an integer, as template literals and [toString] give. *)
Definition Z_to_string (z : Z) : string := NilZero.string_of_int (Z.to_int z).
Definition nat_to_string (n : nat) : string := NilZero.string_of_uint (Nat.to_uint n).

(** [s.slice(0, n)]. *)
Definition slice_to (n : nat) (s : string) : string := substring 0 n s.

(** [s.includes(p)]. *)
Fixpoint includes (p s : string) : bool :=
  String.prefix p s ||
  match s with
  | EmptyString => false
  | String _ rest => includes p rest
  end.

Definition opt_bind {A B : Type} (x : option A) (f : A -> option B) : option B :=
  match x with Some a => f a | None => None end.

Notation "'do' x <- e ; k" := (opt_bind e (fun x => k))
  (at level 10, x name, e at level 100, k at level 200).

(** Assignment [o.k = v]: an own key keeps its place, a new key goes last. *)
Fixpoint set_field (k : string) (v : json) (fields : list (string * json))
  : list (string * json) :=
  match fields with
  | [] => [(k, v)]
  | (k', v') :: rest =>
      if String.eqb k k' then (k, v) :: rest else (k', v') :: set_field k v rest
  end.

Fixpoint indexed {A : Type} (f : A -> json) (i : nat) (l : list A)
  : list (string * json) :=
  match l with
  | [] => []
  | a :: rest => (nat_to_string i, f a) :: indexed f (S i) rest
  end.

(** Object spread [{ ...x }]: the own enumerable properties of [x]; nothing
    for [undefined], [null], numbers and booleans. *)
Definition spread (x : option json) : list (string * json) :=
  match x with
  | Some (JObj fields) => fields
  | Some (JArr items) => indexed (fun j => j) 0 items
  | Some (JStr s) =>
      indexed (fun c => JStr (String c EmptyString)) 0 (list_ascii_of_string s)
  | _ => []
  end.

(* ------------------------------------------------------------------------ *)
(** ** schemas/protocol.ts                                                    *)
(* ------------------------------------------------------------------------ *)

Definition SIXERR_PROTOCOL_VERSION : Q := 2.

Inductive ServerMessage : Type :=
| ServerRequest (id : string) (body : option json)
| ServerPing (ts : Q)
| ServerAuthOk (pluginId : string)
| ServerAuthError (message : string)
| ServerJwtRefresh (jwt : string)
| ServerPriceUpdateAck (inputTokenPrice outputTokenPrice : string).

(** [z.strictObject]: every key of the input is a key of the shape. *)
Definition strict_keys (shape : list string) (fields : list (string * json)) : bool :=
  forallb (fun kv => existsb (String.eqb (fst kv)) shape) fields.

(** [z.string()]. *)
Definition z_string (x : option json) : option string :=
  match x with Some (JStr s) => Some s | _ => None end.

(** [z.string().min(1)]. *)
Definition z_string_min1 (x : option json) : option string :=
  match x with
  | Some (JStr s) => if String.eqb s "" then None else Some s
  | _ => None
  end.

(** [z.number().int()]: an integer that is safe, between [-(2^53 - 1)] and
    [2^53 - 1]. *)
Definition safe_integer (q : Q) : bool :=
  Qeq_bool q (inject_Z (Qfloor q)) && (Z.abs (Qfloor q) <=? 9007199254740991)%Z.

Definition z_number_int (x : option json) : option Q :=
  match x with
  | Some (JNum q) => if safe_integer q then Some q else None
  | _ => None
  end.

(** [z.literal(v)] for a number [v]. *)
Definition z_literal_num (v : Q) (x : option json) : option unit :=
  match x with
  | Some (JNum q) => if Qeq_bool q v then Some tt else None
  | _ => None
  end.

Definition guard (b : bool) : option unit := if b then Some tt else None.

(** [ServerMessageSchema.safeParse]: the discriminated union over ["type"] of
    the six strict object schemas; [None] when [success] is false.  A key
    declared [z.unknown()] takes any value but has to be there. *)
Definition ServerMessageSchema_safeParse (input : json) : option ServerMessage :=
  match input with
  | JObj fields =>
      match assoc "type" fields with
      | Some (JStr t) =>
          if String.eqb t "request" then
            do _ <- guard (strict_keys ["type"; "id"; "body"] fields);
            do id <- z_string_min1 (assoc "id" fields);
            do body <- assoc "body" fields;
            Some (ServerRequest id (Some body))
          else if String.eqb t "ping" then
            do _ <- guard (strict_keys ["type"; "ts"] fields);
            do ts <- z_number_int (assoc "ts" fields);
            Some (ServerPing ts)
          else if String.eqb t "auth_ok" then
            do _ <- guard (strict_keys ["type"; "pluginId"; "protocol"] fields);
            do pluginId <- z_string_min1 (assoc "pluginId" fields);
            do _ <- z_literal_num SIXERR_PROTOCOL_VERSION (assoc "protocol" fields);
            Some (ServerAuthOk pluginId)
          else if String.eqb t "auth_error" then
            do _ <- guard (strict_keys ["type"; "message"] fields);
            do message <- z_string (assoc "message" fields);
            Some (ServerAuthError message)
          else if String.eqb t "jwt_refresh" then
            do _ <- guard (strict_keys ["type"; "jwt"] fields);
            do jwt <- z_string_min1 (assoc "jwt" fields);
            Some (ServerJwtRefresh jwt)
          else if String.eqb t "price_update_ack" then
            do _ <- guard (strict_keys ["type"; "inputTokenPrice"; "outputTokenPrice"] fields);
            do i <- z_string_min1 (assoc "inputTokenPrice" fields);
            do o <- z_string_min1 (assoc "outputTokenPrice" fields);
            Some (ServerPriceUpdateAck i o)
          else None
      | _ => None
      end
  | _ => None
  end.

(* ------------------------------------------------------------------------ *)
(** ** relay/openclaw-client.ts                                               *)
(* ------------------------------------------------------------------------ *)

Record OpenClawClientConfig : Type := {
  gatewayUrl : string;
  gatewayToken : string;
  agentId : option string;
  timeoutMs : option Z;
  defaultModel : option string
}.

(** How a response stream finishes: ['end'], or ['error'] with a message. *)
Inductive ResponseEnd : Type :=
| ResEnd
| ResError (message : string).

(** What one HTTP call to the gateway turns into, seen from the listeners
    the client registers: a request-level ['error'] (connection refused,
    the time-out before any response), or a response with its status, its
    ['data'] chunks and the way it finishes.  The chunks are the text the
    decoder yields.  A call on which the request emits ['error'] after the
    response has started (the time-out cutting a response in two), where
    both listeners of the streaming call run, is not among these. *)
Inductive Backend : Type :=
| RequestError (message : string)
| Response (statusCode : option Z) (chunks : list string) (fin : ResponseEnd).

(** A promise when the events of the call have all been delivered. *)
Inductive Settled (A : Type) : Type :=
| Resolved (a : A)
| Rejected (message : string)
| Pending.
Arguments Resolved {A} a.
Arguments Rejected {A} message.
Arguments Pending {A}.

Definition status_text (st : option Z) : string :=
  match st with Some n => Z_to_string n | None => "undefined" end.

Definition is_http_error (st : option Z) : bool :=
  match st with Some n => (400 <=? n)%Z | None => false end.

(** [StreamCallbacks] over the state [S] the callbacks close over.  [onEvent]
    also tells whether it threw; the caller's [try]/[catch] swallows that. *)
Record StreamCallbacks (S : Type) : Type := {
  onEvent : json -> S -> S * bool;
  onError : string -> S -> S;
  onDone : S -> S
}.
Arguments onEvent {S}.
Arguments onError {S}.
Arguments onDone {S}.

Section Runtime.

(** [JSON.parse] ([None] when it throws) and [JSON.stringify]. *)
Variable JSON_parse : string -> option json.
Variable JSON_stringify : json -> string.

(** [forwardToOpenClaw]: listeners on the response for ['data'] and ['end'],
    on the request for ['timeout'] and ['error']. *)
Definition forwardToOpenClaw (backend : Backend) : Settled json :=
  match backend with
  | RequestError message => Rejected message
  | Response st chunks ResEnd =>
      let raw := String.concat EmptyString chunks in
      match JSON_parse raw with
      | None =>
          Rejected ("OpenClaw Gateway returned invalid JSON (status "
                    ++ status_text st ++ "): " ++ slice_to 200 raw)
      | Some parsed =>
          if is_http_error st then
            Rejected ("OpenClaw Gateway error (status " ++ status_text st
                      ++ "): " ++ JSON_stringify parsed)
          else Resolved parsed
      end
  | Response _ _ (ResError _) => Pending
  end.

(** The [data:] lines of one SSE block, joined by new lines. *)
Definition sse_data (part : string) : string :=
  fold_left
    (fun dataStr line =>
       if startsWith "event: " line then dataStr
       else if startsWith "data: " line then
         dataStr ++ (if String.eqb dataStr "" then "" else nl) ++ slice_from 6 line
       else dataStr)
    (str_split nl part) "".

(** The body of the loop over the complete blocks. *)
Definition sse_part {S : Type} (cb : StreamCallbacks S) (part : string) (s : S) : S :=
  if String.eqb (trim part) "" then s
  else if String.eqb (trim part) "data: [DONE]" then s
  else
    let dataStr := sse_data part in
    if String.eqb dataStr "" then s
    else match JSON_parse dataStr with
         | Some parsed => fst (onEvent cb parsed s)
         | None => s
         end.

(** The ['data'] listener: [buffer] and the callbacks' state. *)
Definition sse_chunk {S : Type} (cb : StreamCallbacks S)
  (st : string * S) (chunk : string) : string * S :=
  let parts := str_split (nl ++ nl) (fst st ++ chunk) in
  (List.last parts "",
   fold_left (fun s part => sse_part cb part s) (removelast parts) (snd st)).

(** [streamFromOpenClaw]: the final state of the callbacks, and whether the
    returned promise resolved (it never rejects). *)
Definition streamFromOpenClaw {S : Type} (cb : StreamCallbacks S)
  (backend : Backend) (s : S) : S * bool :=
  match backend with
  | RequestError message => (onError cb message s, true)
  | Response st chunks fin =>
      if is_http_error st then
        match fin with
        | ResEnd =>
            let body := String.concat EmptyString chunks in
            (onError cb ("OpenClaw Gateway error (status " ++ status_text st
                         ++ "): " ++ slice_to 500 body) s, true)
        | ResError _ => (s, false)
        end
      else
        let s' := snd (fold_left (sse_chunk cb) chunks ("", s)) in
        match fin with
        | ResEnd => (onDone cb s', true)
        | ResError message => (onError cb message s', true)
        end
  end.

(* ------------------------------------------------------------------------ *)
(** ** relay/request-forwarder.ts                                             *)
(* ------------------------------------------------------------------------ *)

(** The variables the streaming callbacks close over: [usage], and what has
    been handed to [sendMessage] so far, oldest first. *)
Record RelayState : Type := {
  usage : json;
  sent : list json
}.

Definition relay_send (msg : json) (r : RelayState) : RelayState :=
  {| usage := usage r; sent := sent r ++ [msg] |}.

Definition zero_usage : json :=
  JObj [("input_tokens", JNum 0); ("output_tokens", JNum 0); ("total_tokens", JNum 0)].

Definition stream_event_msg (requestId : string) (event : json) : json :=
  JObj [("type", JStr "stream_event"); ("id", JStr requestId); ("event", event)].

Definition stream_end_msg (requestId : string) (u : json) : json :=
  JObj [("type", JStr "stream_end"); ("id", JStr requestId); ("usage", u)].

Definition response_msg (requestId : string) (body : json) : json :=
  JObj [("type", JStr "response"); ("id", JStr requestId); ("body", body)].

Definition error_msg (requestId : string) (message : string) : json :=
  JObj [("type", JStr "error"); ("id", JStr requestId);
        ("code", JStr "plugin_error"); ("message", JStr message)].

(** [evt.type === "response.completed" && evt.response?.usage], when truthy. *)
Definition completed_usage (event : json) : option json :=
  if is_str "response.completed" (get "type" event) then
    match get "response" event with
    | Some r =>
        match get "usage" r with
        | Some u => if truthy u then Some u else None
        | None => None
        end
    | None => None
    end
  else None.

Definition relay_callbacks (requestId : string) : StreamCallbacks RelayState := {|
  onEvent := fun event r =>
    let r1 := relay_send (stream_event_msg requestId event) r in
    match event with
    | JNull => (r1, true)   (* reading [evt.type] of [null] throws *)
    | _ =>
        match completed_usage event with
        | Some u => ({| usage := u; sent := sent r1 |}, false)
        | None => (r1, false)
        end
    end;
  onError := fun message r => relay_send (error_msg requestId message) r;
  onDone := fun r => relay_send (stream_end_msg requestId (usage r)) r
|}.

(** [err.message || String(err)] for an [Error]. *)
Definition error_text (message : string) : string :=
  if String.eqb message "" then "Error" else message.

Definition forward_body (body : option json) (cfg : OpenClawClientConfig)
  : list (string * json) :=
  let forwardBody := spread body in
  if is_str "default" (assoc "model" forwardBody)
     || match assoc "model" forwardBody with
        | Some m => negb (truthy m)
        | None => true
        end
  then set_field "model"
         (JStr (match defaultModel cfg with Some m => m | None => "kimi-coding/k2p5" end))
         forwardBody
  else forwardBody.

Definition is_true (x : option json) : bool :=
  match x with Some (JBool true) => true | _ => false end.

(** [handleIncomingRequest].  [gateway] is the gateway's behaviour on the
    body it is sent, the flag telling whether the call asks for an event
    stream.  The result: the messages handed to [sendMessage], in order, and
    whether the returned promise settled. *)
Definition handleIncomingRequest (requestId : string) (body : option json)
  (openClawConfig : OpenClawClientConfig)
  (gateway : json -> bool -> Backend) : list json * bool :=
  let forwardBody := forward_body body openClawConfig in
  let isStreaming := is_true (assoc "stream" forwardBody) in
  if isStreaming then
    let '(r, settled) :=
      streamFromOpenClaw (relay_callbacks requestId)
        (gateway (JObj forwardBody) true)
        {| usage := zero_usage; sent := [] |} in
    (sent r, settled)
  else
    let forwardBody := set_field "stream" (JBool false) forwardBody in
    match forwardToOpenClaw (gateway (JObj forwardBody) false) with
    | Resolved response => ([response_msg requestId response], true)
    | Rejected message => ([error_msg requestId (error_text message)], true)
    | Pending => ([], false)
    end.

(* ------------------------------------------------------------------------ *)
(** ** client/provider/ws/ws-client.ts                                        *)
(* ------------------------------------------------------------------------ *)

Inductive ConnectionStatus : Type :=
| connecting | authenticating | connected | reconnecting | disconnected.

(** [readyState] of a WebSocket. *)
Inductive ReadyState : Type := CONNECTING | OPEN | CLOSING | CLOSED.

Record Pricing : Type := {
  inputTokenPrice : string;
  outputTokenPrice : string
}.

Record PluginClientConfig : Type := {
  serverUrl : string;
  jwt : string;
  reconnectPolicy : option BackoffPolicy;
  openClawConfig : OpenClawClientConfig;
  pricing : option Pricing;
  agentName : option string;
  agentDescription : option string
}.

(** What the client does to the outside: the callbacks of its configuration
    and the calls on sockets and timers.  Console output is left out. *)
Inductive Effect : Type :=
| StatusChange (st : ConnectionStatus) (plugin : option string) (count : Z)
| JwtRefreshed (newJwt : string)
| PriceUpdateAcked (p : Pricing)
| SocketCreated (sock : nat) (url : string)
| SocketSend (sock : nat) (msg : json)
| SocketClose (sock : nat) (code : Z) (reason : string)
| TimerSet (timer : nat) (delayMs : jsnum)
| TimerCleared (timer : nat)
| RelayStarted (requestId : string) (body : option json).

(** The fields of [PluginClient], then the runtime's side: the ready state
    of every socket created so far (a socket is named by its index), which
    timers are still pending, and the effects so far, oldest first. *)
Record PluginClient : Type := mkClient {
  ws : option nat;
  status : ConnectionStatus;
  reconnectAttempt : Z;
  closed : bool;
  requestCount : Z;
  pluginId : option string;
  reconnectTimer : option nat;
  policy : BackoffPolicy;
  config : PluginClientConfig;
  sockets : list ReadyState;
  timers : list bool;
  effects : list Effect
}.

Definition new_PluginClient (cfg : PluginClientConfig) : PluginClient := {|
  ws := None;
  status := disconnected;
  reconnectAttempt := 0;
  closed := true;
  requestCount := 0;
  pluginId := None;
  reconnectTimer := None;
  policy := match reconnectPolicy cfg with
            | Some p => p
            | None => DEFAULT_RECONNECT_POLICY
            end;
  config := cfg;
  sockets := [];
  timers := [];
  effects := []
|}.

Definition set_ws (v : option nat) (c : PluginClient) : PluginClient :=
  mkClient v (status c) (reconnectAttempt c) (closed c) (requestCount c)
    (pluginId c) (reconnectTimer c) (policy c) (config c) (sockets c)
    (timers c) (effects c).
Definition set_status (v : ConnectionStatus) (c : PluginClient) : PluginClient :=
  mkClient (ws c) v (reconnectAttempt c) (closed c) (requestCount c)
    (pluginId c) (reconnectTimer c) (policy c) (config c) (sockets c)
    (timers c) (effects c).
Definition set_reconnectAttempt (v : Z) (c : PluginClient) : PluginClient :=
  mkClient (ws c) (status c) v (closed c) (requestCount c)
    (pluginId c) (reconnectTimer c) (policy c) (config c) (sockets c)
    (timers c) (effects c).
Definition set_closed (v : bool) (c : PluginClient) : PluginClient :=
  mkClient (ws c) (status c) (reconnectAttempt c) v (requestCount c)
    (pluginId c) (reconnectTimer c) (policy c) (config c) (sockets c)
    (timers c) (effects c).
Definition set_requestCount (v : Z) (c : PluginClient) : PluginClient :=
  mkClient (ws c) (status c) (reconnectAttempt c) (closed c) v
    (pluginId c) (reconnectTimer c) (policy c) (config c) (sockets c)
    (timers c) (effects c).
Definition set_pluginId (v : option string) (c : PluginClient) : PluginClient :=
  mkClient (ws c) (status c) (reconnectAttempt c) (closed c) (requestCount c)
    v (reconnectTimer c) (policy c) (config c) (sockets c)
    (timers c) (effects c).
Definition set_reconnectTimer (v : option nat) (c : PluginClient) : PluginClient :=
  mkClient (ws c) (status c) (reconnectAttempt c) (closed c) (requestCount c)
    (pluginId c) v (policy c) (config c) (sockets c)
    (timers c) (effects c).
Definition set_config (v : PluginClientConfig) (c : PluginClient) : PluginClient :=
  mkClient (ws c) (status c) (reconnectAttempt c) (closed c) (requestCount c)
    (pluginId c) (reconnectTimer c) (policy c) v (sockets c)
    (timers c) (effects c).
Definition set_sockets (v : list ReadyState) (c : PluginClient) : PluginClient :=
  mkClient (ws c) (status c) (reconnectAttempt c) (closed c) (requestCount c)
    (pluginId c) (reconnectTimer c) (policy c) (config c) v
    (timers c) (effects c).
Definition set_timers (v : list bool) (c : PluginClient) : PluginClient :=
  mkClient (ws c) (status c) (reconnectAttempt c) (closed c) (requestCount c)
    (pluginId c) (reconnectTimer c) (policy c) (config c) (sockets c)
    v (effects c).
Definition emit (e : Effect) (c : PluginClient) : PluginClient :=
  mkClient (ws c) (status c) (reconnectAttempt c) (closed c) (requestCount c)
    (pluginId c) (reconnectTimer c) (policy c) (config c) (sockets c)
    (timers c) (effects c ++ [e]).

(** Replace the element at index [i], if there is one. *)
Fixpoint update_nth {A : Type} (i : nat) (v : A) (l : list A) : list A :=
  match l, i with
  | [], _ => []
  | _ :: rest, O => v :: rest
  | a :: rest, S i' => a :: update_nth i' v rest
  end.

Definition setStatus (st : ConnectionStatus) (c : PluginClient) : PluginClient :=
  let c := set_status st c in
  emit (StatusChange st (pluginId c) (requestCount c)) c.

Definition sendMessage (msg : json) (c : PluginClient) : PluginClient :=
  match ws c with
  | Some k =>
      match nth_error (sockets c) k with
      | Some OPEN => emit (SocketSend k msg) c
      | _ => c
      end
  | None => c
  end.

(** [ws.close(code, reason)] on socket [k]: the closing handshake starts
    unless the socket is already closing or closed. *)
Definition socket_close (k : nat) (code : Z) (reason : string) (c : PluginClient)
  : PluginClient :=
  let c := emit (SocketClose k code reason) c in
  match nth_error (sockets c) k with
  | Some CONNECTING | Some OPEN => set_sockets (update_nth k CLOSING (sockets c)) c
  | _ => c
  end.

(** [connect].  [new WebSocket(url)] throws for a URL it cannot use; this
    is the client on a URL the constructor takes, the only one [startPlugin]
    hands out. *)
Definition connect (c : PluginClient) : PluginClient :=
  if closed c then c
  else
    let c := setStatus connecting c in
    let k := List.length (sockets c) in
    let c := emit (SocketCreated k (serverUrl (config c))) c in
    let c := set_sockets (sockets c ++ [CONNECTING]) c in
    set_ws (Some k) c.

Definition start (c : PluginClient) : PluginClient :=
  connect (set_closed false c).

Definition stop (c : PluginClient) : PluginClient :=
  let c := set_closed true c in
  let c := match reconnectTimer c with
           | Some t =>
               set_reconnectTimer None
                 (set_timers (update_nth t false (timers c))
                    (emit (TimerCleared t) c))
           | None => c
           end in
  let c := match ws c with
           | Some k => set_ws None (socket_close k 1000 "plugin stopping" c)
           | None => c
           end in
  setStatus disconnected c.

Definition updatePricing (i o : string) (c : PluginClient) : PluginClient :=
  sendMessage (JObj [("type", JStr "price_update");
                     ("inputTokenPrice", JStr i);
                     ("outputTokenPrice", JStr o)]) c.

Definition nonempty (x : option string) : option string :=
  match x with
  | Some s => if String.eqb s "" then None else Some s
  | None => None
  end.

Definition auth_message (cfg : PluginClientConfig) : json :=
  JObj ([("type", JStr "auth"); ("jwt", JStr (jwt cfg));
         ("protocol", JNum SIXERR_PROTOCOL_VERSION)]
        ++ match pricing cfg with
           | Some p => [("inputTokenPrice", JStr (inputTokenPrice p));
                        ("outputTokenPrice", JStr (outputTokenPrice p))]
           | None => []
           end
        ++ match nonempty (agentName cfg) with
           | Some n => [("agentName", JStr n)]
           | None => []
           end
        ++ match nonempty (agentDescription cfg) with
           | Some d => [("agentDescription", JStr d)]
           | None => []
           end).

(** The ['open'] listener. *)
Definition on_open (c : PluginClient) : PluginClient :=
  let c := setStatus authenticating c in
  sendMessage (auth_message (config c)) c.

Definition scheduleReconnect (rnd : Q) (c : PluginClient) : PluginClient :=
  if closed c then setStatus disconnected c
  else
    let c := setStatus reconnecting c in
    let c := set_reconnectAttempt (reconnectAttempt c + 1) c in
    let delayMs := computeBackoff (policy c) (reconnectAttempt c) rnd in
    let t := List.length (timers c) in
    let c := emit (TimerSet t delayMs) c in
    let c := set_timers (timers c ++ [true]) c in
    set_reconnectTimer (Some t) c.

(** The ['close'] listener; [rnd] is the draw [computeBackoff] makes when it
    is reached. *)
Definition on_close (code : Z) (rnd : Q) (c : PluginClient) : PluginClient :=
  let c := set_ws None c in
  let c := if (code =? 1012)%Z then set_reconnectAttempt 0 c else c in
  scheduleReconnect rnd c.

(** The ['error'] listener only logs. *)
Definition on_error (message : string) (c : PluginClient) : PluginClient := c.

Definition with_jwt (j : string) (cfg : PluginClientConfig) : PluginClientConfig :=
  {| serverUrl := serverUrl cfg; jwt := j; reconnectPolicy := reconnectPolicy cfg;
     openClawConfig := openClawConfig cfg; pricing := pricing cfg;
     agentName := agentName cfg; agentDescription := agentDescription cfg |}.

Definition with_pricing (p : Pricing) (cfg : PluginClientConfig) : PluginClientConfig :=
  {| serverUrl := serverUrl cfg; jwt := jwt cfg; reconnectPolicy := reconnectPolicy cfg;
     openClawConfig := openClawConfig cfg; pricing := Some p;
     agentName := agentName cfg; agentDescription := agentDescription cfg |}.

(** The [switch] of [handleMessage] on a validated message. *)
Definition dispatch (msg : ServerMessage) (c : PluginClient) : PluginClient :=
  match msg with
  | ServerAuthOk pid =>
      let c := set_pluginId (Some pid) c in
      let c := set_reconnectAttempt 0 c in
      setStatus connected c
  | ServerAuthError _ =>
      let c := set_closed true c in
      let c := match ws c with
               | Some k => set_ws None (socket_close k 1000 "auth failed" c)
               | None => c
               end in
      setStatus disconnected c
  | ServerJwtRefresh j =>
      let c := set_config (with_jwt j (config c)) c in
      emit (JwtRefreshed j) c
  | ServerPriceUpdateAck i o =>
      let p := {| inputTokenPrice := i; outputTokenPrice := o |} in
      let c := set_config (with_pricing p (config c)) c in
      emit (PriceUpdateAcked p) c
  | ServerPing ts =>
      sendMessage (JObj [("type", JStr "pong"); ("ts", JNum ts)]) c
  | ServerRequest id body =>
      emit (RelayStarted id body) c
  end.

Definition handleMessage (raw : string) (c : PluginClient) : PluginClient :=
  match JSON_parse raw with
  | None => c
  | Some parsed =>
      match ServerMessageSchema_safeParse parsed with
      | None => c
      | Some msg => dispatch msg c
      end
  end.

(** The [then] callback on the promise of [handleIncomingRequest]. *)
Definition on_relay_settled (c : PluginClient) : PluginClient :=
  let c := set_requestCount (requestCount c + 1) c in
  emit (StatusChange connected (pluginId c) (requestCount c)) c.

(** What can happen to a client: calls of its public methods, events of the
    sockets it created, a timer firing, and the relay of a request calling
    back. *)
Inductive Event : Type :=
| Start
| Stop
| UpdatePricing (i o : string)
| SocketOpen (k : nat)
| SocketMessage (k : nat) (raw : string)
| SocketClosed (k : nat) (code : Z) (rnd : Q)
| SocketError (k : nat) (message : string)
| TimerFired (t : nat)
| RelaySends (msg : json)
| RelaySettled.

(** One event.  The runtime delivers ['open'] once to a connecting socket,
    ['message'] to a socket that is open or closing, ['close'] once, and
    fires only pending timers; anything else leaves the client alone. *)
Definition step (c : PluginClient) (ev : Event) : PluginClient :=
  match ev with
  | Start => start c
  | Stop => stop c
  | UpdatePricing i o => updatePricing i o c
  | SocketOpen k =>
      match nth_error (sockets c) k with
      | Some CONNECTING => on_open (set_sockets (update_nth k OPEN (sockets c)) c)
      | _ => c
      end
  | SocketMessage k raw =>
      match nth_error (sockets c) k with
      | Some OPEN | Some CLOSING => handleMessage raw c
      | _ => c
      end
  | SocketClosed k code rnd =>
      match nth_error (sockets c) k with
      | Some CLOSED | None => c
      | Some _ => on_close code rnd (set_sockets (update_nth k CLOSED (sockets c)) c)
      end
  | SocketError k message =>
      match nth_error (sockets c) k with
      | Some _ => on_error message c
      | None => c
      end
  | TimerFired t =>
      match nth_error (timers c) t with
      | Some true => connect (set_timers (update_nth t false (timers c)) c)
      | _ => c
      end
  | RelaySends msg => sendMessage msg c
  | RelaySettled => on_relay_settled c
  end.

Definition run (c : PluginClient) (evs : list Event) : PluginClient :=
  fold_left step evs c.

(* ------------------------------------------------------------------------ *)
(** ** client/consumer: types.ts, permit2.ts, sixerr-client.ts                *)
(* ------------------------------------------------------------------------ *)

Variable btoa : string -> string.

Record Permit2PaymentRequirements : Type := {
  scheme : string;
  network : string;
  asset : string;
  payTo : string;
  permit2Terminal : string;
  maxCost : string;
  inputTokenPrice_req : string;
  outputTokenPrice_req : string;
  platformFeeBps : Q;
  maxTimeoutSeconds : Q
}.

(** [accepts] is read with [?.], so it may be missing. *)
Record PaymentRequiredResponse : Type := {
  x402Version : Q;
  error : string;
  accepts : option (list Permit2PaymentRequirements)
}.

(** The parts of the typed data that vary; [domain.name], [types] and
    [primaryType] are constants. *)
Record Permit2TypedData : Type := {
  domain_chainId : jsnum;
  domain_verifyingContract : string;
  permitted_token : string;
  permitted_amount : Z;
  spender : string;
  nonce : Z;
  deadline : Z
}.

Record PaymentSigner : Type := {
  address : string;
  signTypedData : Permit2TypedData -> result string
}.

Definition PERMIT2_ADDRESS : string := "0x000000000022D473030F116dDEE9F6B43aC78BA3".

(** [BigInt(s)] on a string: [None] where it throws a [SyntaxError]. *)
Definition BigInt_of_string (s : string) : option Z :=
  match trim_l (list_ascii_of_string s) with
  | [] => Some 0%Z
  | (c :: rest) as t =>
      match non_decimal t with
      | Some (Fin q) => Some (Qfloor q)
      | _ =>
          if Ascii.eqb c "-" then option_map (fun v => (- Z.of_N v)%Z) (all_digits 10 rest)
          else if Ascii.eqb c "+" then option_map Z.of_N (all_digits 10 rest)
          else option_map Z.of_N (all_digits 10 t)
      end
  end.

(** [BigInt(x)] on a number: [None] where it throws a [RangeError]. *)
Definition BigInt_of_number (q : Q) : option Z :=
  if Qeq_bool q (inject_Z (Qfloor q)) then Some (Qfloor q) else None.

(** [signPermit2Payment]; [now_nonce] and [now_deadline] are the two
    readings of [Date.now()].  The messages are those V8 gives the errors
    it raises inside [BigInt], without the name of the error class. *)
Definition signPermit2Payment (signer : PaymentSigner)
  (requirements : Permit2PaymentRequirements) (maxAmount : string)
  (now_nonce now_deadline : Z) : result string :=
  match parseChainId (network requirements) with
  | Throw m => Throw m
  | Ok chainId =>
      let nonce_ := now_nonce in
      let seconds := inject_Z (now_deadline / 1000) + maxTimeoutSeconds requirements in
      match BigInt_of_number seconds with
      | None =>
          Throw ("The number " ++ JSON_stringify (JNum seconds)
                 ++ " cannot be converted to a BigInt because it is not an integer")
      | Some deadline_ =>
          match BigInt_of_string maxAmount with
          | None => Throw ("Cannot convert " ++ maxAmount ++ " to a BigInt")
          | Some amount =>
              let typedData := {|
                domain_chainId := chainId;
                domain_verifyingContract := PERMIT2_ADDRESS;
                permitted_token := asset requirements;
                permitted_amount := amount;
                spender := permit2Terminal requirements;
                nonce := nonce_;
                deadline := deadline_ |} in
              match signTypedData signer typedData with
              | Throw m => Throw m
              | Ok signature =>
                  let payload :=
                    JObj [("sender", JStr (address signer));
                          ("permit",
                           JObj [("permitted",
                                  JObj [("token", JStr (asset requirements));
                                        ("amount", JStr maxAmount)]);
                                 ("nonce", JStr (Z_to_string nonce_));
                                 ("deadline", JNum (inject_Z deadline_))]);
                          ("signature", JStr signature)] in
                  Ok (btoa (JSON_stringify payload))
              end
          end
      end
  end.

(** One call of [fetch]. *)
Record Request : Type := {
  req_url : string;
  req_method : string;
  req_headers : list (string * string);
  req_body : option string
}.

(** A [Response]: status, content type, whether it has a body stream, and
    what its body readers give: [text()], [json()], and [json()] read at the
    type [PaymentRequiredResponse] the payment flow casts it to. *)
Record HttpResponse : Type := {
  resp_status : Z;
  resp_content_type : option string;
  resp_has_body : bool;
  resp_text : result string;
  resp_json : result json;
  resp_payment : result PaymentRequiredResponse
}.

(** The server behind [fetch]: its answer to a call, given the calls made
    before it. *)
Definition Fetch : Type := list Request -> Request -> result HttpResponse.

Record SixerrClientConfig : Type := {
  cfg_serverUrl : option string;
  signer : PaymentSigner;
  maxAmount : option string
}.

(** [.replace(/\/$/, "")]. *)
Fixpoint strip_trailing_slash (s : string) : string :=
  match s with
  | EmptyString => EmptyString
  | String c EmptyString => if Ascii.eqb c "/" then EmptyString else s
  | String c rest => String c (strip_trailing_slash rest)
  end.

Definition client_serverUrl (cfg : SixerrClientConfig) : string :=
  strip_trailing_slash
    (match cfg_serverUrl cfg with Some u => u | None => "https://sixerr.ai" end).

Definition post_headers : list (string * string) :=
  [("Content-Type", "application/json")].

(** [postWith402Handling]: its outcome and the calls of [fetch] it made, in
    order. *)
Definition postWith402Handling (fetch : Fetch) (now_nonce now_deadline : Z)
  (cfg : SixerrClientConfig) (url body : string) (maxAmountOverride : option string)
  : result HttpResponse * list Request :=
  let headers := post_headers in
  let first := {| req_url := url; req_method := "POST";
                  req_headers := headers; req_body := Some body |} in
  match fetch [] first with
  | Throw m => (Throw m, [first])
  | Ok firstRes =>
      if negb (resp_status firstRes =? 402)%Z then (Ok firstRes, [first])
      else
        match resp_payment firstRes with
        | Throw m => (Throw m, [first])
        | Ok paymentBody =>
            match
              match accepts paymentBody with
              | Some l => List.find (fun a => String.eqb (scheme a) "permit2") l
              | None => None
              end
            with
            | None =>
                (Throw "Server returned 402 but no Permit2 payment scheme found",
                 [first])
            | Some requirements =>
                let maxAmount_ :=
                  match maxAmountOverride with
                  | Some a => a
                  | None =>
                      match maxAmount cfg with
                      | Some a => a
                      | None => maxCost requirements
                      end
                  end in
                match signPermit2Payment (signer cfg) requirements maxAmount_
                        now_nonce now_deadline with
                | Throw m => (Throw m, [first])
                | Ok xPayment =>
                    let retry := {| req_url := url; req_method := "POST";
                                    req_headers := headers ++ [("X-PAYMENT", xPayment)];
                                    req_body := Some body |} in
                    (fetch [first] retry, [first; retry])
                end
            end
        end
  end.

Definition responses_url (cfg : SixerrClientConfig) (agent : option string) : string :=
  match nonempty agent with
  | Some a => client_serverUrl cfg ++ "/v1/responses/" ++ a
  | None => client_serverUrl cfg ++ "/v1/responses"
  end.

Definition respondRaw (fetch : Fetch) (now_nonce now_deadline : Z)
  (cfg : SixerrClientConfig) (rawBody : json) (agent : option string)
  : result HttpResponse * list Request :=
  postWith402Handling fetch now_nonce now_deadline cfg
    (responses_url cfg agent) (JSON_stringify rawBody) None.

Definition listProviders (fetch : Fetch) (cfg : SixerrClientConfig)
  : result json * list Request :=
  let call := {| req_url := client_serverUrl cfg ++ "/v1/providers";
                 req_method := "GET"; req_headers := []; req_body := None |} in
  match fetch [] call with
  | Throw m => (Throw m, [call])
  | Ok res =>
      if (200 <=? resp_status res)%Z && (resp_status res <=? 299)%Z
      then (resp_json res, [call])
      else (Throw ("Failed to fetch providers (" ++ Z_to_string (resp_status res) ++ ")"),
            [call])
  end.

(* ------------------------------------------------------------------------ *)
(** ** The local signing proxy                                                *)
(* ------------------------------------------------------------------------ *)

(** The request the proxy is handed: [req.url], [req.method], and what
    [readBody] gives. *)
Record IncomingMessage : Type := {
  im_url : option string;
  im_method : option string;
  im_body : result string
}.

Inductive ReplyBody : Type :=
| Text (s : string)
| Piped (upstream : HttpResponse).

(** What the proxy writes: [writeHead(status, headers)], then the body. *)
Record Reply : Type := {
  reply_status : Z;
  reply_headers : list (string * string);
  reply_body : ReplyBody
}.

Definition json_reply (st : Z) (body : json) : Reply :=
  {| reply_status := st;
     reply_headers := [("Content-Type", "application/json")];
     reply_body := Text (JSON_stringify body) |}.

Definition error_reply (st : Z) (message : string) : Reply :=
  json_reply st (JObj [("error", JStr message)]).

(** [url.match(/^\/v1\/responses(?:\/([^/?]+))?$/)]: [None] when there is no
    match, otherwise the captured segment, if any. *)
Definition match_responses (url : string) : option (option string) :=
  if String.eqb url "/v1/responses" then Some None
  else if String.prefix "/v1/responses/" url then
    let seg := slice_from 14 url in
    if String.eqb seg "" then None
    else if forallb (fun c => negb (Ascii.eqb c "/" || Ascii.eqb c "?"))
              (list_ascii_of_string seg)
    then Some (Some seg)
    else None
  else None.

Definition handleResponses (fetch : Fetch) (now_nonce now_deadline : Z)
  (cfg : SixerrClientConfig) (req : IncomingMessage) (agent : option string)
  : result Reply * list Request :=
  match
    match im_body req with
    | Ok bodyText => JSON_parse bodyText
    | Throw _ => None
    end
  with
  | None => (Ok (error_reply 400 "Invalid JSON body"), [])
  | Some rawBody =>
      match respondRaw fetch now_nonce now_deadline cfg rawBody agent with
      | (Throw m, calls) => (Ok (error_reply 502 m), calls)
      | (Ok upstream, calls) =>
          let contentType :=
            match resp_content_type upstream with
            | Some t => t
            | None => "application/json"
            end in
          if includes "text/event-stream" contentType && resp_has_body upstream then
            (Ok {| reply_status := resp_status upstream;
                   reply_headers := [("Content-Type", "text/event-stream");
                                     ("Cache-Control", "no-cache");
                                     ("Connection", "keep-alive")];
                   reply_body := Piped upstream |}, calls)
          else
            match resp_text upstream with
            | Throw m => (Throw m, calls)
            | Ok body =>
                (Ok {| reply_status := resp_status upstream;
                       reply_headers := [("Content-Type", contentType)];
                       reply_body := Text body |}, calls)
            end
      end
  end.

Definition handleRequest (fetch : Fetch) (now_nonce now_deadline : Z)
  (cfg : SixerrClientConfig) (req : IncomingMessage)
  : result Reply * list Request :=
  let url := match im_url req with Some u => u | None => "/" end in
  let method := match im_method req with Some m => m | None => "GET" end in
  if String.eqb method "GET" && String.eqb url "/v1/providers" then
    match listProviders fetch cfg with
    | (Ok providers, calls) => (Ok (json_reply 200 providers), calls)
    | (Throw m, calls) => (Ok (error_reply 502 m), calls)
    end
  else
    match (if String.eqb method "POST" then match_responses url else None) with
    | Some agent => handleResponses fetch now_nonce now_deadline cfg req agent
    | None => (Ok (error_reply 404 "Not found"), [])
    end.

(** The listener [createHttpProxy] installs: anything [handleRequest] throws
    becomes a 500. *)
Definition proxy_listener (fetch : Fetch) (now_nonce now_deadline : Z)
  (cfg : SixerrClientConfig) (req : IncomingMessage) : Reply * list Request :=
  match handleRequest fetch now_nonce now_deadline cfg req with
  | (Ok reply, calls) => (reply, calls)
  | (Throw _, calls) => (error_reply 500 "Internal proxy error", calls)
  end.

End Runtime.

(* ------------------------------------------------------------------------ *)
(** ** The runtime's functions, for running the code on concrete inputs       *)
(* ------------------------------------------------------------------------ *)

(** Everything above takes [JSON.parse], [JSON.stringify] and [btoa] as
    parameters, and the general theorems hold for any choice.  The functions
    here are the ones the examples run with. *)

Definition dquote : ascii := "034".

Fixpoint json_ws (s : list ascii) : list ascii :=
  match s with
  | c :: rest =>
      if ((code c =? 32) || (code c =? 9) || (code c =? 10) || (code c =? 13))%N
      then json_ws rest else s
  | [] => []
  end.

Definition hex4 (a b c d : ascii) : option N :=
  do x <- digit_val 16 a; do y <- digit_val 16 b;
  do z <- digit_val 16 c; do w <- digit_val 16 d;
  Some (((x * 16 + y) * 16 + z) * 16 + w)%N.

(** The characters of a string literal after its opening quote. *)
Fixpoint json_string (s : list ascii) : option (string * list ascii) :=
  match s with
  | [] => None
  | c :: rest =>
      if Ascii.eqb c dquote then Some (EmptyString, rest)
      else if (code c <? 32)%N then None
      else if Ascii.eqb c "\" then
        match rest with
        | e :: rest' =>
            let plain (ch : ascii) :=
              do r <- json_string rest'; Some (String ch (fst r), snd r) in
            if Ascii.eqb e dquote then plain dquote
            else if Ascii.eqb e "\" then plain "\"%char
            else if Ascii.eqb e "/" then plain "/"%char
            else if Ascii.eqb e "b" then plain "008"%char
            else if Ascii.eqb e "f" then plain "012"%char
            else if Ascii.eqb e "n" then plain "010"%char
            else if Ascii.eqb e "r" then plain "013"%char
            else if Ascii.eqb e "t" then plain "009"%char
            else None
        | [] => None
        end
      else do r <- json_string rest; Some (String c (fst r), snd r)
  end.

(** A JSON number: [-]? int frac? exp?, no leading zeros. *)
Definition json_number (s : list ascii) : option (Q * list ascii) :=
  let '(neg, s1) :=
    match s with
    | c :: rest => if Ascii.eqb c "-" then (true, rest) else (false, s)
    | [] => (false, s)
    end in
  let '(ip, ilen, r1) := take_digits 10 0 0 s1 in
  let leading_zero :=
    match s1 with
    | c :: _ => Ascii.eqb c "0" && negb (Nat.eqb ilen 1)
    | [] => false
    end in
  if Nat.eqb ilen 0 || leading_zero then None
  else
    let '(mant, r2) :=
      match r1 with
      | dot :: r1' =>
          if Ascii.eqb dot "."
          then let '(fp, flen, r1'') := take_digits 10 0 0 r1' in
               match flen with
               | O => (None, r1)
               | S _ => (Some (inject_Z (Z.of_N ip)
                               + inject_Z (Z.of_N fp) / inject_Z (10 ^ Z.of_nat flen)),
                         r1'')
               end
          else (Some (inject_Z (Z.of_N ip)), r1)
      | [] => (Some (inject_Z (Z.of_N ip)), r1)
      end in
    match mant with
    | None => None
    | Some m =>
        let signed (q : Q) := if neg then - q else q in
        match r2 with
        | e :: r3 =>
            if Ascii.eqb e "e" || Ascii.eqb e "E" then
              let '(sg, r4) :=
                match r3 with
                | c :: rest =>
                    if Ascii.eqb c "-" then (true, rest)
                    else if Ascii.eqb c "+" then (false, rest)
                    else (false, r3)
                | [] => (false, r3)
                end in
              let '(ev, elen, r5) := take_digits 10 0 0 r4 in
              match elen with
              | O => None
              | S _ =>
                  Some (signed (m * 10 ^ (if sg then - Z.of_N ev else Z.of_N ev)%Z), r5)
              end
            else Some (signed m, r2)
        | [] => Some (signed m, r2)
        end
    end.

(** The double a number of the text is read as.  A number too large for a
    double is read as an infinity, which [json] has no value for: it keeps
    its exact value here. *)
Definition as_double (q : Q) : Q :=
  match round64 q with
  | Fin d => d
  | _ => q
  end.

Definition expect (lit : string) (v : json) (s : list ascii)
  : option (json * list ascii) :=
  let l := list_ascii_of_string lit in
  if list_eq_dec ascii_dec (firstn (List.length l) s) l
  then Some (v, skipn (List.length l) s) else None.

Fixpoint json_value (fuel : nat) (s : list ascii) {struct fuel}
  : option (json * list ascii) :=
  match fuel with
  | O => None
  | S f =>
      match json_ws s with
      | [] => None
      | c :: rest =>
          if Ascii.eqb c "{" then
            match json_ws rest with
            | c' :: rest' =>
                if Ascii.eqb c' "}" then Some (JObj [], rest')
                else do r <- json_members f [] rest; Some (JObj (fst r), snd r)
            | [] => None
            end
          else if Ascii.eqb c "[" then
            match json_ws rest with
            | c' :: rest' =>
                if Ascii.eqb c' "]" then Some (JArr [], rest')
                else do r <- json_elements f rest; Some (JArr (fst r), snd r)
            | [] => None
            end
          else if Ascii.eqb c dquote then
            do r <- json_string rest; Some (JStr (fst r), snd r)
          else if Ascii.eqb c "t" then expect "true" (JBool true) (c :: rest)
          else if Ascii.eqb c "f" then expect "false" (JBool false) (c :: rest)
          else if Ascii.eqb c "n" then expect "null" JNull (c :: rest)
          else do r <- json_number (c :: rest); Some (JNum (as_double (fst r)), snd r)
      end
  end
with json_members (fuel : nat) (acc : list (string * json)) (s : list ascii)
  {struct fuel} : option (list (string * json) * list ascii) :=
  match fuel with
  | O => None
  | S f =>
      match json_ws s with
      | c :: rest =>
          if Ascii.eqb c dquote then
            do k <- json_string rest;
            match json_ws (snd k) with
            | colon :: r1 =>
                if Ascii.eqb colon ":" then
                  do v <- json_value f r1;
                  let acc' := set_field (fst k) (fst v) acc in
                  match json_ws (snd v) with
                  | d :: r2 =>
                      if Ascii.eqb d "," then json_members f acc' r2
                      else if Ascii.eqb d "}" then Some (acc', r2)
                      else None
                  | [] => None
                  end
                else None
            | [] => None
            end
          else None
      | [] => None
      end
  end
with json_elements (fuel : nat) (s : list ascii) {struct fuel}
  : option (list json * list ascii) :=
  match fuel with
  | O => None
  | S f =>
      do v <- json_value f s;
      match json_ws (snd v) with
      | d :: r =>
          if Ascii.eqb d "," then
            do more <- json_elements f r; Some (fst v :: fst more, snd more)
          else if Ascii.eqb d "]" then Some ([fst v], r)
          else None
      | [] => None
      end
  end.

(** [JSON.parse] on texts whose strings use no [\u] escape. *)
Definition JSON_parse_text (s : string) : option json :=
  let l := list_ascii_of_string s in
  match json_value (S (List.length l)) l with
  | Some (v, rest) =>
      match json_ws rest with
      | [] => Some v
      | _ :: _ => None
      end
  | None => None
  end.

Definition quoted (s : string) : string :=
  String dquote (s ++ String dquote EmptyString).

Fixpoint escape (s : string) : string :=
  match s with
  | EmptyString => EmptyString
  | String c rest =>
      (if Ascii.eqb c dquote then String "\" (String dquote EmptyString)
       else if Ascii.eqb c "\" then "\\"
       else if Ascii.eqb c "010" then "\n"
       else if Ascii.eqb c "013" then "\r"
       else if Ascii.eqb c "009" then "\t"
       else String c EmptyString) ++ escape rest
  end.

Definition join (sep : string) (l : list string) : string := String.concat sep l.

(** [JSON.stringify] on values whose numbers are integers and whose strings
    hold no control character besides new line, return and tab. *)
Fixpoint JSON_stringify_text (j : json) : string :=
  match j with
  | JNull => "null"
  | JBool true => "true"
  | JBool false => "false"
  | JNum q => Z_to_string (Qfloor q)
  | JStr s => quoted (escape s)
  | JArr l => "[" ++ join "," (map JSON_stringify_text l) ++ "]"
  | JObj fields =>
      "{" ++ join ","
               (map (fun kv => quoted (escape (fst kv)) ++ ":"
                               ++ JSON_stringify_text (snd kv)) fields)
          ++ "}"
  end.

Definition b64_char (n : N) : ascii :=
  ascii_of_N (if n <? 26 then n + 65
              else if n <? 52 then n + 71
              else if n <? 62 then n - 4
              else if n =? 62 then 43 else 47)%N.

(** [btoa]: base64 with padding. *)
Fixpoint btoa_list (l : list ascii) : list ascii :=
  match l with
  | [] => []
  | [a] =>
      let x := code a in
      [b64_char (x / 4); b64_char ((x mod 4) * 16); "="%char; "="%char]
  | [a; b] =>
      let x := code a in let y := code b in
      [b64_char (x / 4); b64_char ((x mod 4) * 16 + y / 16);
       b64_char ((y mod 16) * 4); "="%char]
  | a :: b :: c :: rest =>
      let x := code a in let y := code b in let z := code c in
      b64_char (x / 4) :: b64_char ((x mod 4) * 16 + y / 16)
      :: b64_char ((y mod 16) * 4 + z / 64) :: b64_char (z mod 64)
      :: btoa_list rest
  end%N.

Definition btoa_text (s : string) : string :=
  string_of_list_ascii (btoa_list (list_ascii_of_string s)).

(* ------------------------------------------------------------------------ *)
(** ** schemas/protocol.ts: the messages of the plugin                        *)
(* ------------------------------------------------------------------------ *)

Inductive PluginMessage : Type :=
| PluginAuth (jwt : string)
    (inputPrice outputPrice name description : option string)
| PluginResponse (id : string) (body : json)
| PluginStreamEvent (id : string) (event : json)
| PluginStreamEnd (id : string) (input_tokens output_tokens total_tokens : Q)
| PluginError (id code message : string)
| PluginPong (ts : Q)
| PluginPriceUpdate (inputPrice outputPrice : string).

(** [z.string().optional()]: the key may be missing. *)
Definition z_string_optional (x : option json) : option (option string) :=
  match x with
  | None => Some None
  | Some (JStr s) => Some (Some s)
  | Some _ => None
  end.

(** [z.number().int().nonnegative()]. *)
Definition z_nonneg_int (x : option json) : option Q :=
  match z_number_int x with
  | Some q => if Qle_bool 0 q then Some q else None
  | None => None
  end.

(** The [usage] of [stream_end]: a strict object of three counters. *)
Definition z_usage (x : option json) : option (Q * Q * Q) :=
  match x with
  | Some (JObj u) =>
      do _ <- guard (strict_keys ["input_tokens"; "output_tokens"; "total_tokens"] u);
      do i <- z_nonneg_int (assoc "input_tokens" u);
      do o <- z_nonneg_int (assoc "output_tokens" u);
      do t <- z_nonneg_int (assoc "total_tokens" u);
      Some (i, o, t)
  | _ => None
  end.

(** [PluginMessageSchema.safeParse]. *)
Definition PluginMessageSchema_safeParse (input : json) : option PluginMessage :=
  match input with
  | JObj fields =>
      match assoc "type" fields with
      | Some (JStr t) =>
          if String.eqb t "auth" then
            do _ <- guard (strict_keys
                      ["type"; "jwt"; "protocol"; "inputTokenPrice";
                       "outputTokenPrice"; "agentName"; "agentDescription"] fields);
            do j <- z_string_min1 (assoc "jwt" fields);
            do _ <- z_literal_num SIXERR_PROTOCOL_VERSION (assoc "protocol" fields);
            do i <- z_string_optional (assoc "inputTokenPrice" fields);
            do o <- z_string_optional (assoc "outputTokenPrice" fields);
            do n <- z_string_optional (assoc "agentName" fields);
            do d <- z_string_optional (assoc "agentDescription" fields);
            Some (PluginAuth j i o n d)
          else if String.eqb t "response" then
            do _ <- guard (strict_keys ["type"; "id"; "body"] fields);
            do id <- z_string_min1 (assoc "id" fields);
            do body <- assoc "body" fields;
            Some (PluginResponse id body)
          else if String.eqb t "stream_event" then
            do _ <- guard (strict_keys ["type"; "id"; "event"] fields);
            do id <- z_string_min1 (assoc "id" fields);
            do event <- assoc "event" fields;
            Some (PluginStreamEvent id event)
          else if String.eqb t "stream_end" then
            do _ <- guard (strict_keys ["type"; "id"; "usage"] fields);
            do id <- z_string_min1 (assoc "id" fields);
            do u <- z_usage (assoc "usage" fields);
            Some (PluginStreamEnd id (fst (fst u)) (snd (fst u)) (snd u))
          else if String.eqb t "error" then
            do _ <- guard (strict_keys ["type"; "id"; "code"; "message"] fields);
            do id <- z_string_min1 (assoc "id" fields);
            do code <- z_string (assoc "code" fields);
            do message <- z_string (assoc "message" fields);
            Some (PluginError id code message)
          else if String.eqb t "pong" then
            do _ <- guard (strict_keys ["type"; "ts"] fields);
            do ts <- z_number_int (assoc "ts" fields);
            Some (PluginPong ts)
          else if String.eqb t "price_update" then
            do _ <- guard (strict_keys ["type"; "inputTokenPrice"; "outputTokenPrice"] fields);
            do i <- z_string_min1 (assoc "inputTokenPrice" fields);
            do o <- z_string_min1 (assoc "outputTokenPrice" fields);
            Some (PluginPriceUpdate i o)
          else None
      | _ => None
      end
  | _ => None
  end.

(* ------------------------------------------------------------------------ *)
(** ** plugin.ts: startPlugin                                                 *)
(* ------------------------------------------------------------------------ *)

Module Plugin.
Record PluginConfig : Type := {
  serverUrl : string;
  jwt : string;
  openClawUrl : option string;
  openClawToken : string;
  openClawTimeoutMs : option Z;
  pricing : option Pricing;
  agentName : option string;
  agentDescription : option string
}.
End Plugin.

Section StartPlugin.

(** [new WebSocket(url)] throws a [SyntaxError] for a URL it cannot use:
    its message, if it does. *)
Variable WebSocket_error : string -> option string.

(** [startPlugin]: the client it returns, already started.  The status
    display and the no-op refresh callback are the [StatusChange] and
    [JwtRefreshed] effects of the client.  [client.start()] reaches
    [new WebSocket(serverUrl)]; what that throws nothing catches, and
    [startPlugin] throws it. *)
Definition startPlugin (cfg : Plugin.PluginConfig) : result PluginClient :=
  if String.eqb (Plugin.serverUrl cfg) "" then
    Throw "serverUrl must be a non-empty string"
  else if String.eqb (Plugin.jwt cfg) "" then
    Throw "jwt must be a non-empty string"
  else match WebSocket_error (Plugin.serverUrl cfg) with
  | Some message => Throw message
  | None =>
    Ok (start (new_PluginClient
         {| serverUrl := Plugin.serverUrl cfg;
            jwt := Plugin.jwt cfg;
            reconnectPolicy := None;
            openClawConfig :=
              {| gatewayUrl := match Plugin.openClawUrl cfg with
                               | Some u => u
                               | None => "http://localhost:18789"
                               end;
                 gatewayToken := Plugin.openClawToken cfg;
                 agentId := None;
                 timeoutMs := Plugin.openClawTimeoutMs cfg;
                 defaultModel := None |};
            pricing := Plugin.pricing cfg;
            agentName := Plugin.agentName cfg;
            agentDescription := Plugin.agentDescription cfg |}))
  end.

End StartPlugin.

(* ------------------------------------------------------------------------ *)
(** ** sixerr-client.ts: respond and respondJson                              *)
(* ------------------------------------------------------------------------ *)

(** [RespondOptions].  [input] is [None] when the property is [undefined],
    which [JSON.stringify] leaves out of the object. *)
Record RespondOptions : Type := {
  opt_model : option string;
  opt_input : option json;
  opt_stream : option bool;
  opt_agentId : option string;
  opt_routing : option string;
  opt_maxAmount : option string
}.

(** The [body] object [respond] builds. *)
Definition respond_body (options : RespondOptions) : list (string * json) :=
  ([("model", JStr (match opt_model options with Some m => m | None => "default" end))]
   ++ match opt_input options with Some v => [("input", v)] | None => [] end
   ++ match opt_stream options with
      | Some true => [("stream", JBool true)]
      | _ => []
      end
   ++ match nonempty (opt_routing options) with
      | Some r => [("routing", JStr r)]
      | None => []
      end)%list.

(** [res.ok]. *)
Definition resp_ok (res : HttpResponse) : bool :=
  (200 <=? resp_status res)%Z && (resp_status res <=? 299)%Z.

Section Consumer.

Variable JSON_stringify : json -> string.
Variable btoa : string -> string.

Definition respond (fetch : Fetch) (now_nonce now_deadline : Z)
  (cfg : SixerrClientConfig) (options : RespondOptions)
  : result HttpResponse * list Request :=
  postWith402Handling JSON_stringify btoa fetch now_nonce now_deadline cfg
    (responses_url cfg (opt_agentId options))
    (JSON_stringify (JObj (respond_body options)))
    (opt_maxAmount options).

(** [{ ...options, stream: false }]. *)
Definition without_stream (options : RespondOptions) : RespondOptions :=
  {| opt_model := opt_model options; opt_input := opt_input options;
     opt_stream := Some false; opt_agentId := opt_agentId options;
     opt_routing := opt_routing options; opt_maxAmount := opt_maxAmount options |}.

Definition respondJson (fetch : Fetch) (now_nonce now_deadline : Z)
  (cfg : SixerrClientConfig) (options : RespondOptions)
  : result json * list Request :=
  match respond fetch now_nonce now_deadline cfg (without_stream options) with
  | (Throw m, calls) => (Throw m, calls)
  | (Ok res, calls) =>
      if resp_ok res then (resp_json res, calls)
      else
        let text := match resp_text res with Ok t => t | Throw _ => "" end in
        (Throw ("Sixerr request failed (" ++ Z_to_string (resp_status res) ++ "): "
                ++ text), calls)
  end.

End Consumer.

(* ======================================================================== *)
(** * Theorems                                                                *)
(* ======================================================================== *)

(* ------------------------------------------------------------------------ *)
(** ** Doubles                                                                *)
(* ------------------------------------------------------------------------ *)

Lemma Math_round_compat (x y : Q) : x == y -> Math_round x = Math_round y.
Proof. intro H. unfold Math_round. now rewrite H. Qed.

Lemma round64_compat (x y : Q) : x == y -> round64 x = round64 y.
Proof. intro H. unfold round64. now rewrite (Qred_complete x y H). Qed.

Lemma round64_zero (q : Q) : q == 0 -> round64 q = Fin 0.
Proof. intro H. now rewrite (round64_compat q 0 H). Qed.

Lemma Qred_twice (q : Q) : Qred (Qred q) = Qred q.
Proof. apply Qred_complete, Qred_correct. Qed.

Lemma Qred_integer (z : Z) : Qred (inject_Z z) = inject_Z z.
Proof.
  unfold Qred, inject_Z.
  pose proof (Z.ggcd_gcd z 1) as Hg. rewrite Z.gcd_1_r in Hg.
  pose proof (Z.ggcd_correct_divisors z 1) as Hd.
  destruct (Z.ggcd z 1) as (g, (aa, bb)). cbn [fst snd] in *. subst g.
  rewrite !Z.mul_1_l in Hd. destruct Hd as [<- <-]. reflexivity.
Qed.

Lemma round64_reduced (x y : Q) : round64 x = Fin y -> Qred y = y.
Proof.
  assert (P : forall a b, Fin a = Fin b -> a = b) by (intros a b H; now injection H).
  unfold round64. destruct (Qnum (Qred x)).
  - intro H. apply P in H. now subst y.
  - destruct (Qle_bool _ _); [discriminate|]. intro H. apply P in H.
    rewrite <- H. apply Qred_twice.
  - destruct (Qle_bool _ _); [discriminate|]. intro H. apply P in H.
    rewrite <- H. apply Qred_twice.
Qed.

(** A rational that is a double. *)
Definition is_double (x : Q) : bool :=
  match round64 x with
  | Fin y => Qeq_bool y x
  | _ => false
  end.

Lemma double_exact (x : Q) : is_double x = true -> round64 x = Fin (Qred x).
Proof.
  unfold is_double. destruct (round64 x) as [| |y] eqn:E; try discriminate.
  intro H. apply Qeq_bool_iff in H. f_equal.
  rewrite <- (round64_reduced x y E). now apply Qred_complete.
Qed.

Lemma round_half_even_Z (z : Z) : round_half_even (inject_Z z) = z.
Proof.
  unfold round_half_even. rewrite Qfloor_Z.
  destruct (Qcompare_spec (inject_Z z - inject_Z z) (1 # 2)) as [H | H | H].
  - exfalso. assert (E : inject_Z z - inject_Z z == 0) by ring.
    rewrite E in H. discriminate H.
  - reflexivity.
  - exfalso. assert (E : inject_Z z - inject_Z z == 0) by ring.
    rewrite E in H. discriminate H.
Qed.

Lemma round_half_even_compat (x y : Q) : x == y -> round_half_even x = round_half_even y.
Proof.
  intro H. unfold round_half_even.
  assert (Ef : Qfloor x = Qfloor y) by now apply Qfloor_comp.
  rewrite Ef.
  assert (Ec : Qcompare (x - inject_Z (Qfloor y)) (1 # 2)
               = Qcompare (y - inject_Z (Qfloor y)) (1 # 2)).
  { apply Qcompare_comp; [|reflexivity]. now rewrite H. }
  now rewrite Ec.
Qed.

Lemma pow2_Z (e : Z) : (0 <= e)%Z -> 2 ^ e == inject_Z (2 ^ e).
Proof. intro H. now rewrite (Zpower_Qpower 2 e H). Qed.

Lemma pow2_pos (e : Z) : 0 < 2 ^ e.
Proof. apply Qpower_0_lt. reflexivity. Qed.

(** A non-negative integer below 2^53 is a double. *)
Lemma round64_integer (n : N) :
  (Z.of_N n < 2 ^ 53)%Z ->
  round64 (inject_Z (Z.of_N n)) = Fin (inject_Z (Z.of_N n)).
Proof.
  intro Hn. destruct n as [|p]; [reflexivity|].
  cbn [Z.of_N] in *. unfold round64.
  assert (Hred : Qred (inject_Z (Zpos p)) = inject_Z (Zpos p))
    by apply Qred_integer.
  rewrite Hred. cbn [Qnum inject_Z].
  change (Zpos p # 1) with (inject_Z (Zpos p)).
  set (e := Z.log2 (Zpos p)).
  assert (He : (0 <= e)%Z) by apply Z.log2_nonneg.
  assert (Hspec : (2 ^ e <= Zpos p < 2 ^ (e + 1))%Z).
  { replace (e + 1)%Z with (Z.succ e) by lia. apply Z.log2_spec. lia. }
  assert (He52 : (e <= 52)%Z).
  { destruct (Z.le_gt_cases e 52) as [H|H]; [exact H|]. exfalso.
    assert ((2 ^ 53 <= 2 ^ e)%Z) by (apply Z.pow_le_mono_r; lia). lia. }
  assert (Hlog : log2_floor (inject_Z (Zpos p)) = e).
  { unfold log2_floor. cbn [Qnum Qden inject_Z]. fold e.
    change (Z.log2 1) with 0%Z. rewrite Z.sub_0_r.
    assert (Hle : Qle_bool (2 ^ e) (inject_Z (Zpos p)) = true).
    { apply Qle_bool_iff. rewrite (pow2_Z e He). rewrite <- Zle_Qle. lia. }
    now rewrite Hle. }
  assert (Hv : round64_pos (inject_Z (Zpos p)) == inject_Z (Zpos p)).
  { unfold round64_pos. rewrite Hlog.
    replace (Z.max (e - 52) (-1074)) with (- (52 - e))%Z by lia.
    assert (Hk : (0 <= 52 - e)%Z) by lia.
    set (k := (52 - e)%Z) in *.
    assert (Hpos : ~ inject_Z (2 ^ k) == 0).
    { intro H0. assert (H1 : (0 < 2 ^ k)%Z) by (apply Z.pow_pos_nonneg; lia).
      rewrite Zlt_Qlt in H1. rewrite H0 in H1. discriminate H1. }
    assert (E2 : 2 ^ (- k) == / inject_Z (2 ^ k)).
    { rewrite Qpower_opp, (pow2_Z k Hk). reflexivity. }
    assert (Ediv : inject_Z (Zpos p) / 2 ^ (- k) == inject_Z (Zpos p * 2 ^ k)).
    { rewrite E2, inject_Z_mult. field. exact Hpos. }
    rewrite (round_half_even_compat _ _ Ediv), round_half_even_Z.
    rewrite E2, inject_Z_mult. field. exact Hpos. }
  assert (Hfin : Qle_bool (2 ^ 1024) (round64_pos (inject_Z (Zpos p))) = false).
  { destruct (Qle_bool _ _) eqn:E; [|reflexivity]. exfalso.
    apply Qle_bool_iff in E. rewrite Hv in E.
    rewrite (pow2_Z 1024 ltac:(lia)) in E. rewrite <- Zle_Qle in E.
    assert ((2 ^ 53 < 2 ^ 1024)%Z) by (apply Z.pow_lt_mono_r; lia). lia. }
  rewrite Hfin. f_equal. rewrite <- Hred at 2. now apply Qred_complete.
Qed.

(* ------------------------------------------------------------------------ *)
(** ** Backoff                                                                *)
(* ------------------------------------------------------------------------ *)

Lemma computeBackoff_attempt_zero (p : BackoffPolicy) (U : Q) :
  computeBackoff p 0 U = computeBackoff p 1 U.
Proof. reflexivity. Qed.

Lemma computeBackoff_low_attempts (p : BackoffPolicy) (k : Z) (U : Q) :
  (k <= 1)%Z -> computeBackoff p k U = computeBackoff p 1 U.
Proof.
  intro H. unfold computeBackoff.
  now replace (Z.max (k - 1) 0) with (Z.max (1 - 1) 0) by lia.
Qed.

Lemma js_mul_zero_draw (b : jsnum) (U U' : Q) :
  js_mul (js_mul b (Fin 0)) (Fin U) = js_mul (js_mul b (Fin 0)) (Fin U').
Proof.
  destruct b as [|s|q]; try reflexivity.
  cbn [js_mul]. rewrite (round64_zero (q * 0)) by ring.
  cbn [js_mul]. now rewrite !round64_zero by ring.
Qed.

Lemma computeBackoff_no_jitter (p : BackoffPolicy) (k : Z) (U U' : Q) :
  jitter p == 0 -> computeBackoff p k U = computeBackoff p k U'.
Proof.
  intro H. unfold computeBackoff; cbv zeta.
  rewrite (round64_zero (jitter p) H).
  now rewrite (js_mul_zero_draw _ U U').
Qed.

Definition jitter_free : BackoffPolicy :=
  {| initialMs := 1000; maxMs := 30000; factor := 2; jitter := 0 |}.

Lemma jitter_free_values (U : Q) :
  computeBackoff jitter_free 1 U = Fin 1000
  /\ computeBackoff jitter_free 2 U = Fin 2000
  /\ computeBackoff jitter_free 3 U = Fin 4000.
Proof.
  rewrite !(computeBackoff_no_jitter jitter_free _ U 0) by reflexivity.
  vm_compute. repeat split.
Qed.

Lemma formula_no_jitter (p : BackoffPolicy) (k : Z) (U : Q) :
  jitter p == 0 ->
  backoff_formula p k U
  == Qmin (maxMs p) (inject_Z (Math_round (initialMs p * factor p ^ Z.max (k - 1) 0))).
Proof.
  intro H. unfold backoff_formula.
  assert (E : initialMs p * factor p ^ Z.max (k - 1) 0 * (1 + jitter p * U)
              == initialMs p * factor p ^ Z.max (k - 1) 0).
  { rewrite H. ring. }
  now rewrite (Math_round_compat _ _ E).
Qed.

(** The policy of the repository's client test. *)
Definition test_policy : BackoffPolicy :=
  {| initialMs := 50; maxMs := 200; factor := 2; jitter := 0 |}.

(** C3.  The delay is not the stated formula for every policy and attempt.
    On the jitter-free policy of the client test (initial 50, cap 200,
    factor 2) the product [50 * 2 ** 1019] of attempt 1020 overflows to
    infinity, the jitter [Infinity * 0] is NaN, and [Math.round] and
    [Math.min] hand the NaN on: the delay is NaN for every draw, where the
    formula gives the cap, 200.  Attempt 1019 still gives 200.  The same
    happens at attempt 1016 with initial 1000 and cap 30000. *)
Theorem computeBackoff_overflow_is_NaN :
  (forall U, computeBackoff test_policy 1020 U = NaN)
  /\ (forall U, backoff_formula test_policy 1020 U == 200)
  /\ (forall U, computeBackoff test_policy 1019 U = Fin 200)
  /\ (forall U, computeBackoff jitter_free 1016 U = NaN).
Proof.
  split; [|split; [|split]].
  - intro U. rewrite (computeBackoff_no_jitter test_policy _ U 0) by reflexivity.
    vm_compute. reflexivity.
  - intro U. rewrite formula_no_jitter by reflexivity. vm_compute. reflexivity.
  - intro U. rewrite (computeBackoff_no_jitter test_policy _ U 0) by reflexivity.
    vm_compute. reflexivity.
  - intro U. rewrite (computeBackoff_no_jitter jitter_free _ U 0) by reflexivity.
    vm_compute. reflexivity.
Qed.


(* ------------------------------------------------------------------------ *)
(** ** Chain ids                                                              *)
(* ------------------------------------------------------------------------ *)

Definition is_decimal_digit (c : ascii) : bool :=
  ((48 <=? code c) && (code c <=? 57))%N.

(** The number a string of decimal digits denotes. *)
Definition decimal_value (l : list ascii) : N :=
  fold_left (fun acc c => (acc * 10 + (code c - 48))%N) l 0%N.

Definition decimal_string (s : string) : bool :=
  match list_ascii_of_string s with
  | [] => false
  | l => forallb is_decimal_digit l
  end.

Lemma digit_bounds (c : ascii) :
  is_decimal_digit c = true -> (48 <= code c <= 57)%N.
Proof.
  unfold is_decimal_digit. rewrite andb_true_iff, !N.leb_le. tauto.
Qed.

Lemma digit_val_decimal (c : ascii) :
  is_decimal_digit c = true -> digit_val 10 c = Some (code c - 48)%N.
Proof.
  intro H. unfold digit_val. unfold is_decimal_digit in H. rewrite H.
  apply andb_true_iff in H as [H1 H2]. apply N.leb_le in H1, H2.
  assert (E : (code c - 48 <? 10)%N = true) by (apply N.ltb_lt; lia).
  now rewrite E.
Qed.

Lemma digit_is_not (c d : ascii) :
  is_decimal_digit c = true ->
  ((code d <? 48) || (57 <? code d))%N = true ->
  Ascii.eqb c d = false.
Proof.
  intros Hc Hd. apply Ascii.eqb_neq. intros ->.
  apply digit_bounds in Hc.
  apply orb_true_iff in Hd as [Hd | Hd]; apply N.ltb_lt in Hd; lia.
Qed.

Lemma digit_not_space (c : ascii) :
  is_decimal_digit c = true -> is_space c = false.
Proof.
  intro H. apply digit_bounds in H. unfold is_space; cbv zeta.
  repeat rewrite orb_false_iff. rewrite andb_false_iff.
  repeat split.
  - right. apply N.leb_gt. lia.
  - apply N.eqb_neq. lia.
  - apply N.eqb_neq. lia.
Qed.

Lemma take_digits_decimal (l : list ascii) :
  forallb is_decimal_digit l = true ->
  forall acc len,
    take_digits 10 acc len l
    = (fold_left (fun a c => (a * 10 + (code c - 48))%N) l acc,
       (len + List.length l)%nat, []).
Proof.
  induction l as [|c l IH]; intros H acc len; simpl.
  - now rewrite Nat.add_0_r.
  - simpl in H. apply andb_true_iff in H as [Hc Hl].
    rewrite (digit_val_decimal c Hc), (IH Hl).
    now rewrite Nat.add_succ_r.
Qed.

Lemma trim_start_digit (c : ascii) (l : list ascii) :
  is_decimal_digit c = true -> trim_start (c :: l) = c :: l.
Proof. intro H. simpl. now rewrite (digit_not_space c H). Qed.

Lemma trim_l_decimal (l : list ascii) :
  forallb is_decimal_digit l = true -> trim_l l = l.
Proof.
  intro H. unfold trim_l.
  destruct l as [|c l]; [reflexivity|].
  assert (Hc : is_decimal_digit c = true) by (simpl in H; now apply andb_true_iff in H).
  rewrite (trim_start_digit c l Hc).
  assert (Hr : forallb is_decimal_digit (rev (c :: l)) = true).
  { rewrite forallb_forall in *. intros x Hx. apply H. now apply in_rev. }
  destruct (rev (c :: l)) as [|d r] eqn:E.
  - apply (f_equal (@List.length ascii)) in E. rewrite length_rev in E. discriminate.
  - assert (Hd : is_decimal_digit d = true) by (simpl in Hr; now apply andb_true_iff in Hr).
    rewrite (trim_start_digit d r Hd), <- E. apply rev_involutive.
Qed.

Lemma non_decimal_of_decimal (l : list ascii) :
  forallb is_decimal_digit l = true -> non_decimal l = None.
Proof.
  intro H. destruct l as [|z [|x rest]]; try reflexivity.
  simpl in H. apply andb_true_iff in H as [_ H].
  apply andb_true_iff in H as [Hx _].
  unfold non_decimal.
  rewrite !(digit_is_not x _ Hx) by reflexivity.
  now destruct (Ascii.eqb z "0").
Qed.

Lemma Number_decimal (s : string) :
  decimal_string s = true ->
  (Z.of_N (decimal_value (list_ascii_of_string s)) < 2 ^ 53)%Z ->
  Number s = Fin (inject_Z (Z.of_N (decimal_value (list_ascii_of_string s)))).
Proof.
  unfold decimal_string, Number.
  destruct (list_ascii_of_string s) as [|c l] eqn:E; [discriminate|].
  intros H Hsmall. rewrite (trim_l_decimal _ H), (non_decimal_of_decimal _ H).
  assert (Hc : is_decimal_digit c = true) by (simpl in H; now apply andb_true_iff in H).
  rewrite !(digit_is_not c _ Hc) by reflexivity.
  unfold unsigned_decimal.
  destruct (list_eq_dec ascii_dec (c :: l) (list_ascii_of_string "Infinity")) as [Heq|_].
  { exfalso. injection Heq as -> _. discriminate Hc. }
  rewrite (take_digits_decimal _ H). cbn [Nat.add List.length to_double].
  now apply round64_integer.
Qed.

Lemma split_colon_cons (c : ascii) (rest : string) :
  str_split ":" (String c rest)
  = if Ascii.eqb c ":" then EmptyString :: str_split ":" rest
    else match str_split ":" rest with
         | piece :: pieces => String c piece :: pieces
         | [] => [String c EmptyString]
         end.
Proof.
  unfold str_split. cbn [split_from String.prefix String.length Nat.sub].
  destruct (ascii_dec ":" c) as [<-|Hne].
  - rewrite Ascii.eqb_refl. destruct rest; reflexivity.
  - assert (E : Ascii.eqb c ":" = false) by (apply Ascii.eqb_neq; congruence).
    now rewrite E.
Qed.

Lemma split_nonempty (s : string) : str_split ":" s <> [].
Proof.
  destruct s as [|c rest]; [discriminate|].
  rewrite split_colon_cons.
  destruct (Ascii.eqb c ":"); [discriminate|].
  destruct (str_split ":" rest); discriminate.
Qed.

Definition no_colon (s : string) : bool :=
  forallb (fun c => negb (Ascii.eqb c ":")) (list_ascii_of_string s).

Lemma split_no_colon (s : string) : no_colon s = true -> str_split ":" s = [s].
Proof.
  unfold no_colon. induction s as [|c rest IH]; [reflexivity|].
  simpl. rewrite andb_true_iff, negb_true_iff. intros [Hc Hr].
  rewrite split_colon_cons, Hc, (IH Hr). reflexivity.
Qed.

Lemma last_part_cons (x : string) (l : list string) :
  l <> [] -> last_part (x :: l) = last_part l.
Proof. destruct l; [congruence | reflexivity]. Qed.

Lemma split_after_colon (pre seg : string) :
  exists x l, str_split ":" (pre ++ ":" ++ seg) = x :: l
              /\ l <> [] /\ last_part l = last_part (str_split ":" seg).
Proof.
  induction pre as [|c pre IH].
  - change ("" ++ ":" ++ seg) with (String ":" seg).
    rewrite split_colon_cons. simpl.
    exists EmptyString, (str_split ":" seg).
    repeat split. apply split_nonempty.
  - change (String c pre ++ ":" ++ seg) with (String c (pre ++ ":" ++ seg)).
    rewrite split_colon_cons.
    destruct IH as (x & l & E & Hl & Hlast). rewrite E.
    destruct (Ascii.eqb c ":").
    + exists EmptyString, (x :: l). repeat split; [discriminate|].
      now rewrite last_part_cons.
    + exists (String c x), l. repeat split; assumption.
Qed.

Lemma last_part_compound (pre seg : string) :
  no_colon seg = true ->
  last_part (str_split ":" (pre ++ ":" ++ seg)) = seg.
Proof.
  intro H. destruct (split_after_colon pre seg) as (x & l & E & Hl & Hlast).
  rewrite E, last_part_cons, Hlast, (split_no_colon seg H) by assumption.
  reflexivity.
Qed.

Lemma decimal_no_colon (s : string) : decimal_string s = true -> no_colon s = true.
Proof.
  unfold decimal_string, no_colon.
  destruct (list_ascii_of_string s) as [|c l]; [discriminate|].
  intro H. rewrite forallb_forall in *. intros x Hx.
  apply negb_true_iff, digit_is_not; [now apply H | reflexivity].
Qed.

(** The part of C8 the code does: a bare decimal integer below 2^53, or a
    compound identifier ending in one, gives that integer. *)
Lemma parseChainId_integer (pre seg : string) :
  decimal_string seg = true ->
  (Z.of_N (decimal_value (list_ascii_of_string seg)) < 2 ^ 53)%Z ->
  let v := Fin (inject_Z (Z.of_N (decimal_value (list_ascii_of_string seg)))) in
  parseChainId seg = Ok v /\ parseChainId (pre ++ ":" ++ seg) = Ok v.
Proof.
  intros H Hsmall v. pose proof (decimal_no_colon seg H) as Hc.
  unfold parseChainId. split.
  - rewrite (split_no_colon seg Hc). cbn [last_part last].
    now rewrite (Number_decimal seg H Hsmall).
  - rewrite (last_part_compound pre seg Hc).
    now rewrite (Number_decimal seg H Hsmall).
Qed.

Lemma parseChainId_integer_witness :
  parseChainId "8453" = Ok (Fin (inject_Z 8453))
  /\ parseChainId "eip155:8453" = Ok (Fin (inject_Z 8453)).
Proof. exact (parseChainId_integer "eip155" "8453" eq_refl eq_refl). Defined.

(** [parseChainId] throws exactly when [Number] of the last segment is
    [NaN]. *)
Lemma parseChainId_throws_iff (network : string) :
  (exists m, parseChainId network = Throw m)
  <-> Number (last_part (str_split ":" network)) = NaN.
Proof.
  unfold parseChainId.
  destruct (Number (last_part (str_split ":" network))); simpl; split;
    try discriminate; try (intros [m Hm]; discriminate); eauto.
Qed.

(** C8.  The last segment of ["eip155:"] is empty and that of
    ["eip155:1.5"] is a fraction; neither is an integer, and [parseChainId]
    returns 0 and 1.5 for them where the claim has it throw. *)
Theorem parseChainId_non_integer_segment_returns :
  parseChainId "eip155:" = Ok (Fin 0)
  /\ (exists q, parseChainId "eip155:1.5" = Ok (Fin q) /\ q == 3 # 2)
  /\ decimal_string "" = false
  /\ decimal_string "1.5" = false.
Proof.
  split; [reflexivity|]. split; [|split; reflexivity].
  eexists. split; [reflexivity|]. reflexivity.
Qed.

(* ------------------------------------------------------------------------ *)
(** ** Validation of inbound frames                                           *)
(* ------------------------------------------------------------------------ *)

(** The keys of the schema a discriminator selects. *)
Definition shape_of (t : string) : option (list string) :=
  if String.eqb t "request" then Some ["type"; "id"; "body"]
  else if String.eqb t "ping" then Some ["type"; "ts"]
  else if String.eqb t "auth_ok" then Some ["type"; "pluginId"; "protocol"]
  else if String.eqb t "auth_error" then Some ["type"; "message"]
  else if String.eqb t "jwt_refresh" then Some ["type"; "jwt"]
  else if String.eqb t "price_update_ack"
       then Some ["type"; "inputTokenPrice"; "outputTokenPrice"]
  else None.

(** The ways of being invalid the specification names. *)
Inductive malformed : json -> Prop :=
| not_an_object (j : json) :
    (forall fields, j <> JObj fields) -> malformed j
| no_discriminator (fields : list (string * json)) :
    (forall t, assoc "type" fields <> Some (JStr t)) -> malformed (JObj fields)
| unknown_type (fields : list (string * json)) (t : string) :
    assoc "type" fields = Some (JStr t) -> shape_of t = None ->
    malformed (JObj fields)
| extra_field (fields : list (string * json)) (t : string)
    (shape : list string) (k : string) (v : json) :
    assoc "type" fields = Some (JStr t) -> shape_of t = Some shape ->
    In (k, v) fields -> ~ In k shape ->
    malformed (JObj fields)
| wrong_protocol (fields : list (string * json)) :
    assoc "type" fields = Some (JStr "auth_ok") ->
    (forall q, assoc "protocol" fields = Some (JNum q) ->
               ~ q == SIXERR_PROTOCOL_VERSION) ->
    malformed (JObj fields).

Lemma strict_keys_extra (shape : list string) (fields : list (string * json))
  (k : string) (v : json) :
  In (k, v) fields -> ~ In k shape -> strict_keys shape fields = false.
Proof.
  intros Hin Hout. unfold strict_keys.
  destruct (forallb _ fields) eqn:E; [|reflexivity].
  rewrite forallb_forall in E. specialize (E (k, v) Hin). simpl in E.
  apply existsb_exists in E as (x & Hx & Heq).
  apply String.eqb_eq in Heq. subst x. contradiction.
Qed.

Ltac by_discriminator t H :=
  repeat
    match goal with
    | |- context [String.eqb t ?lit] =>
        let E := fresh "E" in
        destruct (String.eqb t lit) eqn:E;
        [ apply String.eqb_eq in E; subst t; try discriminate H | ]
    end.

Lemma malformed_rejected (j : json) :
  malformed j -> ServerMessageSchema_safeParse j = None.
Proof.
  intros [j' Hno | fields Hno | fields t Ht Hs | fields t shape k v Ht Hs Hin Hout
          | fields Ht Hp].
  - destruct j'; try reflexivity. exfalso. now apply (Hno fields).
  - simpl. destruct (assoc "type" fields) as [[| | |t| |]|] eqn:E; try reflexivity.
    exfalso. now apply (Hno t).
  - simpl. rewrite Ht. unfold shape_of in Hs.
    by_discriminator t Hs. reflexivity.
  - simpl. rewrite Ht. unfold shape_of in Hs.
    by_discriminator t Hs;
      try (injection Hs as <-; now rewrite (strict_keys_extra _ _ k v Hin Hout)).
    discriminate Hs.
  - simpl. rewrite Ht. simpl.
    destruct (guard _); [|reflexivity]. simpl.
    destruct (z_string_min1 _); [|reflexivity]. simpl.
    unfold z_literal_num.
    destruct (assoc "protocol" fields) as [[| |q| | |]|] eqn:E; try reflexivity.
    destruct (Qeq_bool q SIXERR_PROTOCOL_VERSION) eqn:Eq; [|reflexivity].
    exfalso. apply (Hp q eq_refl). now apply Qeq_bool_iff.
Qed.

Section ClientFacts.

Variable JSON_parse : string -> option json.

(** C4.  A frame that is not JSON, or whose JSON fails the schema (among
    these: no known ["type"], a key outside the schema of its type, an
    [auth_ok] whose protocol is not 2), is dropped: [handleMessage] returns
    the client as it was, with the same status, plugin id, attempt counter
    and socket, no socket closed and no callback made. *)
Theorem invalid_frame_discarded (c : PluginClient) (k : nat) (raw : string) :
  (JSON_parse raw = None
   \/ exists j, JSON_parse raw = Some j
                /\ (ServerMessageSchema_safeParse j = None \/ malformed j)) ->
  handleMessage JSON_parse raw c = c
  /\ step JSON_parse c (SocketMessage k raw) = c.
Proof.
  intro H.
  assert (E : handleMessage JSON_parse raw c = c).
  { unfold handleMessage. destruct H as [-> | (j & -> & [Hj | Hj])].
    - reflexivity.
    - now rewrite Hj.
    - now rewrite (malformed_rejected j Hj). }
  split; [exact E|].
  simpl. rewrite E. now destruct (nth_error (sockets c) k) as [[| | |]|].
Qed.

End ClientFacts.

Definition sample_config : PluginClientConfig := {|
  serverUrl := "ws://127.0.0.1:8080";
  jwt := "eyJhbGciOiJFUzI1NiJ9.test-token";
  reconnectPolicy := Some {| initialMs := 50; maxMs := 200; factor := 2; jitter := 0 |};
  openClawConfig := {| gatewayUrl := "http://127.0.0.1:18789";
                       gatewayToken := "test-token";
                       agentId := None; timeoutMs := None; defaultModel := None |};
  pricing := None;
  agentName := None;
  agentDescription := None
|}.

(** Frames as the server writes them. *)
Definition frame (fields : list (string * json)) : string :=
  JSON_stringify_text (JObj fields).

Definition auth_ok_frame (pluginId : string) (protocol : Q) : string :=
  frame [("type", JStr "auth_ok"); ("pluginId", JStr pluginId);
         ("protocol", JNum protocol)].

Definition auth_error_frame (message : string) : string :=
  frame [("type", JStr "auth_error"); ("message", JStr message)].

(** A client that has connected and authenticated. *)
Definition connected_client : PluginClient :=
  run JSON_parse_text (new_PluginClient sample_config)
    [Start; SocketOpen 0; SocketMessage 0 (auth_ok_frame "p-1" 2)].

Lemma invalid_frame_discarded_witness :
  step JSON_parse_text connected_client (SocketMessage 0 "not json")
    = connected_client
  /\ step JSON_parse_text connected_client (SocketMessage 0 (auth_ok_frame "p-2" 3))
    = connected_client
  /\ step JSON_parse_text connected_client
       (SocketMessage 0 (frame [("type", JStr "ping"); ("ts", JNum 7); ("x", JNull)]))
    = connected_client.
Proof.
  split; [|split].
  - apply (invalid_frame_discarded JSON_parse_text connected_client 0 "not json").
    left. reflexivity.
  - apply (invalid_frame_discarded JSON_parse_text connected_client 0
             (auth_ok_frame "p-2" 3)).
    right. eexists. split; [reflexivity|]. right.
    apply wrong_protocol; [reflexivity|].
    intros q Hq. injection Hq as <-. discriminate.
  - apply (invalid_frame_discarded JSON_parse_text connected_client 0
             (frame [("type", JStr "ping"); ("ts", JNum 7); ("x", JNull)])).
    right. eexists. split; [reflexivity|]. right.
    apply (extra_field _ "ping" ["type"; "ts"] "x" JNull); try reflexivity.
    + simpl. tauto.
    + simpl. intros [H | [H | []]]; discriminate H.
Defined.

(* ------------------------------------------------------------------------ *)
(** ** Reconnection                                                           *)
(* ------------------------------------------------------------------------ *)

(** The attempt number the delay is computed from after a close. *)
Definition attempt_after_close (code : Z) (c : PluginClient) : Z :=
  if (code =? 1012)%Z then 1 else reconnectAttempt c + 1.

(** The ['close'] listener on a client whose [closed] flag is down. *)
Lemma on_close_reconnects (code : Z) (rnd : Q) (c : PluginClient) :
  closed c = false ->
  let c' := on_close code rnd c in
  status c' = reconnecting
  /\ reconnectAttempt c' = attempt_after_close code c
  /\ reconnectTimer c' = Some (List.length (timers c))
  /\ timers c' = (timers c ++ [true])%list
  /\ ws c' = None
  /\ closed c' = false
  /\ sockets c' = sockets c
  /\ effects c' =
       (effects c ++
       [StatusChange reconnecting (pluginId c) (requestCount c);
        TimerSet (List.length (timers c))
                 (computeBackoff (policy c) (attempt_after_close code c) rnd)])%list.
Proof.
  intros Hc c'. subst c'.
  unfold on_close, scheduleReconnect, attempt_after_close.
  destruct (code =? 1012)%Z; cbn; rewrite Hc; cbn;
    rewrite <- app_assoc; repeat split; exact Hc.
Qed.

(** The same listener when the flag is up: no timer, status disconnected. *)
Lemma on_close_when_closed (code : Z) (rnd : Q) (c : PluginClient) :
  closed c = true ->
  let c' := on_close code rnd c in
  status c' = disconnected
  /\ reconnectAttempt c' = (if code =? 1012 then 0 else reconnectAttempt c)%Z
  /\ reconnectTimer c' = reconnectTimer c
  /\ timers c' = timers c
  /\ sockets c' = sockets c
  /\ closed c' = true
  /\ effects c' =
       (effects c ++ [StatusChange disconnected (pluginId c) (requestCount c)])%list.
Proof.
  intros Hc c'. subst c'.
  unfold on_close, scheduleReconnect.
  destruct (code =? 1012)%Z; cbn; rewrite Hc; cbn; repeat split; exact Hc.
Qed.

Section Reconnection.

Variable JSON_parse : string -> option json.

(** The socket [k] can still deliver its ['close']. *)
Definition not_yet_closed (k : nat) (c : PluginClient) : Prop :=
  exists rs, nth_error (sockets c) k = Some rs /\ rs <> CLOSED.

Lemma step_close (k : nat) (code : Z) (rnd : Q) (c : PluginClient) :
  not_yet_closed k c ->
  step JSON_parse c (SocketClosed k code rnd)
  = on_close code rnd (set_sockets (update_nth k CLOSED (sockets c)) c).
Proof.
  intros (rs & E & Hrs). simpl. rewrite E. destruct rs; congruence.
Qed.

(** C7.  A close with code 1012 resets the attempt counter before the delay
    is computed: whatever the counter was, the timer that is set carries
    [computeBackoff policy 1], and the counter is 1 afterwards.  (When the
    client has been shut down the counter is reset all the same and no
    reconnect is scheduled.) *)
Theorem restart_close_first_delay (c : PluginClient) (k : nat) (rnd : Q) :
  closed c = false ->
  not_yet_closed k c ->
  let c' := step JSON_parse c (SocketClosed k 1012 rnd) in
  c' = on_close 1012 rnd (set_sockets (update_nth k CLOSED (sockets c)) c)
  /\ reconnectAttempt c' = 1%Z
  /\ status c' = reconnecting
  /\ reconnectTimer c' = Some (List.length (timers c))
  /\ effects c' =
       (effects c ++
       [StatusChange reconnecting (pluginId c) (requestCount c);
        TimerSet (List.length (timers c)) (computeBackoff (policy c) 1 rnd)])%list.
Proof.
  intros Hc Hk c'. subst c'. rewrite (step_close k 1012 rnd c Hk).
  split; [reflexivity|].
  pose proof (on_close_reconnects 1012 rnd
                (set_sockets (update_nth k CLOSED (sockets c)) c) Hc)
    as (Hs & Ha & Ht & _ & _ & _ & _ & He).
  cbn in Ha, Ht, He |- *.
  repeat split; assumption.
Qed.

(** C6, as the code has it.  While [closed] is down (set by [stop()] and by
    [auth_error] only, cleared by [start()] only), the close of a socket
    moves the client to [reconnecting] and sets a reconnect timer whatever
    the close code, the clean-shutdown code 1000 included; an ['error']
    event changes nothing and sets no timer. *)
Theorem close_reconnects_for_every_code (c : PluginClient) (k : nat)
  (code : Z) (rnd : Q) (message : string) :
  closed c = false ->
  not_yet_closed k c ->
  let c' := step JSON_parse c (SocketClosed k code rnd) in
  status c' = reconnecting
  /\ reconnectTimer c' = Some (List.length (timers c))
  /\ timers c' = (timers c ++ [true])%list
  /\ effects c' =
       (effects c ++
       [StatusChange reconnecting (pluginId c) (requestCount c);
        TimerSet (List.length (timers c))
                 (computeBackoff (policy c) (attempt_after_close code c) rnd)])%list
  /\ step JSON_parse c (SocketError k message) = c.
Proof.
  intros Hc Hk c'. subst c'. rewrite (step_close k code rnd c Hk).
  pose proof (on_close_reconnects code rnd
                (set_sockets (update_nth k CLOSED (sockets c)) c) Hc)
    as (Hs & _ & Ht & Hts & _ & _ & _ & He).
  cbn in Ht, Hts, He |- *.
  repeat split; try assumption.
  now destruct (nth_error (sockets c) k).
Qed.

Lemma closed_sendMessage (msg : json) (c : PluginClient) :
  closed (sendMessage msg c) = closed c.
Proof.
  unfold sendMessage. destruct (ws c) as [n|]; [|reflexivity].
  now destruct (nth_error (sockets c) n) as [[| | |]|].
Qed.

Lemma closed_on_close (code : Z) (rnd : Q) (c : PluginClient) :
  closed (on_close code rnd c) = closed c.
Proof.
  destruct (closed c) eqn:E.
  - now apply on_close_when_closed.
  - now apply on_close_reconnects.
Qed.

Lemma closed_connect (c : PluginClient) : closed (connect c) = closed c.
Proof. unfold connect. now destruct (closed c) eqn:E. Qed.

(** [closed] changes only on [start()], [stop()] and a valid [auth_error]. *)
Lemma closed_changes (c : PluginClient) (ev : Event) :
  closed (step JSON_parse c ev) <> closed c ->
  ev = Start \/ ev = Stop
  \/ exists k raw j m, ev = SocketMessage k raw /\ JSON_parse raw = Some j
       /\ ServerMessageSchema_safeParse j = Some (ServerAuthError m).
Proof.
  destruct ev as [| |i o|k|k raw|k code rnd|k m|t|msg|]; cbn; intro H;
    try tauto.
  - exfalso; apply H. apply closed_sendMessage.
  - exfalso; apply H.
    destruct (nth_error (sockets c) k) as [[| | |]|]; try reflexivity.
    unfold on_open. now rewrite closed_sendMessage.
  - right. right.
    assert (Hm : closed (handleMessage JSON_parse raw c) <> closed c)
      by (destruct (nth_error (sockets c) k) as [[| | |]|]; congruence).
    unfold handleMessage in Hm.
    destruct (JSON_parse raw) as [j|] eqn:Ej; [|congruence].
    destruct (ServerMessageSchema_safeParse j) as [msg|] eqn:Es; [|congruence].
    destruct msg; cbn in Hm; try congruence.
    + exfalso. apply Hm. apply closed_sendMessage.
    + eauto 8.
  - exfalso; apply H.
    destruct (nth_error (sockets c) k) as [[| | |]|]; try reflexivity;
      now rewrite closed_on_close.
  - exfalso; apply H. now destruct (nth_error (sockets c) k).
  - exfalso; apply H.
    destruct (nth_error (timers c) t) as [[|]|]; try reflexivity.
    now rewrite closed_connect.
  - exfalso; apply H. apply closed_sendMessage.
Qed.

End Reconnection.

Lemma connected_client_state :
  status connected_client = connected
  /\ closed connected_client = false
  /\ pluginId connected_client = Some "p-1"
  /\ ws connected_client = Some 0%nat
  /\ sockets connected_client = [OPEN]
  /\ reconnectAttempt connected_client = 0%Z.
Proof. vm_compute. repeat split. Qed.

(** The scenarios of ws-client.test.ts. *)
Example ping_is_answered_by_pong :
  effects (step JSON_parse_text connected_client
             (SocketMessage 0 (frame [("type", JStr "ping"); ("ts", JNum 1700000000000)])))
  = (effects connected_client
     ++ [SocketSend 0 (JObj [("type", JStr "pong"); ("ts", JNum 1700000000000)])])%list.
Proof. vm_compute. reflexivity. Qed.

Example unexpected_close_reconnects :
  map status
    [run JSON_parse_text (new_PluginClient sample_config) [Start];
     run JSON_parse_text (new_PluginClient sample_config) [Start; SocketOpen 0];
     run JSON_parse_text (new_PluginClient sample_config)
       [Start; SocketOpen 0; SocketClosed 0 1006 0];
     run JSON_parse_text (new_PluginClient sample_config)
       [Start; SocketOpen 0; SocketClosed 0 1006 0; TimerFired 0]]
  = [connecting; authenticating; reconnecting; connecting].
Proof. vm_compute. reflexivity. Qed.

Example stop_does_not_reconnect :
  let c := run JSON_parse_text connected_client
             [Stop; SocketClosed 0 1000 0; TimerFired 0] in
  status c = disconnected /\ sockets c = [CLOSED] /\ timers c = [].
Proof. vm_compute. repeat split. Qed.

Lemma restart_close_first_delay_witness :
  let c := set_reconnectAttempt 5 connected_client in
  reconnectAttempt c = 5%Z
  /\ reconnectAttempt (step JSON_parse_text c (SocketClosed 0 1012 0)) = 1%Z.
Proof.
  split; [reflexivity|].
  apply (restart_close_first_delay JSON_parse_text
           (set_reconnectAttempt 5 connected_client) 0 0).
  - reflexivity.
  - exists OPEN. split; [reflexivity | discriminate].
Defined.

Lemma close_reconnects_for_every_code_witness :
  status (step JSON_parse_text connected_client (SocketClosed 0 1006 0))
  = reconnecting.
Proof.
  apply (close_reconnects_for_every_code JSON_parse_text connected_client 0 1006 0 "").
  - reflexivity.
  - exists OPEN. split; [reflexivity | discriminate].
Defined.

(** C6 as stated fails: the server closes an authenticated connection with
    the clean-shutdown code 1000; the client was neither stopped nor refused,
    and it goes to [reconnecting] and sets a reconnect timer. *)
Lemma clean_close_still_reconnects :
  let c := step JSON_parse_text connected_client (SocketClosed 0 1000 0) in
  closed connected_client = false
  /\ status connected_client = connected
  /\ status c = reconnecting
  /\ reconnectTimer c = Some 0%nat
  /\ effects c = (effects connected_client
                  ++ [StatusChange reconnecting (Some "p-1") 0; TimerSet 0 (Fin 50)])%list
  /\ ~ (status c = reconnecting <-> (1000 <> 1000)%Z).
Proof.
  vm_compute. repeat split; try reflexivity.
  intros [H _]. now apply H.
Qed.

(* ------------------------------------------------------------------------ *)
(** ** The served-request counter                                             *)
(* ------------------------------------------------------------------------ *)

Definition is_settled (ev : Event) : bool :=
  match ev with RelaySettled => true | _ => false end.

Lemma requestCount_sendMessage (msg : json) (c : PluginClient) :
  requestCount (sendMessage msg c) = requestCount c.
Proof.
  unfold sendMessage. destruct (ws c) as [n|]; [|reflexivity].
  now destruct (nth_error (sockets c) n) as [[| | |]|].
Qed.

Lemma requestCount_on_close (code : Z) (rnd : Q) (c : PluginClient) :
  requestCount (on_close code rnd c) = requestCount c.
Proof.
  unfold on_close, scheduleReconnect.
  destruct (code =? 1012)%Z; cbn; destruct (closed c); reflexivity.
Qed.

Lemma requestCount_connect (c : PluginClient) :
  requestCount (connect c) = requestCount c.
Proof. unfold connect. now destruct (closed c). Qed.

Lemma requestCount_stop (c : PluginClient) : requestCount (stop c) = requestCount c.
Proof.
  unfold stop; cbn.
  destruct (reconnectTimer c); cbn; destruct (ws c); cbn;
    unfold socket_close; cbn;
    try (destruct (nth_error (sockets c) _) as [[| | |]|]); reflexivity.
Qed.

Section Counter.

Variable JSON_parse : string -> option json.
Variable JSON_stringify : json -> string.

Lemma requestCount_handleMessage (raw : string) (c : PluginClient) :
  requestCount (handleMessage JSON_parse raw c) = requestCount c.
Proof.
  unfold handleMessage.
  destruct (JSON_parse raw) as [j|]; [|reflexivity].
  destruct (ServerMessageSchema_safeParse j) as [msg|]; [|reflexivity].
  destruct msg; cbn; try reflexivity.
  - apply requestCount_sendMessage.
  - destruct (ws c); cbn; [|reflexivity].
    unfold socket_close; cbn.
    now destruct (nth_error (sockets c) _) as [[| | |]|].
Qed.

Lemma requestCount_step (c : PluginClient) (ev : Event) :
  requestCount (step JSON_parse c ev)
  = (requestCount c + if is_settled ev then 1 else 0)%Z.
Proof.
  destruct ev as [| |i o|k|k raw|k code rnd|k m|t|msg|];
    cbn [step is_settled]; rewrite ?Z.add_0_r.
  - unfold start. now rewrite requestCount_connect.
  - apply requestCount_stop.
  - apply requestCount_sendMessage.
  - destruct (nth_error (sockets c) k) as [[| | |]|]; try reflexivity.
    unfold on_open. now rewrite requestCount_sendMessage.
  - destruct (nth_error (sockets c) k) as [[| | |]|]; try reflexivity;
      apply requestCount_handleMessage.
  - destruct (nth_error (sockets c) k) as [[| | |]|]; try reflexivity;
      now rewrite requestCount_on_close.
  - now destruct (nth_error (sockets c) k).
  - destruct (nth_error (timers c) t) as [[|]|]; try reflexivity.
    now rewrite requestCount_connect.
  - apply requestCount_sendMessage.
  - reflexivity.
Qed.

Lemma requestCount_run (evs : list Event) (c : PluginClient) :
  requestCount (run JSON_parse c evs)
  = (requestCount c + Z.of_nat (List.length (filter is_settled evs)))%Z.
Proof.
  revert c. induction evs as [|ev evs IH]; intro c.
  - cbn. lia.
  - change (run JSON_parse c (ev :: evs)) with (run JSON_parse (step JSON_parse c ev) evs).
    rewrite IH, requestCount_step. cbn [filter].
    destruct (is_settled ev); cbn [List.length]; lia.
Qed.

(** A request whose call to the gateway fails still settles its promise,
    after sending the [error] message. *)
Lemma failed_relay_settles (requestId : string) (body : option json)
  (cfg : OpenClawClientConfig) (message : string) :
  exists text,
    handleIncomingRequest JSON_parse JSON_stringify requestId body cfg
      (fun _ _ => RequestError message)
    = ([error_msg requestId text], true).
Proof.
  unfold handleIncomingRequest.
  destruct (is_true (assoc "stream" (forward_body body cfg))).
  - exists message. reflexivity.
  - exists (error_text message). reflexivity.
Qed.

(** C10.  When the relay of a request settles, whatever its outcome was, the
    [then] callback adds one to [requestCount] and calls [onStatusChange]
    with the new count; no other event changes the counter, so it never
    decreases and counts exactly the settled relays, failed ones included. *)
Theorem settled_relay_is_counted (c : PluginClient) :
  (let c' := step JSON_parse c RelaySettled in
   requestCount c' = (requestCount c + 1)%Z
   /\ effects c' =
        (effects c ++ [StatusChange connected (pluginId c) (requestCount c + 1)])%list)
  /\ (forall ev, (requestCount c <= requestCount (step JSON_parse c ev))%Z)
  /\ (forall evs,
        requestCount (run JSON_parse c evs)
        = (requestCount c + Z.of_nat (List.length (filter is_settled evs)))%Z)
  /\ (forall requestId body cfg message,
        exists text,
          handleIncomingRequest JSON_parse JSON_stringify requestId body cfg
            (fun _ _ => RequestError message)
          = ([error_msg requestId text], true)).
Proof.
  split; [split; reflexivity|].
  split.
  { intro ev. rewrite requestCount_step. destruct (is_settled ev); lia. }
  split; [intro evs; apply requestCount_run|].
  intros. apply failed_relay_settles.
Qed.

End Counter.

(* ------------------------------------------------------------------------ *)
(** ** After [auth_error]                                                     *)
(* ------------------------------------------------------------------------ *)

(** The effects a reconnection attempt would leave: a socket created, a
    timer set, the status reported as connecting or reconnecting. *)
Definition reconnect_effect (e : Effect) : bool :=
  match e with
  | SocketCreated _ _ | TimerSet _ _ => true
  | StatusChange connecting _ _ | StatusChange reconnecting _ _ => true
  | _ => false
  end.

Definition no_reconnect_effects (es : list Effect) : bool :=
  forallb (fun e => negb (reconnect_effect e)) es.

Definition not_reconnecting (st : ConnectionStatus) : bool :=
  match st with connecting | reconnecting => false | _ => true end.

(** [c'] comes from [c] without any sign of a reconnection. *)
Definition calm (c c' : PluginClient) : Prop :=
  closed c' = closed c
  /\ List.length (sockets c') = List.length (sockets c)
  /\ List.length (timers c') = List.length (timers c)
  /\ exists es, effects c' = (effects c ++ es)%list /\ no_reconnect_effects es = true.

Lemma calm_refl (c : PluginClient) : calm c c.
Proof.
  repeat split. exists []. split; [now rewrite app_nil_r | reflexivity].
Qed.

Lemma calm_trans (a b c : PluginClient) : calm a b -> calm b c -> calm a c.
Proof.
  intros (H1 & H2 & H3 & es1 & E1 & F1) (G1 & G2 & G3 & es2 & E2 & F2).
  repeat split; try congruence.
  exists (es1 ++ es2)%list. split.
  - now rewrite E2, E1, app_assoc.
  - unfold no_reconnect_effects in *. now rewrite forallb_app, F1, F2.
Qed.

Lemma update_nth_length {A : Type} (i : nat) (v : A) (l : list A) :
  List.length (update_nth i v l) = List.length l.
Proof.
  revert i. induction l as [|a l IH]; intros [|i]; simpl; auto.
Qed.

Lemma calm_emit (e : Effect) (c : PluginClient) :
  reconnect_effect e = false -> calm c (emit e c).
Proof.
  intro H. repeat split. exists [e]. split; [reflexivity|].
  unfold no_reconnect_effects. simpl. now rewrite H.
Qed.

Lemma calm_setStatus (st : ConnectionStatus) (c : PluginClient) :
  not_reconnecting st = true -> calm c (setStatus st c).
Proof.
  intro H. repeat split.
  exists [StatusChange st (pluginId c) (requestCount c)]. split; [reflexivity|].
  now destruct st.
Qed.

Lemma calm_sendMessage (msg : json) (c : PluginClient) :
  calm c (sendMessage msg c) /\ status (sendMessage msg c) = status c.
Proof.
  unfold sendMessage. destruct (ws c) as [n|]; [|split; [apply calm_refl | reflexivity]].
  destruct (nth_error (sockets c) n) as [[| | |]|];
    split; try apply calm_refl; try reflexivity.
  now apply calm_emit.
Qed.

Lemma calm_socket_close (k : nat) (code : Z) (reason : string) (c : PluginClient) :
  calm c (socket_close k code reason c)
  /\ status (socket_close k code reason c) = status c.
Proof.
  unfold socket_close; cbn.
  destruct (nth_error (sockets c) k) as [[| | |]|]; cbn;
    (split; [|reflexivity]); repeat split; cbn;
    rewrite ?update_nth_length; try reflexivity;
    (exists [SocketClose k code reason]; split; reflexivity).
Qed.

Lemma calm_stop (c : PluginClient) :
  closed c = true -> calm c (stop c) /\ status (stop c) = disconnected.
Proof.
  intro Hc. unfold stop. split; [|reflexivity].
  set (c1 := set_closed true c).
  assert (H1 : calm c c1).
  { subst c1. repeat split; cbn; [now rewrite Hc|].
    exists []. split; [now rewrite app_nil_r | reflexivity]. }
  set (c2 := match reconnectTimer c1 with
             | Some t => _
             | None => c1
             end).
  assert (H2 : calm c1 c2).
  { subst c2. destruct (reconnectTimer c1) as [t|]; [|apply calm_refl].
    repeat split; cbn; rewrite ?update_nth_length; try reflexivity.
    exists [TimerCleared t]. split; reflexivity. }
  set (c3 := match ws c2 with
             | Some k => _
             | None => c2
             end).
  assert (H3 : calm c2 c3).
  { subst c3. destruct (ws c2) as [k|]; [|apply calm_refl].
    destruct (calm_socket_close k 1000 "plugin stopping" c2)
      as [(A & B & C & es & E & F) _].
    repeat split; cbn; try assumption. now exists es. }
  eapply calm_trans; [exact H1|].
  eapply calm_trans; [exact H2|].
  eapply calm_trans; [exact H3|].
  now apply calm_setStatus.
Qed.

Lemma dispatch_auth_error (m : string) (c : PluginClient) :
  let c1 := dispatch (ServerAuthError m) c in
  status c1 = disconnected /\ closed c1 = true /\ ws c1 = None
  /\ (List.length (sockets c1) = List.length (sockets c)
      /\ List.length (timers c1) = List.length (timers c)).
Proof.
  cbn. destruct (ws c) as [k|] eqn:E; cbn; [|repeat split; exact E].
  unfold socket_close; cbn.
  destruct (nth_error (sockets c) k) as [[| | |]|]; cbn;
    rewrite ?update_nth_length; repeat split.
Qed.

Section AfterAuthError.

Variable JSON_parse : string -> option json.

Definition not_start (ev : Event) : bool :=
  match ev with Start => false | _ => true end.

(** Events that cannot move the status of a shut-down client away from
    [disconnected]: everything except [start()], the ['open'] of a socket
    and an [auth_ok] frame. *)
Definition quiet (ev : Event) : bool :=
  match ev with
  | Start | SocketOpen _ => false
  | SocketMessage _ raw =>
      match JSON_parse raw with
      | Some j =>
          match ServerMessageSchema_safeParse j with
          | Some (ServerAuthOk _) => false
          | _ => true
          end
      | None => true
      end
  | _ => true
  end.

Lemma dispatch_when_closed (msg : ServerMessage) (c : PluginClient) :
  closed c = true ->
  calm c (dispatch msg c)
  /\ (not_reconnecting (status c) = true ->
      not_reconnecting (status (dispatch msg c)) = true)
  /\ ((forall p, msg <> ServerAuthOk p) -> status c = disconnected ->
      status (dispatch msg c) = disconnected).
Proof.
  intro Hc. destruct msg as [id body|ts|pid|m|j|i o]; cbn [dispatch].
  - split; [now apply calm_emit|]. split; auto.
  - destruct (calm_sendMessage (JObj [("type", JStr "pong"); ("ts", JNum ts)]) c)
      as [H1 H2].
    rewrite H2. split; [exact H1|]. split; auto.
  - split.
    + repeat split; cbn.
      exists [StatusChange connected (Some pid) (requestCount c)].
      split; reflexivity.
    + split; [reflexivity|]. intros H. now contradiction (H pid).
  - split; [|split; reflexivity].
    eapply calm_trans with (b := set_closed true c).
    { repeat split; cbn; [now rewrite Hc|]. exists []. split; [now rewrite app_nil_r | reflexivity]. }
    eapply calm_trans; [|now apply calm_setStatus].
    cbn. destruct (ws c) as [k|]; [|apply calm_refl].
    destruct (calm_socket_close k 1000 "auth failed" (set_closed true c))
      as [(A & B & C & es & E & F) _].
    repeat split; cbn; try assumption. now exists es.
  - split; [|split; auto].
    repeat split; cbn. exists [JwtRefreshed j]. split; reflexivity.
  - split; [|split; auto].
    repeat split; cbn.
    exists [PriceUpdateAcked {| inputTokenPrice := i; outputTokenPrice := o |}].
    split; reflexivity.
Qed.

Lemma handleMessage_when_closed (raw : string) (c : PluginClient) :
  closed c = true ->
  calm c (handleMessage JSON_parse raw c)
  /\ (not_reconnecting (status c) = true ->
      not_reconnecting (status (handleMessage JSON_parse raw c)) = true)
  /\ (quiet (SocketMessage 0 raw) = true -> status c = disconnected ->
      status (handleMessage JSON_parse raw c) = disconnected).
Proof.
  intro Hc. unfold handleMessage, quiet.
  destruct (JSON_parse raw) as [j|]; [|split; [apply calm_refl | auto]].
  destruct (ServerMessageSchema_safeParse j) as [msg|];
    [|split; [apply calm_refl | auto]].
  destruct (dispatch_when_closed msg c Hc) as (H1 & H2 & H3).
  split; [exact H1|]. split; [exact H2|].
  intros Hq. apply H3. intros p ->. discriminate Hq.
Qed.

(** One event on a shut-down client, [start()] apart. *)
Lemma step_when_closed (c : PluginClient) (ev : Event) :
  closed c = true -> not_start ev = true ->
  calm c (step JSON_parse c ev)
  /\ (not_reconnecting (status c) = true ->
      not_reconnecting (status (step JSON_parse c ev)) = true)
  /\ (quiet ev = true -> status c = disconnected ->
      status (step JSON_parse c ev) = disconnected).
Proof.
  intros Hc Hns.
  destruct ev as [| |i o|k|k raw|k code rnd|k m|t|msg|]; cbn [step].
  - discriminate Hns.
  - destruct (calm_stop c Hc) as [H1 H2]. rewrite H2. auto.
  - unfold updatePricing.
    destruct (calm_sendMessage
                (JObj [("type", JStr "price_update"); ("inputTokenPrice", JStr i);
                       ("outputTokenPrice", JStr o)]) c) as [H1 H2].
    rewrite H2. auto.
  - destruct (nth_error (sockets c) k) as [[| | |]|];
      try (split; [apply calm_refl | auto]).
    unfold on_open.
    split; [|split; [intros _; now rewrite (proj2 (calm_sendMessage _ _))
                    | discriminate]].
    set (c1 := set_sockets (update_nth k OPEN (sockets c)) c).
    eapply calm_trans with (b := c1).
    { subst c1. repeat split; cbn; rewrite ?update_nth_length; try reflexivity.
      exists []. split; [now rewrite app_nil_r | reflexivity]. }
    eapply calm_trans; [now apply (calm_setStatus authenticating)|].
    apply calm_sendMessage.
  - destruct (handleMessage_when_closed raw c Hc) as (H1 & H2 & H3).
    destruct (nth_error (sockets c) k) as [[| | |]|];
      try (split; [apply calm_refl | auto]); auto.
  - destruct (nth_error (sockets c) k) as [[| | |]|] eqn:E;
      try (split; [apply calm_refl | auto]);
      match goal with
      | |- context [on_close code rnd ?c1] =>
          destruct (on_close_when_closed code rnd c1 Hc)
            as (Hs & _ & _ & Ht & Hk & Hcl & He);
          cbn in Ht, Hk, Hcl, He; rewrite Hs;
          (split; [|auto]);
          repeat split; rewrite ?Ht, ?Hk, ?Hcl, ?update_nth_length; auto;
          eexists; split; [exact He | reflexivity]
      end.
  - destruct (nth_error (sockets c) k); split; try apply calm_refl; auto.
  - destruct (nth_error (timers c) t) as [[|]|];
      try (split; [apply calm_refl | auto]).
    unfold connect. cbn. rewrite Hc.
    split; [|auto].
    repeat split; cbn; rewrite ?update_nth_length; try reflexivity.
    exists []. split; [now rewrite app_nil_r | reflexivity].
  - destruct (calm_sendMessage msg c) as [H1 H2]. rewrite H2. auto.
  - split; [|auto].
    repeat split; cbn.
    exists [StatusChange connected (pluginId c) (requestCount c + 1)].
    split; reflexivity.
Qed.

Lemma run_when_closed (evs : list Event) (c : PluginClient) :
  closed c = true -> forallb not_start evs = true ->
  calm c (run JSON_parse c evs)
  /\ (not_reconnecting (status c) = true ->
      not_reconnecting (status (run JSON_parse c evs)) = true)
  /\ (forallb quiet evs = true -> status c = disconnected ->
      status (run JSON_parse c evs) = disconnected).
Proof.
  revert c. induction evs as [|ev evs IH]; intros c Hc Hns.
  - cbn. split; [apply calm_refl | auto].
  - cbn [forallb] in Hns. apply andb_true_iff in Hns as [Hev Hns].
    change (run JSON_parse c (ev :: evs))
      with (run JSON_parse (step JSON_parse c ev) evs).
    destruct (step_when_closed c ev Hc Hev) as (H1 & H2 & H3).
    assert (Hc' : closed (step JSON_parse c ev) = true)
      by (destruct H1 as (-> & _); exact Hc).
    destruct (IH _ Hc' Hns) as (G1 & G2 & G3).
    split; [eapply calm_trans; eauto|].
    split; [auto|].
    cbn [forallb]. intros Hq Hd. apply andb_true_iff in Hq as [Hq1 Hq2]. auto.
Qed.

(** C2, as the code has it.  After a valid [auth_error], and as long as
    [start()] is not called: the [closed] flag stays up, no socket is
    created, no timer is set, and the status is never connecting or
    reconnecting; it is disconnected right after the frame, and stays so
    across every later event except the ['open'] of a socket and a further
    [auth_ok] frame, whose listeners still run. *)
Theorem auth_error_stops_reconnection (c : PluginClient) (raw : string)
  (j : json) (m : string) (evs : list Event) :
  JSON_parse raw = Some j ->
  ServerMessageSchema_safeParse j = Some (ServerAuthError m) ->
  forallb not_start evs = true ->
  let c1 := handleMessage JSON_parse raw c in
  let c2 := run JSON_parse c1 evs in
  status c1 = disconnected /\ closed c1 = true /\ ws c1 = None
  /\ closed c2 = true
  /\ List.length (sockets c2) = List.length (sockets c)
  /\ List.length (timers c2) = List.length (timers c)
  /\ (exists es, effects c2 = (effects c1 ++ es)%list
                 /\ no_reconnect_effects es = true)
  /\ status c2 <> connecting /\ status c2 <> reconnecting
  /\ (forallb quiet evs = true -> status c2 = disconnected).
Proof.
  intros Hj Hs Hns c1 c2.
  assert (E1 : c1 = dispatch (ServerAuthError m) c).
  { subst c1. unfold handleMessage. now rewrite Hj, Hs. }
  destruct (dispatch_auth_error m c) as (Hst & Hcl & Hws & Hlen).
  rewrite <- E1 in Hst, Hcl, Hws, Hlen.
  destruct (run_when_closed evs c1 Hcl Hns) as ((A & B & C & D) & G2 & G3).
  fold c2 in A, B, C, D, G2, G3.
  assert (Hnr : not_reconnecting (status c2) = true)
    by (apply G2; now rewrite Hst).
  destruct Hlen as [L1 L2].
  repeat split; try assumption; try congruence.
  - intro H. now rewrite H in Hnr.
  - intro H. now rewrite H in Hnr.
  - intro Hq. now apply G3.
Qed.

End AfterAuthError.

Lemma auth_error_stops_reconnection_witness :
  let c1 := handleMessage JSON_parse_text (auth_error_frame "Invalid API key")
              connected_client in
  status (run JSON_parse_text c1
            [SocketClosed 0 1000 0; TimerFired 0; SocketError 0 "late"; RelaySettled])
  = disconnected.
Proof.
  apply (auth_error_stops_reconnection JSON_parse_text connected_client
           (auth_error_frame "Invalid API key")
           (JObj [("type", JStr "auth_error"); ("message", JStr "Invalid API key")])
           "Invalid API key"
           [SocketClosed 0 1000 0; TimerFired 0; SocketError 0 "late"; RelaySettled]);
    reflexivity.
Defined.

(** C2 as stated fails.  The server writes [auth_error] and then [auth_ok]
    on the same connection; the client has called [close] on the socket
    after the first frame, the socket is closing and still delivers the
    second, and the status is [connected] again, without any [start()]. *)
Lemma auth_ok_after_auth_error_reconnects_status :
  let c1 := step JSON_parse_text connected_client
              (SocketMessage 0 (auth_error_frame "Invalid API key")) in
  let c2 := step JSON_parse_text c1 (SocketMessage 0 (auth_ok_frame "p-1" 2)) in
  status c1 = disconnected
  /\ closed c1 = true
  /\ sockets c1 = [CLOSING]
  /\ status c2 = connected
  /\ status c2 <> disconnected.
Proof. vm_compute. repeat split. discriminate. Qed.

(* ------------------------------------------------------------------------ *)
(** ** The request relay                                                      *)
(* ------------------------------------------------------------------------ *)

(** A callback set that only records the events it is given: running the
    SSE decoder with it gives the events the decoder produces, in order. *)
Definition recorder : StreamCallbacks (list json) := {|
  onEvent := fun event evs => ((evs ++ [event])%list, false);
  onError := fun _ evs => evs;
  onDone := fun evs => evs
|}.

(** The usages carried by the [response.completed] events among [evs]. *)
Definition completed_usages (evs : list json) : list json :=
  flat_map (fun e => match completed_usage e with
                     | Some u => [u]
                     | None => []
                     end) evs.

(** The three kinds of message that end a request. *)
Definition is_terminal (msg : json) : bool :=
  is_str "response" (get "type" msg)
  || is_str "stream_end" (get "type" msg)
  || is_str "error" (get "type" msg).

Definition is_stream_end (msg : json) : bool := is_str "stream_end" (get "type" msg).
Definition is_error (msg : json) : bool := is_str "error" (get "type" msg).

(** The backend behaviours some listener of the call reacts to.  A response
    whose stream ends in ['error'] is watched only by the streaming call, and
    only on a status below 400. *)
Definition answered (streaming : bool) (b : Backend) : bool :=
  match b with
  | RequestError _ => true
  | Response _ _ ResEnd => true
  | Response st _ (ResError _) => streaming && negb (is_http_error st)
  end.

Lemma last_cons {A : Type} (a d : A) (l : list A) : last (a :: l) d = last l a.
Proof.
  revert a d. induction l as [|b l IH]; intros a d; [reflexivity|].
  change (last (a :: b :: l) d) with (last (b :: l) d).
  now rewrite (IH b d), (IH b a).
Qed.

Lemma last_app_default {A : Type} (l1 l2 : list A) (d : A) :
  last (l1 ++ l2) d = last l2 (last l1 d).
Proof.
  revert d. induction l1 as [|a l1 IH]; intro d; [reflexivity|].
  change ((a :: l1) ++ l2)%list with (a :: (l1 ++ l2))%list.
  now rewrite !last_cons, IH.
Qed.

(** What the relay's state is after the decoder has produced [evs]. *)
Definition relay_after (requestId : string) (evs : list json) (r : RelayState) : Prop :=
  sent r = map (stream_event_msg requestId) evs
  /\ usage r = last (completed_usages evs) zero_usage.

Lemma completed_usages_app (l1 l2 : list json) :
  completed_usages (l1 ++ l2) = (completed_usages l1 ++ completed_usages l2)%list.
Proof. unfold completed_usages. apply flat_map_app. Qed.

Lemma relay_onEvent (requestId : string) (event : json) (evs : list json)
  (r : RelayState) :
  relay_after requestId evs r ->
  relay_after requestId (evs ++ [event])
    (fst (onEvent (relay_callbacks requestId) event r)).
Proof.
  intros [Hs Hu]. unfold relay_after.
  rewrite map_app, completed_usages_app, last_app_default, <- Hu, <- Hs.
  cbn [onEvent relay_callbacks map].
  assert (Hnull : completed_usage JNull = None) by reflexivity.
  destruct event; try (rewrite Hnull); cbn [fst];
    try (cbn [completed_usages flat_map]; cbn; split; reflexivity);
    (cbn [completed_usages flat_map]; rewrite app_nil_r;
     match goal with
     | |- context [completed_usage ?e] => destruct (completed_usage e)
     end; cbn; split; reflexivity).
Qed.

Section RelayFacts.

Variable JSON_parse : string -> option json.
Variable JSON_stringify : json -> string.

(** The events the decoder produces from the chunks of a response. *)
Definition decoded (chunks : list string) : list json :=
  snd (fold_left (sse_chunk JSON_parse recorder) chunks ("", [])).

Lemma relay_sse_part (requestId part : string) (evs : list json) (r : RelayState) :
  relay_after requestId evs r ->
  relay_after requestId (sse_part JSON_parse recorder part evs)
    (sse_part JSON_parse (relay_callbacks requestId) part r).
Proof.
  intro H. unfold sse_part.
  destruct (String.eqb (trim part) ""); [exact H|].
  destruct (String.eqb (trim part) "data: [DONE]"); [exact H|].
  destruct (String.eqb (sse_data part) ""); [exact H|].
  destruct (JSON_parse (sse_data part)) as [ev|]; [|exact H].
  now apply relay_onEvent.
Qed.

Lemma relay_sse_parts (requestId : string) (parts : list string) :
  forall evs r,
    relay_after requestId evs r ->
    relay_after requestId
      (fold_left (fun s part => sse_part JSON_parse recorder part s) parts evs)
      (fold_left (fun s part => sse_part JSON_parse (relay_callbacks requestId) part s)
         parts r).
Proof.
  induction parts as [|p parts IH]; intros evs r H; [exact H|].
  cbn [fold_left]. apply IH. now apply relay_sse_part.
Qed.

Lemma relay_sse_chunks (requestId : string) (chunks : list string) :
  forall buf evs r,
    relay_after requestId evs r ->
    let a := fold_left (sse_chunk JSON_parse recorder) chunks (buf, evs) in
    let b := fold_left (sse_chunk JSON_parse (relay_callbacks requestId)) chunks (buf, r) in
    fst a = fst b /\ relay_after requestId (snd a) (snd b).
Proof.
  induction chunks as [|ch chunks IH]; intros buf evs r H; [now split|].
  cbn [fold_left]. unfold sse_chunk at 2 4. cbn [fst snd].
  apply IH. now apply relay_sse_parts.
Qed.

Lemma stream_events_not_terminal (requestId : string) (evs : list json) :
  filter is_terminal (map (stream_event_msg requestId) evs) = [].
Proof. induction evs as [|e evs IH]; [reflexivity | exact IH]. Qed.

(** What the terminal message of a request is, by the call made and the
    backend's behaviour. *)
Definition terminal_of (requestId : string) (streaming : bool) (b : Backend)
  : option json :=
  if streaming then
    match b with
    | RequestError message => Some (error_msg requestId message)
    | Response st chunks fin =>
        if is_http_error st then
          match fin with
          | ResEnd =>
              Some (error_msg requestId
                      ("OpenClaw Gateway error (status " ++ status_text st ++ "): "
                       ++ slice_to 500 (String.concat EmptyString chunks)))
          | ResError _ => None
          end
        else
          match fin with
          | ResEnd =>
              Some (stream_end_msg requestId
                      (last (completed_usages (decoded chunks)) zero_usage))
          | ResError message => Some (error_msg requestId message)
          end
    end
  else
    match forwardToOpenClaw JSON_parse JSON_stringify b with
    | Resolved response => Some (response_msg requestId response)
    | Rejected message => Some (error_msg requestId (error_text message))
    | Pending => None
    end.

(** The events forwarded before the terminal message. *)
Definition forwarded_events (streaming : bool) (b : Backend) : list json :=
  match streaming, b with
  | true, Response st chunks _ => if is_http_error st then [] else decoded chunks
  | _, _ => []
  end.

(** The request the relay makes: the body it sends and whether it asks for
    an event stream. *)
Definition relay_call (body : option json) (cfg : OpenClawClientConfig)
  : json * bool :=
  let fb := forward_body body cfg in
  if is_true (assoc "stream" fb) then (JObj fb, true)
  else (JObj (set_field "stream" (JBool false) fb), false).

(** The relay on every backend behaviour: the events in order, then the
    terminal message if the behaviour is one a listener reacts to, and
    nothing more. *)
Lemma handleIncomingRequest_trace (requestId : string) (body : option json)
  (cfg : OpenClawClientConfig) (gateway : json -> bool -> Backend) :
  let '(sentBody, streaming) := relay_call body cfg in
  let b := gateway sentBody streaming in
  handleIncomingRequest JSON_parse JSON_stringify requestId body cfg gateway
  = match terminal_of requestId streaming b with
    | Some t =>
        ((map (stream_event_msg requestId) (forwarded_events streaming b) ++ [t])%list,
         true)
    | None => ([], false)
    end.
Proof.
  unfold relay_call, handleIncomingRequest.
  destruct (is_true (assoc "stream" (forward_body body cfg))); cbv zeta.
  - cbn [terminal_of forwarded_events].
    destruct (gateway _ true) as [message | st chunks fin];
      cbn [streamFromOpenClaw]; [reflexivity|].
    destruct (is_http_error st); [destruct fin; reflexivity|].
    assert (H0 : relay_after requestId [] {| usage := zero_usage; sent := [] |})
      by (split; reflexivity).
    destruct (relay_sse_chunks requestId chunks "" [] _ H0) as [_ [Hs Hu]].
    fold (decoded chunks) in Hs, Hu.
    destruct fin; cbn [onDone onError relay_callbacks relay_send sent];
      rewrite Hs, ?Hu; reflexivity.
  - cbn [terminal_of forwarded_events].
    destruct (forwardToOpenClaw _ _ _); reflexivity.
Qed.

Lemma terminal_of_answered (requestId : string) (streaming : bool) (b : Backend) :
  answered streaming b = true ->
  exists t, terminal_of requestId streaming b = Some t /\ is_terminal t = true
            /\ (is_stream_end t = true ->
                streaming = true
                /\ exists st chunks, b = Response st chunks ResEnd
                     /\ is_http_error st = false
                     /\ t = stream_end_msg requestId
                              (last (completed_usages (decoded chunks)) zero_usage)).
Proof.
  intro H. unfold terminal_of.
  destruct streaming.
  - destruct b as [message | st chunks fin].
    + eexists. split; [reflexivity|]. split; [reflexivity | discriminate].
    + destruct (is_http_error st) eqn:Est.
      * destruct fin; [|cbn in H; rewrite Est in H; discriminate H].
        eexists. split; [reflexivity|]. split; [reflexivity | discriminate].
      * destruct fin.
        -- eexists. split; [reflexivity|]. split; [reflexivity|].
           intros _. split; [reflexivity|]. exists st, chunks. auto.
        -- eexists. split; [reflexivity|]. split; [reflexivity | discriminate].
  - destruct b as [message | st chunks fin]; cbn [forwardToOpenClaw].
    + eexists. split; [reflexivity|]. split; [reflexivity | discriminate].
    + destruct fin; [|discriminate H].
      destruct (JSON_parse _); [destruct (is_http_error st)|];
        eexists; (split; [reflexivity|]); (split; [reflexivity | discriminate]).
Qed.

(** Everything C1 says, for the backend behaviours a listener reacts to:
    the promise settles; what was sent is the decoded events, each as a
    [stream_event] and in the decoder's order, then exactly one terminal
    message; a [stream_end] comes only from a stream that reached its end,
    with the usage of the last [response.completed] event that carried one
    (zeros if none did); [stream_end] and [error] never both occur. *)
Lemma relay_one_terminal (requestId : string) (body : option json)
  (cfg : OpenClawClientConfig) (gateway : json -> bool -> Backend) :
  let call := relay_call body cfg in
  let b := gateway (fst call) (snd call) in
  answered (snd call) b = true ->
  exists t,
    handleIncomingRequest JSON_parse JSON_stringify requestId body cfg gateway
    = ((map (stream_event_msg requestId) (forwarded_events (snd call) b) ++ [t])%list,
       true)
    /\ terminal_of requestId (snd call) b = Some t
    /\ filter is_terminal
         (fst (handleIncomingRequest JSON_parse JSON_stringify requestId body cfg gateway))
       = [t]
    /\ (is_stream_end t = true ->
        exists st chunks, b = Response st chunks ResEnd
          /\ t = stream_end_msg requestId
                   (last (completed_usages (decoded chunks)) zero_usage))
    /\ (is_stream_end t && is_error t = false).
Proof.
  intros call b H.
  pose proof (handleIncomingRequest_trace requestId body cfg gateway) as Htr.
  subst b. subst call. destruct (relay_call body cfg) as [sentBody streaming].
  cbn [fst snd] in *.
  destruct (terminal_of_answered requestId streaming _ H) as (t & Ht & Hterm & Hend).
  rewrite Ht in Htr. exists t. rewrite Htr. cbn [fst].
  split; [reflexivity|]. split; [exact Ht|].
  split.
  { rewrite filter_app, stream_events_not_terminal. cbn. now rewrite Hterm. }
  split.
  { intro He. destruct (Hend He) as (_ & st & chunks & Hb & _ & Ht'). eauto. }
  unfold is_stream_end, is_error.
  destruct (get "type" t) as [[| | |s| |]|]; try reflexivity.
  cbn. destruct (String.eqb s "stream_end") eqn:E; [|reflexivity].
  apply String.eqb_eq in E. now subst s.
Qed.

(** The behaviours no listener reacts to leave the request without a
    terminal message, and its promise pending. *)
Lemma relay_unanswered (requestId : string) (body : option json)
  (cfg : OpenClawClientConfig) (gateway : json -> bool -> Backend) :
  let call := relay_call body cfg in
  answered (snd call) (gateway (fst call) (snd call)) = false ->
  handleIncomingRequest JSON_parse JSON_stringify requestId body cfg gateway
  = ([], false).
Proof.
  intros call H.
  pose proof (handleIncomingRequest_trace requestId body cfg gateway) as Htr.
  subst call. destruct (relay_call body cfg) as [sentBody streaming].
  cbn [fst snd] in *. rewrite Htr. unfold terminal_of.
  destruct (gateway sentBody streaming) as [message | st chunks fin];
    [discriminate H|].
  destruct fin; [discriminate H|].
  destruct streaming; [|reflexivity].
  cbn in H. now destruct (is_http_error st).
Qed.

End RelayFacts.

(** A streamed answer, cut into chunks in the middle of an event. *)
Definition delta_event : json :=
  JObj [("type", JStr "response.output_text.delta"); ("delta", JStr "Hi")].

Definition completed_event (input output : Z) : json :=
  JObj [("type", JStr "response.completed");
        ("response",
         JObj [("usage",
                JObj [("input_tokens", JNum (inject_Z input));
                      ("output_tokens", JNum (inject_Z output));
                      ("total_tokens", JNum (inject_Z (input + output)))])])].

Definition sse_block (name : string) (event : json) : string :=
  "event: " ++ name ++ nl ++ "data: " ++ JSON_stringify_text event ++ nl ++ nl.

Definition sample_stream : list string :=
  [sse_block "response.output_text.delta" delta_event
   ++ "event: response.completed" ++ nl ++ "data: {";
   slice_from 1 (JSON_stringify_text (completed_event 3 4)) ++ nl ++ nl
   ++ "data: [DONE]" ++ nl ++ nl].

Definition plain_request : option json :=
  Some (JObj [("model", JStr "default"); ("input", JStr "Hello")]).

Definition streaming_request : option json :=
  Some (JObj [("model", JStr "m"); ("input", JStr "Hello"); ("stream", JBool true)]).

Definition relay_sample (body : option json) (b : Backend) : list json * bool :=
  handleIncomingRequest JSON_parse_text JSON_stringify_text "req-1" body
    (openClawConfig sample_config) (fun _ _ => b).

Example relay_streams_in_order :
  relay_sample streaming_request (Response (Some 200%Z) sample_stream ResEnd)
  = ([stream_event_msg "req-1" delta_event;
      stream_event_msg "req-1" (completed_event 3 4);
      stream_end_msg "req-1"
        (JObj [("input_tokens", JNum 3); ("output_tokens", JNum 4);
               ("total_tokens", JNum 7)])],
     true).
Proof. vm_compute. reflexivity. Qed.

Example relay_answers_json :
  relay_sample plain_request
    (Response (Some 200%Z) [JSON_stringify_text (JObj [("id", JStr "r")])] ResEnd)
  = ([response_msg "req-1" (JObj [("id", JStr "r")])], true).
Proof. vm_compute. reflexivity. Qed.

Example relay_reports_refused_connection :
  relay_sample plain_request (RequestError "connect ECONNREFUSED")
  = ([error_msg "req-1" "connect ECONNREFUSED"], true).
Proof. vm_compute. reflexivity. Qed.

(** C1.  A response that starts and then fails (the connection drops in the
    middle of the body) reaches the relay as an ['error'] event of the
    response stream.  [streamFromOpenClaw] listens for it on a status below
    400 and reports it; [forwardToOpenClaw], and [streamFromOpenClaw] on an
    error status, do not: the request gets no terminal message at all and
    its promise never settles. *)
Theorem relay_aborted_response_unanswered :
  relay_sample plain_request (Response (Some 200%Z) ["{"] (ResError "aborted"))
    = ([], false)
  /\ relay_sample streaming_request (Response (Some 500%Z) ["{"] (ResError "aborted"))
    = ([], false)
  /\ relay_sample streaming_request (Response (Some 200%Z) ["{"] (ResError "aborted"))
    = ([error_msg "req-1" "aborted"], true).
Proof. vm_compute. repeat split. Qed.

(* ------------------------------------------------------------------------ *)
(** ** The payment flow                                                       *)
(* ------------------------------------------------------------------------ *)

Definition first_call (url body : string) : Request :=
  {| req_url := url; req_method := "POST";
     req_headers := post_headers; req_body := Some body |}.

Definition retry_call (url body xPayment : string) : Request :=
  {| req_url := url; req_method := "POST";
     req_headers := (post_headers ++ [("X-PAYMENT", xPayment)])%list;
     req_body := Some body |}.

(** The requirement the flow picks from a 402 body. *)
Definition permit2_of (paymentBody : PaymentRequiredResponse)
  : option Permit2PaymentRequirements :=
  match accepts paymentBody with
  | Some l => List.find (fun a => String.eqb (scheme a) "permit2") l
  | None => None
  end.

(** The amount that is authorised: the override, else the configured
    ceiling, else the requirement's maximum. *)
Definition chosen_amount (cfg : SixerrClientConfig) (override : option string)
  (requirements : Permit2PaymentRequirements) : string :=
  match override with
  | Some a => a
  | None => match maxAmount cfg with
            | Some a => a
            | None => maxCost requirements
            end
  end.

Section PaymentFacts.

Variable JSON_stringify : json -> string.
Variable btoa : string -> string.

Lemma at_most_two_calls (fetch : Fetch) (now_nonce now_deadline : Z)
  (cfg : SixerrClientConfig) (url body : string) (override : option string) :
  let calls := snd (postWith402Handling JSON_stringify btoa fetch now_nonce
                      now_deadline cfg url body override) in
  (1 <= List.length calls <= 2)%nat
  /\ hd_error calls = Some (first_call url body).
Proof.
  unfold postWith402Handling, first_call.
  destruct (fetch [] _) as [firstRes|m]; cbn; [|split; [lia | reflexivity]].
  destruct (negb (resp_status firstRes =? 402)%Z); cbn; [split; [lia | reflexivity]|].
  destruct (resp_payment firstRes) as [paymentBody|m]; cbn;
    [|split; [lia | reflexivity]].
  destruct (match accepts paymentBody with
            | Some l => find _ l
            | None => None
            end) as [requirements|]; cbn; [|split; [lia | reflexivity]].
  destruct (signPermit2Payment _ _ _ _ _ _ _) as [xPayment|m]; cbn;
    split; (lia || reflexivity).
Qed.

(** C5, as the code has it.  When the first POST is answered 402, the body
    names a permit2 requirement and the authorization gets signed, there is
    exactly one more call: same URL, same method, the same body, and the
    headers of the first call followed by the single header X-PAYMENT with
    the encoded authorization.  Whatever that call returns is the result of
    the flow; a second 402 is handed back to the caller as it is and nothing
    is called again.  In every case the flow makes one or two calls. *)
Theorem payment_retries_once (fetch : Fetch) (now_nonce now_deadline : Z)
  (cfg : SixerrClientConfig) (url body : string) (override : option string)
  (firstRes : HttpResponse) (paymentBody : PaymentRequiredResponse)
  (requirements : Permit2PaymentRequirements) (xPayment : string) :
  fetch [] (first_call url body) = Ok firstRes ->
  resp_status firstRes = 402%Z ->
  resp_payment firstRes = Ok paymentBody ->
  permit2_of paymentBody = Some requirements ->
  signPermit2Payment JSON_stringify btoa (signer cfg) requirements
    (chosen_amount cfg override requirements) now_nonce now_deadline
  = Ok xPayment ->
  let retry := retry_call url body xPayment in
  let flow := postWith402Handling JSON_stringify btoa fetch now_nonce now_deadline
                cfg url body override in
  flow = (fetch [first_call url body] retry, [first_call url body; retry])
  /\ req_body retry = req_body (first_call url body)
  /\ req_url retry = req_url (first_call url body)
  /\ req_method retry = req_method (first_call url body)
  /\ req_headers retry
     = (req_headers (first_call url body) ++ [("X-PAYMENT", xPayment)])%list
  /\ (forall second, fetch [first_call url body] retry = Ok second ->
                     resp_status second = 402%Z ->
                     flow = (Ok second, [first_call url body; retry]))
  /\ (List.length (snd flow) <= 2)%nat.
Proof.
  intros H1 Hst Hp Hreq Hsign retry flow.
  assert (E : flow = (fetch [first_call url body] retry, [first_call url body; retry])).
  { subst flow retry. unfold postWith402Handling.
    fold (first_call url body). rewrite H1, Hst. cbn [Z.eqb Pos.eqb negb].
    rewrite Hp. fold (permit2_of paymentBody). rewrite Hreq.
    fold (chosen_amount cfg override requirements). rewrite Hsign.
    reflexivity. }
  split; [exact E|].
  repeat split.
  - intros second H2 _. now rewrite E, H2.
  - rewrite E. cbn. lia.
Qed.

End PaymentFacts.

Definition sample_signer : PaymentSigner := {|
  address := "0x1111111111111111111111111111111111111111";
  signTypedData := fun _ => Ok "0xsigned"
|}.

Definition sample_client : SixerrClientConfig := {|
  cfg_serverUrl := Some "https://sixerr.ai/";
  signer := sample_signer;
  maxAmount := None
|}.

Definition sample_requirements (net : string) : Permit2PaymentRequirements := {|
  scheme := "permit2";
  network := net;
  asset := "0x833589fCD6eDb6E08f4c7C32D4f71b54bdA02913";
  payTo := "0x2222222222222222222222222222222222222222";
  permit2Terminal := "0x3333333333333333333333333333333333333333";
  maxCost := "10000";
  inputTokenPrice_req := "1";
  outputTokenPrice_req := "2";
  platformFeeBps := 100;
  maxTimeoutSeconds := 60
|}.

Definition payment_required (net : string) : HttpResponse := {|
  resp_status := 402;
  resp_content_type := Some "application/json";
  resp_has_body := true;
  resp_text := Ok "";
  resp_json := Ok JNull;
  resp_payment := Ok {| x402Version := 1; error := "Payment required";
                        accepts := Some [sample_requirements net] |}
|}.

(** A server that answers 402 to every call. *)
Definition always_402 (net : string) : Fetch := fun _ _ => Ok (payment_required net).

Definition sample_flow (net : string) : result HttpResponse * list Request :=
  postWith402Handling JSON_stringify_text btoa_text (always_402 net)
    1700000000123 1700000000456 sample_client
    "https://sixerr.ai/v1/responses" "{}" None.

Definition sample_token : string :=
  Eval vm_compute in
    match signPermit2Payment JSON_stringify_text btoa_text sample_signer
            (sample_requirements "eip155:8453") "10000"
            1700000000123 1700000000456 with
    | Ok x => x
    | Throw _ => ""
    end.

Lemma payment_retries_once_witness :
  sample_flow "eip155:8453"
  = (Ok (payment_required "eip155:8453"),
     [first_call "https://sixerr.ai/v1/responses" "{}";
      retry_call "https://sixerr.ai/v1/responses" "{}" sample_token]).
Proof.
  apply (payment_retries_once JSON_stringify_text btoa_text
           (always_402 "eip155:8453") 1700000000123 1700000000456 sample_client
           "https://sixerr.ai/v1/responses" "{}" None
           (payment_required "eip155:8453")
           {| x402Version := 1; error := "Payment required";
              accepts := Some [sample_requirements "eip155:8453"] |}
           (sample_requirements "eip155:8453") sample_token);
    reflexivity.
Defined.

(** C5 as stated fails, in two ways.  First: the first POST is answered 402
    and the body names a permit2 requirement, but its network string has no
    integer in it: signing throws, there is no second call, and the flow
    ends in that error.  Second: the first POST is answered 402, the
    authorization is signed and the retry is answered 402 again: the flow
    does not end in an error, it returns that second response, status 402,
    as its result, and the proxy replies 402 with it, not 502. *)
Lemma payment_claim_fails_twice :
  (sample_flow "base"
   = (Throw "Cannot parse chain ID from network: base",
      [first_call "https://sixerr.ai/v1/responses" "{}"])
   /\ permit2_of {| x402Version := 1; error := "Payment required";
                    accepts := Some [sample_requirements "base"] |}
      = Some (sample_requirements "base")
   /\ List.length (snd (sample_flow "base")) = 1%nat
   /\ List.length (snd (sample_flow "base")) <> 2%nat)
  /\ (always_402 "eip155:8453"
        [first_call "https://sixerr.ai/v1/responses" "{}"]
        (retry_call "https://sixerr.ai/v1/responses" "{}" sample_token)
      = Ok (payment_required "eip155:8453")
      /\ resp_status (payment_required "eip155:8453") = 402%Z
      /\ fst (sample_flow "eip155:8453") = Ok (payment_required "eip155:8453")
      /\ (forall message, fst (sample_flow "eip155:8453") <> Throw message)
      /\ List.length (snd (sample_flow "eip155:8453")) = 2%nat
      /\ reply_status
           (fst (proxy_listener JSON_parse_text JSON_stringify_text btoa_text
                   (always_402 "eip155:8453") 1700000000123 1700000000456
                   sample_client
                   {| im_url := Some "/v1/responses"; im_method := Some "POST";
                      im_body := Ok "{}" |})) = 402%Z).
Proof.
  split.
  - vm_compute. repeat split. discriminate.
  - vm_compute. repeat split. intros message H. discriminate H.
Qed.

(* ------------------------------------------------------------------------ *)
(** ** The signing proxy                                                      *)
(* ------------------------------------------------------------------------ *)

Definition request_url (req : IncomingMessage) : string :=
  match im_url req with Some u => u | None => "/" end.

Definition request_method (req : IncomingMessage) : string :=
  match im_method req with Some m => m | None => "GET" end.

(** The two routes. *)
Definition is_providers_route (req : IncomingMessage) : bool :=
  String.eqb (request_method req) "GET" && String.eqb (request_url req) "/v1/providers".

Definition responses_route (req : IncomingMessage) : option (option string) :=
  if String.eqb (request_method req) "POST" then match_responses (request_url req)
  else None.

Lemma prefix_split (p s : string) :
  String.prefix p s = true -> s = p ++ slice_from (String.length p) s.
Proof.
  revert s. induction p as [|a p IH]; intros s H; [reflexivity|].
  destruct s as [|b s]; [discriminate|].
  simpl in H. destruct (ascii_dec a b) as [->|]; [|discriminate].
  simpl. f_equal. now apply IH.
Qed.

(** [match_responses] is the regular expression of the route: the bare
    path, or the path, a slash and a non-empty segment that holds neither a
    slash nor a question mark. *)
Lemma match_responses_spec (url : string) (agent : option string) :
  match_responses url = Some agent ->
  (url = "/v1/responses" /\ agent = None)
  \/ exists seg, url = "/v1/responses/" ++ seg /\ agent = Some seg /\ seg <> ""
       /\ forall c, In c (list_ascii_of_string seg) -> c <> "/"%char /\ c <> "?"%char.
Proof.
  unfold match_responses.
  destruct (String.eqb url "/v1/responses") eqn:E0.
  - apply String.eqb_eq in E0. intro H. injection H as <-. now left.
  - destruct (String.prefix "/v1/responses/" url) eqn:Ep; [|discriminate].
    destruct (String.eqb (slice_from 14 url) "") eqn:Ee; [discriminate|].
    destruct (forallb _ _) eqn:Ef; [|discriminate].
    intro H. injection H as <-. right.
    exists (slice_from 14 url). repeat split.
    + exact (prefix_split _ _ Ep).
    + now apply String.eqb_neq.
    + rewrite forallb_forall in Ef. specialize (Ef c H).
      apply negb_true_iff, orb_false_iff in Ef as [Ef _].
      now apply Ascii.eqb_neq.
    + rewrite forallb_forall in Ef. specialize (Ef c H).
      apply negb_true_iff, orb_false_iff in Ef as [_ Ef].
      now apply Ascii.eqb_neq.
Qed.

Section ProxyFacts.

Variable JSON_parse : string -> option json.
Variable JSON_stringify : json -> string.
Variable btoa : string -> string.

(** What the proxy reads as the JSON body of a request. *)
Definition parsed_body (req : IncomingMessage) : option json :=
  match im_body req with
  | Ok bodyText => JSON_parse bodyText
  | Throw _ => None
  end.

(** C9.  A request on neither route gets 404.  A POST on the responses
    route whose body is not JSON gets 400, and [fetch] is not called.  When
    the upstream call throws (the POST through the payment flow, or the
    provider listing), the reply is 502 and its body is the JSON object
    whose [error] is the message thrown.  The three statuses differ. *)
Theorem proxy_error_replies (fetch : Fetch) (now_nonce now_deadline : Z)
  (cfg : SixerrClientConfig) (req : IncomingMessage) :
  let handled := handleRequest JSON_parse JSON_stringify btoa fetch now_nonce
                   now_deadline cfg req in
  (is_providers_route req = false -> responses_route req = None ->
   handled = (Ok (error_reply JSON_stringify 404 "Not found"), []))
  /\ (forall agent,
        is_providers_route req = false -> responses_route req = Some agent ->
        parsed_body req = None ->
        handled = (Ok (error_reply JSON_stringify 400 "Invalid JSON body"), []))
  /\ (forall agent rawBody message calls,
        is_providers_route req = false -> responses_route req = Some agent ->
        parsed_body req = Some rawBody ->
        respondRaw JSON_stringify btoa fetch now_nonce now_deadline cfg rawBody agent
        = (Throw message, calls) ->
        handled = (Ok (error_reply JSON_stringify 502 message), calls))
  /\ (forall message calls,
        is_providers_route req = true ->
        listProviders fetch cfg = (Throw message, calls) ->
        handled = (Ok (error_reply JSON_stringify 502 message), calls))
  /\ (forall st message,
        reply_status (error_reply JSON_stringify st message) = st
        /\ reply_body (error_reply JSON_stringify st message)
           = Text (JSON_stringify (JObj [("error", JStr message)]))).
Proof.
  intro handled. subst handled.
  unfold handleRequest, is_providers_route, responses_route, parsed_body,
    request_url, request_method.
  repeat split.
  - intros -> ->. reflexivity.
  - intros agent -> -> Hb. unfold handleResponses. now rewrite Hb.
  - intros agent rawBody message calls -> -> Hb Hr.
    unfold handleResponses. now rewrite Hb, Hr.
  - intros message calls -> Hl. now rewrite Hl.
Qed.

End ProxyFacts.

(** A server that cannot be reached. *)
Definition unreachable : Fetch := fun _ _ => Throw "fetch failed".

Definition proxy_sample (method url body : string) : result Reply * list Request :=
  handleRequest JSON_parse_text JSON_stringify_text btoa_text unreachable
    1700000000123 1700000000456 sample_client
    {| im_url := Some url; im_method := Some method; im_body := Ok body |}.

Lemma proxy_error_replies_witness :
  proxy_sample "GET" "/v1/models" ""
    = (Ok (error_reply JSON_stringify_text 404 "Not found"), [])
  /\ proxy_sample "POST" "/v1/responses/agent-7" "{oops"
    = (Ok (error_reply JSON_stringify_text 400 "Invalid JSON body"), [])
  /\ proxy_sample "POST" "/v1/responses" "{}"
    = (Ok (error_reply JSON_stringify_text 502 "fetch failed"),
       [first_call "https://sixerr.ai/v1/responses" "{}"]).
Proof.
  pose proof (proxy_error_replies JSON_parse_text JSON_stringify_text btoa_text
                unreachable 1700000000123 1700000000456 sample_client) as H.
  split; [|split].
  - apply (H {| im_url := Some "/v1/models"; im_method := Some "GET";
                im_body := Ok "" |}); reflexivity.
  - apply (proj1 (proj2 (H {| im_url := Some "/v1/responses/agent-7";
                              im_method := Some "POST"; im_body := Ok "{oops" |}))
             (Some "agent-7")); reflexivity.
  - apply (proj1 (proj2 (proj2 (H {| im_url := Some "/v1/responses";
                                     im_method := Some "POST"; im_body := Ok "{}" |})))
             None (JObj [])); reflexivity.
Defined.

(* ======================================================================== *)
(** * Further properties of the embedded code                                 *)
(* ======================================================================== *)

(* ------------------------------------------------------------------------ *)
(** ** The SSE decoder and the cutting of the body into chunks                *)
(* ------------------------------------------------------------------------ *)

(** The separator of SSE blocks: an empty line. *)
Definition blank : string := nl ++ nl.

Definition cons_head (c : ascii) (l : list string) : list string :=
  match l with
  | piece :: pieces => String c piece :: pieces
  | [] => [String c EmptyString]
  end.

Lemma split_blank_cons (c : ascii) (r : string) :
  split_from blank 0 (String c r)
  = if String.prefix blank (String c r)
    then EmptyString :: split_from blank 1 r
    else cons_head c (split_from blank 0 r).
Proof. reflexivity. Qed.

Lemma split_from_nonempty (sep : string) (s : string) :
  forall k, split_from sep k s <> [].
Proof.
  induction s as [|c r IH]; intro k; [discriminate|].
  destruct k as [|k]; cbn [split_from]; [|apply IH].
  destruct (String.prefix sep (String c r)); [discriminate|].
  destruct (split_from sep 0 r); discriminate.
Qed.

Lemma prefix_cons (a b : ascii) (p s : string) :
  String.prefix (String a p) (String b s)
  = if Ascii.eqb a b then String.prefix p s else false.
Proof.
  cbn -[ascii_dec]. destruct (ascii_dec a b) as [->|Hne].
  - now rewrite Ascii.eqb_refl.
  - apply Ascii.eqb_neq in Hne. now rewrite Hne.
Qed.

Lemma prefix_blank_inv (c : ascii) (r : string) :
  String.prefix blank (String c r) = true ->
  exists r', c = "010"%char /\ r = String "010" r'.
Proof.
  unfold blank, nl. cbn -[ascii_dec]. destruct (ascii_dec "010" c) as [<-|]; [|easy].
  destruct r as [|d r']; [easy|]. cbn -[ascii_dec].
  destruct (ascii_dec "010" d) as [<-|]; [|easy].
  intros _. now exists r'.
Qed.

Lemma prefix_blank_app (s1 s2 : string) :
  String.prefix blank s1 = true -> String.prefix blank (s1 ++ s2) = true.
Proof.
  destruct s1 as [|c r]; [discriminate|]. intro H.
  destruct (prefix_blank_inv c r H) as (r' & -> & ->).
  unfold blank, nl. cbn [append]. rewrite !prefix_cons. cbn.
  now destruct (r' ++ s2).
Qed.

(** A separator found in [s1 ++ s2] at the head of a longer [s1] is in [s1]. *)
Lemma prefix_blank_app_inv (c d : ascii) (r s2 : string) :
  String.prefix blank (String c (String d r) ++ s2)
  = String.prefix blank (String c (String d r)).
Proof.
  unfold blank, nl. cbn [append]. rewrite !prefix_cons.
  destruct (Ascii.eqb "010" c); [|reflexivity].
  destruct (Ascii.eqb "010" d); [|reflexivity].
  destruct r; [destruct s2|]; reflexivity.
Qed.

Lemma concat_cons_head (sep : string) (c : ascii) (l : list string) :
  l <> [] -> String.concat sep (cons_head c l) = String c (String.concat sep l).
Proof.
  destruct l as [|p [|q ps]]; [congruence | reflexivity | reflexivity].
Qed.

(** Joining the pieces with the separator gives the string back (past the
    characters still to be skipped). *)
Lemma join_split_blank (s : string) :
  forall k, (k <= String.length s)%nat ->
            String.concat blank (split_from blank k s) = slice_from k s.
Proof.
  induction s as [|c r IH]; intros k Hk.
  - destruct k; [reflexivity | cbn in Hk; lia].
  - destruct k as [|k].
    + rewrite split_blank_cons.
      destruct (String.prefix blank (String c r)) eqn:Ep.
      * destruct (prefix_blank_inv c r Ep) as (r' & -> & ->).
        pose proof (IH 1%nat ltac:(cbn; lia)) as H1.
        pose proof (split_from_nonempty blank (String "010" r') 1) as Hne.
        cbn [String.concat].
        destruct (split_from blank 1 (String "010" r')) as [|p ps] eqn:E;
          [congruence|].
        rewrite H1. reflexivity.
      * rewrite concat_cons_head by apply split_from_nonempty.
        rewrite (IH 0%nat ltac:(lia)). reflexivity.
    + cbn [split_from slice_from]. apply IH. cbn in Hk. lia.
Qed.

Lemma split_blank_single (s p : string) :
  split_from blank 0 s = [p] -> p = s.
Proof.
  intro H. pose proof (join_split_blank s 0 ltac:(lia)) as J.
  rewrite H in J. exact J.
Qed.

Lemma removelast_cons {A : Type} (a : A) (l : list A) :
  l <> [] -> removelast (a :: l) = a :: removelast l.
Proof. destruct l; [congruence | reflexivity]. Qed.

Lemma last_cons_nonempty {A : Type} (a d : A) (l : list A) :
  l <> [] -> last (a :: l) d = last l d.
Proof. destruct l; [congruence | reflexivity]. Qed.

(** Splitting a string given in two parts: the complete pieces of the first
    part, then the split of what was left of it followed by the second. *)
Lemma split_blank_app (s1 s2 : string) :
  forall k, (k <= String.length s1)%nat ->
    split_from blank k (s1 ++ s2)
    = (removelast (split_from blank k s1)
       ++ split_from blank 0 (last (split_from blank k s1) "" ++ s2))%list.
Proof.
  induction s1 as [|c r IH]; intros k Hk.
  - destruct k; [reflexivity | cbn in Hk; lia].
  - destruct k as [|k].
    2:{ cbn [append split_from]. apply IH. cbn in Hk. lia. }
    destruct r as [|d r].
    + (* the first part is one character *)
      assert (E : split_from blank 0 (String c "") = [String c ""]).
      { rewrite split_blank_cons. unfold blank, nl. cbn [append].
        rewrite prefix_cons. now destruct (Ascii.eqb "010" c). }
      rewrite E. reflexivity.
    + change (String c (String d r) ++ s2) with (String c (String d r ++ s2)).
      rewrite (split_blank_cons c (String d r ++ s2)),
        (split_blank_cons c (String d r)).
      change (String c (String d r ++ s2)) with (String c (String d r) ++ s2).
      rewrite prefix_blank_app_inv.
      destruct (String.prefix blank (String c (String d r))) eqn:Ep.
      * pose proof (IH 1%nat ltac:(cbn; lia)) as H1.
        pose proof (split_from_nonempty blank (String d r) 1) as Hne.
        rewrite H1, removelast_cons, last_cons_nonempty by exact Hne.
        reflexivity.
      * pose proof (IH 0%nat ltac:(lia)) as H0.
        pose proof (split_from_nonempty blank (String d r) 0) as Hne.
        destruct (split_from blank 0 (String d r)) as [|p [|q ps]] eqn:E;
          [congruence| |].
        -- (* nothing complete yet *)
           apply split_blank_single in E. subst p.
           cbn [cons_head removelast last app].
           change (String c (String d r) ++ s2) with (String c (String d r ++ s2)).
           rewrite (split_blank_cons c (String d r ++ s2)).
           change (String c (String d r ++ s2)) with (String c (String d r) ++ s2).
           rewrite prefix_blank_app_inv, Ep. reflexivity.
        -- rewrite H0. cbn [cons_head].
           rewrite !removelast_cons by discriminate.
           rewrite !last_cons_nonempty by discriminate.
           reflexivity.
Qed.

Lemma string_app_assoc (a b c : string) : (a ++ b) ++ c = a ++ b ++ c.
Proof. induction a as [|x a IH]; [reflexivity|]. cbn. now rewrite IH. Qed.

Lemma string_app_nil_r (a : string) : a ++ "" = a.
Proof. induction a as [|x a IH]; [reflexivity|]. cbn. now rewrite IH. Qed.

Lemma last_default_irrelevant {A : Type} (l : list A) (d d' : A) :
  l <> [] -> last l d = last l d'.
Proof.
  induction l as [|a l IH]; [congruence|]. intros _.
  destruct l as [|b l]; [reflexivity|].
  change (last (a :: b :: l) d) with (last (b :: l) d).
  change (last (a :: b :: l) d') with (last (b :: l) d').
  apply IH. discriminate.
Qed.

(** What is sent for a request does not depend on how the transport cut the
    body: the backend with its chunks joined into one. *)
Definition rechunk (b : Backend) : Backend :=
  match b with
  | Response st chunks fin => Response st [String.concat "" chunks] fin
  | RequestError _ => b
  end.

Section ChunkFacts.

Variable JSON_parse : string -> option json.
Variable JSON_stringify : json -> string.

(** Two chunks in a row leave the decoder where their concatenation does. *)
Lemma sse_chunk_app {S : Type} (cb : StreamCallbacks S) (st : string * S)
  (c1 c2 : string) :
  sse_chunk JSON_parse cb (sse_chunk JSON_parse cb st c1) c2
  = sse_chunk JSON_parse cb st (c1 ++ c2).
Proof.
  unfold sse_chunk, str_split. cbn [fst snd]. fold blank.
  rewrite <- string_app_assoc.
  rewrite (split_blank_app (fst st ++ c1) c2 0 ltac:(lia)).
  set (P := split_from blank 0 (fst st ++ c1)).
  set (Q := split_from blank 0 (last P "" ++ c2)).
  assert (HQ : Q <> []) by apply split_from_nonempty.
  rewrite removelast_app, fold_left_app by exact HQ.
  rewrite last_app_default.
  now rewrite (last_default_irrelevant Q (last (removelast P) "") "" HQ).
Qed.

Lemma sse_chunks_joined {S : Type} (cb : StreamCallbacks S) (chunks : list string) :
  forall st, chunks <> [] ->
    fold_left (sse_chunk JSON_parse cb) chunks st
    = sse_chunk JSON_parse cb st (String.concat "" chunks).
Proof.
  induction chunks as [|c cs IH]; intros st Hne; [congruence|].
  destruct cs as [|c' cs]; [reflexivity|].
  cbn [fold_left] in *. rewrite IH by discriminate.
  rewrite sse_chunk_app. reflexivity.
Qed.

Lemma sse_no_chunk {S : Type} (cb : StreamCallbacks S) (s : S) :
  sse_chunk JSON_parse cb ("", s) "" = ("", s).
Proof. reflexivity. Qed.

Lemma streamFromOpenClaw_rechunk {S : Type} (cb : StreamCallbacks S)
  (b : Backend) (s : S) :
  streamFromOpenClaw JSON_parse cb (rechunk b) s
  = streamFromOpenClaw JSON_parse cb b s.
Proof.
  destruct b as [m | st chunks fin]; [reflexivity|].
  cbn [rechunk streamFromOpenClaw].
  destruct (is_http_error st); [reflexivity|].
  cbn [fold_left].
  destruct chunks as [|c cs].
  - cbn [String.concat fold_left]. now rewrite sse_no_chunk.
  - now rewrite (sse_chunks_joined cb (c :: cs)) by discriminate.
Qed.

(** X1.  The messages the relay sends for a request, and whether its
    promise settles, depend on the bytes of the gateway's response only, not
    on where the transport cut them into chunks. *)
Theorem relay_ignores_chunking (requestId : string) (body : option json)
  (cfg : OpenClawClientConfig) (gateway : json -> bool -> Backend) :
  handleIncomingRequest JSON_parse JSON_stringify requestId body cfg
    (fun sentBody accept => rechunk (gateway sentBody accept))
  = handleIncomingRequest JSON_parse JSON_stringify requestId body cfg gateway.
Proof.
  unfold handleIncomingRequest.
  destruct (is_true (assoc "stream" (forward_body body cfg))).
  - now rewrite streamFromOpenClaw_rechunk.
  - destruct (gateway _ false) as [m | st chunks [|m]]; reflexivity.
Qed.

(** The decoder only looks at the blocks that are closed by an empty line:
    the events are those of the pieces of the whole body but the last. *)
Lemma decoded_joined (chunks : list string) :
  decoded JSON_parse chunks
  = fold_left (fun evs part => sse_part JSON_parse recorder part evs)
      (removelast (str_split blank (String.concat "" chunks))) [].
Proof.
  unfold decoded. destruct chunks as [|c cs]; [reflexivity|].
  now rewrite (sse_chunks_joined recorder (c :: cs)) by discriminate.
Qed.

(** X2.  A streamed body in which no empty line occurs is never decoded,
    however complete its [data:] line is: the relay forwards no event and
    ends the request with [stream_end] and zero usage. *)
Theorem unterminated_event_is_dropped (requestId : string) (body : option json)
  (cfg : OpenClawClientConfig) (gateway : json -> bool -> Backend)
  (st : option Z) (chunks : list string) :
  snd (relay_call body cfg) = true ->
  gateway (fst (relay_call body cfg)) true = Response st chunks ResEnd ->
  is_http_error st = false ->
  str_split blank (String.concat "" chunks) = [String.concat "" chunks] ->
  handleIncomingRequest JSON_parse JSON_stringify requestId body cfg gateway
  = ([stream_end_msg requestId zero_usage], true).
Proof.
  intros Hs Hg Hst Hsplit.
  pose proof (handleIncomingRequest_trace JSON_parse JSON_stringify
                requestId body cfg gateway) as Htr.
  destruct (relay_call body cfg) as [sentBody streaming]. cbn [fst snd] in *.
  subst streaming. rewrite Hg in Htr. rewrite Htr.
  cbn [terminal_of forwarded_events]. rewrite Hst.
  rewrite decoded_joined, Hsplit. reflexivity.
Qed.

End ChunkFacts.

Definition unterminated_body : list string :=
  ["data: " ++ JSON_stringify_text (completed_event 3 4); nl].

Lemma unterminated_event_is_dropped_witness :
  relay_sample streaming_request (Response (Some 200%Z) unterminated_body ResEnd)
  = ([stream_end_msg "req-1" zero_usage], true).
Proof.
  apply (unterminated_event_is_dropped JSON_parse_text JSON_stringify_text
           "req-1" streaming_request (openClawConfig sample_config)
           (fun _ _ => Response (Some 200%Z) unterminated_body ResEnd)
           (Some 200%Z) unterminated_body); reflexivity.
Defined.

(* ------------------------------------------------------------------------ *)
(** ** The body the relay sends to the gateway                                *)
(* ------------------------------------------------------------------------ *)

Lemma assoc_set_field_same (k : string) (v : json) (fields : list (string * json)) :
  assoc k (set_field k v fields) = Some v.
Proof.
  induction fields as [|[k' v'] rest IH]; cbn.
  - now rewrite String.eqb_refl.
  - destruct (String.eqb k k') eqn:E; cbn.
    + now rewrite String.eqb_refl.
    + now rewrite E.
Qed.

Lemma assoc_set_field_other (k k0 : string) (v : json) (fields : list (string * json)) :
  k0 <> k -> assoc k0 (set_field k v fields) = assoc k0 fields.
Proof.
  intro Hne. induction fields as [|[k' v'] rest IH]; cbn.
  - apply String.eqb_neq in Hne. now rewrite Hne.
  - destruct (String.eqb k k') eqn:E; cbn.
    + apply String.eqb_eq in E. subst k'.
      apply String.eqb_neq in Hne. now rewrite Hne.
    + destruct (String.eqb k0 k'); [reflexivity | exact IH].
Qed.

(** The model the gateway is to use when the request names none. *)
Definition fallback_model (cfg : OpenClawClientConfig) : json :=
  JStr (match defaultModel cfg with Some m => m | None => "kimi-coding/k2p5" end).

Lemma forward_body_own_model (body : option json) (cfg : OpenClawClientConfig)
  (m : json) :
  assoc "model" (spread body) = Some m -> truthy m = true -> m <> JStr "default" ->
  assoc "model" (forward_body body cfg) = Some m.
Proof.
  intros Em Ht Hd. unfold forward_body. rewrite Em, Ht. cbn [negb orb].
  assert (E : is_str "default" (Some m) = false).
  { destruct m as [| | |t| |]; try reflexivity. cbn [is_str].
    apply String.eqb_neq. intros ->. now contradiction Hd. }
  rewrite E. cbn [orb]. exact Em.
Qed.

Lemma forward_body_fallback (body : option json) (cfg : OpenClawClientConfig) :
  assoc "model" (spread body) = Some (JStr "default")
  \/ (exists m, assoc "model" (spread body) = Some m /\ truthy m = false)
  \/ assoc "model" (spread body) = None ->
  assoc "model" (forward_body body cfg) = Some (fallback_model cfg).
Proof.
  unfold forward_body, fallback_model.
  intros [E | [(m & E & Ht) | E]]; rewrite E.
  - cbn [is_str]. rewrite String.eqb_refl. cbn [orb].
    apply assoc_set_field_same.
  - rewrite Ht. cbn [negb]. rewrite orb_true_r. apply assoc_set_field_same.
  - rewrite orb_true_r. apply assoc_set_field_same.
Qed.

(** X3.  The body the gateway receives is an object that always carries an
    explicit boolean [stream], true exactly on the streaming call, and a
    [model]: the request's own whenever that is truthy and not ["default"],
    and the configured fallback when the request's model is ["default"],
    falsy or missing.  Every other key of the request is passed on with its
    value. *)
Theorem relay_call_body (body : option json) (cfg : OpenClawClientConfig) :
  exists fields,
    fst (relay_call body cfg) = JObj fields
    /\ assoc "stream" fields = Some (JBool (snd (relay_call body cfg)))
    /\ (forall m, assoc "model" (spread body) = Some m -> truthy m = true ->
                  m <> JStr "default" -> assoc "model" fields = Some m)
    /\ (assoc "model" (spread body) = Some (JStr "default")
        \/ (exists m, assoc "model" (spread body) = Some m /\ truthy m = false)
        \/ assoc "model" (spread body) = None ->
        assoc "model" fields = Some (fallback_model cfg))
    /\ (forall k, k <> "model" -> k <> "stream" ->
                  assoc k fields = assoc k (spread body)).
Proof.
  unfold relay_call.
  set (fb := forward_body body cfg).
  assert (Hother : forall k, k <> "model" -> assoc k fb = assoc k (spread body)).
  { intros k Hk. subst fb. unfold forward_body.
    destruct (_ || _); [now apply assoc_set_field_other | reflexivity]. }
  destruct (is_true (assoc "stream" fb)) eqn:Es.
  - exists fb. cbn [fst snd]. split; [reflexivity|].
    split.
    { unfold is_true in Es.
      destruct (assoc "stream" fb) as [[| [|] | | | |]|]; try discriminate Es.
      reflexivity. }
    split; [intros m; apply forward_body_own_model|].
    split; [apply forward_body_fallback|].
    intros k Hk _. now apply Hother.
  - exists (set_field "stream" (JBool false) fb). cbn [fst snd].
    split; [reflexivity|]. split; [apply assoc_set_field_same|].
    split.
    { intros m Em Ht Hd. rewrite assoc_set_field_other by discriminate.
      now apply forward_body_own_model. }
    split.
    { intro H. rewrite assoc_set_field_other by discriminate.
      now apply forward_body_fallback. }
    intros k Hk Hk'. rewrite assoc_set_field_other by exact Hk'. now apply Hother.
Qed.

Lemma relay_call_body_witness :
  exists fields,
    fst (relay_call streaming_request (openClawConfig sample_config)) = JObj fields
    /\ assoc "model" fields = Some (JStr "m")
    /\ assoc "input" fields = assoc "input" (spread streaming_request).
Proof.
  destruct (relay_call_body streaming_request (openClawConfig sample_config))
    as (fields & E & _ & Hown & _ & H).
  exists fields. split; [exact E|]. split.
  - apply Hown; [reflexivity | reflexivity | discriminate].
  - apply H; discriminate.
Defined.

(* ------------------------------------------------------------------------ *)
(** ** More on the connection client                                          *)
(* ------------------------------------------------------------------------ *)

Lemma nth_error_update_nth_same {A : Type} (i : nat) (v : A) (l : list A) :
  (i < List.length l)%nat -> nth_error (update_nth i v l) i = Some v.
Proof.
  revert i. induction l as [|a l IH]; intros [|i] H; cbn in *; try lia.
  - reflexivity.
  - apply IH. lia.
Qed.

Lemma nth_error_update_nth_other {A : Type} (i j : nat) (v : A) (l : list A) :
  i <> j -> nth_error (update_nth i v l) j = nth_error l j.
Proof.
  revert i j. induction l as [|a l IH]; intros [|i] [|j] H; cbn; try reflexivity.
  - congruence.
  - apply IH. congruence.
Qed.

Lemma nth_error_update_nth_cases {A : Type} (i j : nat) (v : A) (l : list A) :
  nth_error (update_nth i v l) j = nth_error l j
  \/ (i = j /\ nth_error (update_nth i v l) j = Some v).
Proof.
  destruct (Nat.eq_dec i j) as [->|Hne].
  - destruct (Nat.lt_ge_cases j (List.length l)) as [Hlt|Hge].
    + right. split; [reflexivity | now apply nth_error_update_nth_same].
    + left. rewrite (proj2 (nth_error_None l j) Hge).
      apply nth_error_None. now rewrite update_nth_length.
  - left. now apply nth_error_update_nth_other.
Qed.

Lemma nth_error_update_nth_at {A : Type} (i : nat) (v w : A) (l : list A) :
  nth_error (update_nth i v l) i = Some w -> w = v.
Proof.
  revert i. induction l as [|a l IH]; intros [|i] H; cbn in H; try discriminate.
  - congruence.
  - now apply IH in H.
Qed.

Lemma socket_close_fields (k : nat) (code : Z) (reason : string) (c : PluginClient) :
  let c' := socket_close k code reason c in
  ws c' = ws c /\ status c' = status c /\ closed c' = closed c
  /\ reconnectTimer c' = reconnectTimer c /\ timers c' = timers c
  /\ reconnectAttempt c' = reconnectAttempt c /\ pluginId c' = pluginId c
  /\ config c' = config c /\ requestCount c' = requestCount c
  /\ effects c' = (effects c ++ [SocketClose k code reason])%list
  /\ (forall j, j <> k -> nth_error (sockets c') j = nth_error (sockets c) j)
  /\ (forall rs, nth_error (sockets c') k = Some rs -> rs = CLOSING \/ rs = CLOSED).
Proof.
  unfold socket_close. cbn.
  destruct (nth_error (sockets c) k) as [[| | |]|] eqn:E; cbn;
    repeat split; try reflexivity;
    try (intros j Hj; now rewrite nth_error_update_nth_other by congruence);
    try (intros rs Hrs; apply nth_error_update_nth_at in Hrs; now left);
    intros rs Hrs; rewrite E in Hrs;
    first [discriminate Hrs | injection Hrs as <-; tauto].
Qed.

Lemma stop_state (c : PluginClient) :
  let c1 := stop c in
  status c1 = disconnected /\ ws c1 = None /\ reconnectTimer c1 = None
  /\ closed c1 = true
  /\ (forall t, reconnectTimer c = Some t -> nth_error (timers c1) t <> Some true)
  /\ (forall k, ws c = Some k ->
        In (SocketClose k 1000 "plugin stopping") (effects c1)).
Proof.
  unfold stop.
  set (c0 := set_closed true c).
  set (c1 := match reconnectTimer c0 with
             | Some t => _
             | None => c0
             end).
  assert (H1 : ws c1 = ws c /\ reconnectTimer c1 = None /\ closed c1 = true
               /\ (forall t, reconnectTimer c = Some t ->
                             nth_error (timers c1) t <> Some true)).
  { subst c1 c0. cbn. destruct (reconnectTimer c) as [t|] eqn:Et; cbn.
    - split; [reflexivity|]. split; [reflexivity|]. split; [reflexivity|].
      intros t' Ht' H. injection Ht' as <-.
      apply nth_error_update_nth_at in H. discriminate.
    - split; [reflexivity|]. split; [exact Et|]. split; [reflexivity|].
      intros t' Ht'. discriminate. }
  destruct H1 as (Hws & Hrt & Hcl & Htm).
  destruct (ws c1) as [k|] eqn:Ek; cbn.
  - destruct (socket_close_fields k 1000 "plugin stopping" c1)
      as (_ & _ & A3 & A4 & A5 & _ & _ & _ & _ & A10 & _).
    rewrite A3, A4, A5, A10.
    repeat split; try assumption.
    intros k' Hk'. rewrite <- Hws in Hk'. injection Hk' as <-.
    rewrite !in_app_iff. cbn. tauto.
  - repeat split; try assumption.
    intros k' Hk'. rewrite <- Hws in Hk'. discriminate.
Qed.

Section StopFacts.

Variable JSON_parse : string -> option json.

(** X4.  [stop()] leaves the client disconnected with no socket and no
    timer: the socket it held has been asked to close with code 1000 and a
    pending reconnect timer is cancelled.  From then on, until [start()] is
    called, whatever the sockets and timers still deliver, no socket is
    created, no timer is set and the status never becomes connecting or
    reconnecting. *)
Theorem stop_is_final (c : PluginClient) (evs : list Event) :
  forallb not_start evs = true ->
  let c1 := stop c in
  let c2 := run JSON_parse c1 evs in
  status c1 = disconnected /\ ws c1 = None /\ reconnectTimer c1 = None
  /\ (forall t, reconnectTimer c = Some t -> nth_error (timers c1) t <> Some true)
  /\ (forall k, ws c = Some k ->
        In (SocketClose k 1000 "plugin stopping") (effects c1))
  /\ closed c2 = true
  /\ List.length (sockets c2) = List.length (sockets c1)
  /\ List.length (timers c2) = List.length (timers c1)
  /\ (exists es, effects c2 = (effects c1 ++ es)%list
                 /\ no_reconnect_effects es = true)
  /\ status c2 <> connecting /\ status c2 <> reconnecting
  /\ (forallb (quiet JSON_parse) evs = true -> status c2 = disconnected).
Proof.
  intros Hns c1 c2.
  destruct (stop_state c) as (Hst & Hws & Hrt & Hcl & Htm & Hsc).
  fold c1 in Hst, Hws, Hrt, Hcl, Htm, Hsc.
  destruct (run_when_closed JSON_parse evs c1 Hcl Hns) as ((A & B & C & D) & G2 & G3).
  fold c2 in A, B, C, D, G2, G3.
  assert (Hnr : not_reconnecting (status c2) = true)
    by (apply G2; now rewrite Hst).
  repeat split; try assumption; try congruence.
  - intro H. now rewrite H in Hnr.
  - intro H. now rewrite H in Hnr.
  - intro Hq. now apply G3.
Qed.

End StopFacts.

Lemma stop_is_final_witness :
  let c := step JSON_parse_text connected_client (SocketClosed 0 1006 0) in
  reconnectTimer c = Some 0%nat
  /\ status (run JSON_parse_text (stop c) [TimerFired 0; SocketError 0 "x"])
     = disconnected.
Proof.
  split; [reflexivity|].
  apply (stop_is_final JSON_parse_text
           (step JSON_parse_text connected_client (SocketClosed 0 1006 0))
           [TimerFired 0; SocketError 0 "x"]); reflexivity.
Defined.

Lemma nth_error_snoc {A : Type} (l : list A) (a : A) :
  nth_error (l ++ [a]) (List.length l) = Some a.
Proof. rewrite nth_error_app2 by lia. now rewrite Nat.sub_diag. Qed.

Lemma connect_fields (c : PluginClient) :
  closed c = false ->
  let c' := connect c in
  status c' = connecting
  /\ ws c' = Some (List.length (sockets c))
  /\ sockets c' = (sockets c ++ [CONNECTING])%list
  /\ effects c' =
       (effects c ++ [StatusChange connecting (pluginId c) (requestCount c);
                      SocketCreated (List.length (sockets c)) (serverUrl (config c))])%list
  /\ config c' = config c /\ pluginId c' = pluginId c
  /\ requestCount c' = requestCount c /\ closed c' = false
  /\ timers c' = timers c /\ reconnectAttempt c' = reconnectAttempt c.
Proof.
  intro Hc. unfold connect. rewrite Hc. cbn. rewrite <- app_assoc.
  repeat split. exact Hc.
Qed.

Lemma on_open_fields (c : PluginClient) (n : nat) :
  ws c = Some n -> nth_error (sockets c) n = Some OPEN ->
  let c' := on_open c in
  status c' = authenticating
  /\ ws c' = Some n
  /\ sockets c' = sockets c
  /\ effects c' =
       (effects c ++ [StatusChange authenticating (pluginId c) (requestCount c);
                      SocketSend n (auth_message (config c))])%list
  /\ config c' = config c /\ closed c' = closed c.
Proof.
  intros Hws Hn. unfold on_open, sendMessage. cbn. rewrite Hws, Hn. cbn.
  rewrite <- app_assoc. repeat split; assumption.
Qed.

Section ReconnectFacts.

Variable JSON_parse : string -> option json.

(** The events of one reconnection: the socket closes, the timer set by the
    close fires, the socket created by the timer opens. *)
Definition reconnect_cycle (c : PluginClient) (k : nat) (code : Z) (rnd : Q)
  : list Event :=
  [SocketClosed k code rnd; TimerFired (List.length (timers c));
   SocketOpen (List.length (sockets c))].

(** One round of reconnection: the close, the timer, the new socket's
    ['open']. *)
Lemma reconnect_cycle_run (c : PluginClient) (k : nat) (code : Z)
  (rnd : Q) :
  closed c = false ->
  not_yet_closed k c ->
  let n := List.length (sockets c) in
  let c' := run JSON_parse c (reconnect_cycle c k code rnd) in
  status c' = authenticating
  /\ ws c' = Some n
  /\ nth_error (sockets c') n = Some OPEN
  /\ List.length (sockets c') = S n
  /\ config c' = config c
  /\ effects c' =
       (effects c ++
        [StatusChange reconnecting (pluginId c) (requestCount c);
         TimerSet (List.length (timers c))
           (computeBackoff (policy c) (attempt_after_close code c) rnd);
         StatusChange connecting (pluginId c) (requestCount c);
         SocketCreated n (serverUrl (config c));
         StatusChange authenticating (pluginId c) (requestCount c);
         SocketSend n (auth_message (config c))])%list.
Proof.
  intros Hc Hk n c'. subst c'. unfold reconnect_cycle, run.
  cbn [fold_left]. rewrite (step_close JSON_parse k code rnd c Hk).
  pose (c0 := set_sockets (update_nth k CLOSED (sockets c)) c).
  assert (Hc0 : closed c0 = false) by exact Hc.
  destruct (on_close_reconnects code rnd c0 Hc0)
    as (A1 & A2 & A3 & A4 & A5 & A6 & A7 & A8).
  assert (B : config (on_close code rnd c0) = config c
              /\ pluginId (on_close code rnd c0) = pluginId c
              /\ requestCount (on_close code rnd c0) = requestCount c).
  { unfold on_close, scheduleReconnect.
    destruct (code =? 1012)%Z; cbn; rewrite Hc; cbn; repeat split. }
  destruct B as (B1 & B2 & B3).
  cbn in A3, A4, A7, A8. fold c0.
  remember (on_close code rnd c0) as c1 eqn:E1. clear E1.
  (* the timer fires *)
  cbn [step]. rewrite A4, nth_error_snoc.
  remember (set_timers (update_nth (List.length (timers c)) false
                          (timers c ++ [true])) c1) as c2 eqn:E2.
  assert (C : closed c2 = false /\ sockets c2 = update_nth k CLOSED (sockets c)
              /\ effects c2 = effects c1 /\ config c2 = config c
              /\ pluginId c2 = pluginId c /\ requestCount c2 = requestCount c).
  { subst c2. cbn. repeat split; assumption. }
  clear E2. destruct C as (C1 & C2 & C3 & C4 & C5 & C6).
  destruct (connect_fields c2 C1)
    as (D1 & D2 & D3 & D4 & D5 & D6 & D7 & D8 & D9 & D10).
  assert (Hn : List.length (sockets c2) = n)
    by (rewrite C2; apply update_nth_length).
  rewrite Hn in D2, D4.
  remember (connect c2) as c3 eqn:E3. clear E3.
  (* the new socket opens *)
  cbn [step]. fold n. rewrite D3, <- Hn, nth_error_snoc, Hn.
  remember (set_sockets (update_nth n OPEN (sockets c2 ++ [CONNECTING])) c3)
    as c4 eqn:E4.
  assert (Hopen : nth_error (sockets c4) n = Some OPEN).
  { subst c4. cbn. apply nth_error_update_nth_same.
    rewrite length_app, Hn. cbn. lia. }
  assert (F : ws c4 = Some n /\ effects c4 = effects c3 /\ config c4 = config c3
              /\ pluginId c4 = pluginId c3 /\ requestCount c4 = requestCount c3
              /\ List.length (sockets c4) = S n).
  { subst c4. cbn. repeat split; try assumption.
    rewrite update_nth_length, length_app, Hn. cbn. lia. }
  clear E4. destruct F as (F1 & F2 & F3 & F4 & F5 & F6).
  destruct (on_open_fields c4 n F1 Hopen) as (G1 & G2 & G3 & G4 & G5 & _).
  rewrite G3.
  repeat split; try assumption.
  - congruence.
  - rewrite G4, F2, F3, F4, F5, D4, D5, D6, D7, C3, C4, C5, C6, A8.
    now rewrite <- !app_assoc.
Qed.

(** X5.  After the close of a socket of a client that is not shut down, the
    timer's firing creates exactly one new socket to the configured URL, and
    when that socket opens the client is authenticating and has written on it
    one [auth] message built from its current configuration; the status went
    through reconnecting and connecting on the way. *)
Theorem reconnection_sends_fresh_auth (c : PluginClient) (k : nat) (code : Z)
  (rnd : Q) :
  closed c = false ->
  not_yet_closed k c ->
  let n := List.length (sockets c) in
  let c' := run JSON_parse c (reconnect_cycle c k code rnd) in
  status c' = authenticating
  /\ ws c' = Some n
  /\ nth_error (sockets c') n = Some OPEN
  /\ List.length (sockets c') = S n
  /\ config c' = config c
  /\ effects c' =
       (effects c ++
        [StatusChange reconnecting (pluginId c) (requestCount c);
         TimerSet (List.length (timers c))
           (computeBackoff (policy c) (attempt_after_close code c) rnd);
         StatusChange connecting (pluginId c) (requestCount c);
         SocketCreated n (serverUrl (config c));
         StatusChange authenticating (pluginId c) (requestCount c);
         SocketSend n (auth_message (config c))])%list.
Proof. exact (reconnect_cycle_run c k code rnd). Qed.

(** The connection as it was: status, socket, ready states, timers,
    attempt counter. *)
Definition same_connection (c c1 : PluginClient) : Prop :=
  status c1 = status c /\ ws c1 = ws c /\ sockets c1 = sockets c
  /\ timers c1 = timers c /\ reconnectTimer c1 = reconnectTimer c
  /\ reconnectAttempt c1 = reconnectAttempt c /\ closed c1 = closed c.

Lemma hot_swap (c c1 : PluginClient) (k : nat) (code : Z) (rnd : Q) :
  same_connection c c1 -> closed c = false -> not_yet_closed k c ->
  exists es,
    effects (run JSON_parse c1 (reconnect_cycle c k code rnd))
    = (es ++ [SocketSend (List.length (sockets c)) (auth_message (config c1))])%list.
Proof.
  intros (E2 & E3 & E4 & E5 & E6 & E7 & E9) Hc Hk.
  assert (Hc1 : closed c1 = false) by congruence.
  assert (Hk1 : not_yet_closed k c1) by (unfold not_yet_closed; now rewrite E4).
  pose proof (reconnect_cycle_run c1 k code rnd Hc1 Hk1)
    as (_ & _ & _ & _ & _ & He).
  unfold reconnect_cycle in *. rewrite E4, E5 in He. rewrite He.
  eexists.
  change (?a ++ [?x1; ?x2; ?x3; ?x4; ?x5; ?x6])%list
    with (a ++ ([x1; x2; x3; x4; x5] ++ [x6]))%list.
  rewrite app_assoc. reflexivity.
Qed.

(** X6.  A [jwt_refresh] or [price_update_ack] frame replaces the token or
    the pricing of the configuration, calls the matching callback and does
    nothing else: status, socket, timers and attempt counter are as before
    and no reconnection starts.  The [auth] message of the next reconnection
    carries the new value. *)
Theorem credential_hot_swap (c : PluginClient) (j i o : string) (k : nat)
  (code : Z) (rnd : Q) :
  closed c = false ->
  not_yet_closed k c ->
  let p := {| inputTokenPrice := i; outputTokenPrice := o |} in
  let c1 := dispatch (ServerJwtRefresh j) c in
  let c2 := dispatch (ServerPriceUpdateAck i o) c in
  (same_connection c c1
   /\ effects c1 = (effects c ++ [JwtRefreshed j])%list
   /\ exists es,
        effects (run JSON_parse c1 (reconnect_cycle c k code rnd))
        = (es ++ [SocketSend (List.length (sockets c))
                    (auth_message (with_jwt j (config c)))])%list)
  /\ (same_connection c c2
      /\ effects c2 = (effects c ++ [PriceUpdateAcked p])%list
      /\ exists es,
           effects (run JSON_parse c2 (reconnect_cycle c k code rnd))
           = (es ++ [SocketSend (List.length (sockets c))
                       (auth_message (with_pricing p (config c)))])%list).
Proof.
  intros Hc Hk p c1 c2.
  assert (S1 : same_connection c c1) by (repeat split).
  assert (S2 : same_connection c c2) by (repeat split).
  split; (split; [assumption|]); (split; [reflexivity|]).
  - exact (hot_swap c c1 k code rnd S1 Hc Hk).
  - exact (hot_swap c c2 k code rnd S2 Hc Hk).
Qed.

End ReconnectFacts.

Lemma reconnection_sends_fresh_auth_witness :
  status (run JSON_parse_text connected_client
            (reconnect_cycle connected_client 0 1006 0)) = authenticating.
Proof.
  apply (reconnection_sends_fresh_auth JSON_parse_text connected_client 0 1006 0).
  - reflexivity.
  - exists OPEN. split; [reflexivity | discriminate].
Defined.

Lemma credential_hot_swap_witness :
  same_connection connected_client
    (dispatch (ServerJwtRefresh "new-token") connected_client).
Proof.
  apply (credential_hot_swap JSON_parse_text connected_client "new-token" "1" "2"
           0 1006 0).
  - reflexivity.
  - exists OPEN. split; [reflexivity | discriminate].
Defined.

Section BackoffFacts.

Variable JSON_parse : string -> option json.

(** X7.  Of a client that is not shut down, every close that is not a
    restart close (1012) raises the attempt counter by one and sets the timer
    to the delay of the new attempt; an [auth_ok] stores the plugin id, makes
    the client connected and puts the counter back to 0, so that the close
    after it waits the delay of attempt 1.  Of a client that is shut down
    (by [stop()] or [auth_error]) such a close leaves the counter and the
    timers as they are, sets no timer and makes the status disconnected. *)
Theorem backoff_escalates_and_resets (c : PluginClient) (k : nat) (code : Z)
  (rnd : Q) (pid : string) :
  not_yet_closed k c ->
  code <> 1012%Z ->
  let c' := step JSON_parse c (SocketClosed k code rnd) in
  let c1 := dispatch (ServerAuthOk pid) c in
  let c'' := step JSON_parse c1 (SocketClosed k code rnd) in
  (status c1 = connected /\ pluginId c1 = Some pid /\ reconnectAttempt c1 = 0%Z)
  /\ (closed c = false ->
      reconnectAttempt c' = (reconnectAttempt c + 1)%Z
      /\ last (effects c') (RelayStarted "" None)
         = TimerSet (List.length (timers c))
             (computeBackoff (policy c) (reconnectAttempt c + 1) rnd)
      /\ reconnectAttempt c'' = 1%Z
      /\ last (effects c'') (RelayStarted "" None)
         = TimerSet (List.length (timers c)) (computeBackoff (policy c) 1 rnd))
  /\ (closed c = true ->
      reconnectAttempt c' = reconnectAttempt c
      /\ timers c' = timers c
      /\ reconnectTimer c' = reconnectTimer c
      /\ status c' = disconnected
      /\ effects c'
         = (effects c ++ [StatusChange disconnected (pluginId c) (requestCount c)])%list
      /\ reconnectAttempt c'' = 0%Z
      /\ timers c'' = timers c).
Proof.
  intros Hk Hcode c' c1 c''.
  assert (Ea : forall x, attempt_after_close code x = (reconnectAttempt x + 1)%Z).
  { intro x. unfold attempt_after_close.
    destruct (code =? 1012)%Z eqn:E; [|reflexivity].
    apply Z.eqb_eq in E. contradiction. }
  assert (En : (code =? 1012)%Z = false) by now apply Z.eqb_neq.
  subst c' c''. rewrite (step_close JSON_parse k code rnd c Hk).
  assert (Hk1 : not_yet_closed k c1) by exact Hk.
  rewrite (step_close JSON_parse k code rnd c1 Hk1).
  split; [repeat split|]. split.
  - intro Hc.
    destruct (on_close_reconnects code rnd
                (set_sockets (update_nth k CLOSED (sockets c)) c) Hc)
      as (_ & A2 & _ & _ & _ & _ & _ & A8).
    destruct (on_close_reconnects code rnd
                (set_sockets (update_nth k CLOSED (sockets c1)) c1) Hc)
      as (_ & B2 & _ & _ & _ & _ & _ & B8).
    rewrite Ea in A2, A8, B2, B8.
    rewrite A2, A8, B2, B8.
    rewrite !last_app_default. cbn.
    repeat split.
  - intro Hc.
    destruct (on_close_when_closed code rnd
                (set_sockets (update_nth k CLOSED (sockets c)) c) Hc)
      as (A1 & A2 & A3 & A4 & _ & _ & A7).
    destruct (on_close_when_closed code rnd
                (set_sockets (update_nth k CLOSED (sockets c1)) c1) Hc)
      as (_ & B2 & _ & B4 & _ & _ & _).
    rewrite En in A2, B2.
    rewrite A1, A2, A3, A4, A7, B2, B4.
    repeat split.
Qed.

(** What holds of every client that was created by the constructor and has
    since seen any events at all. *)
Definition client_invariant (c : PluginClient) : Prop :=
  (forall k, ws c = Some k ->
     nth_error (sockets c) k = Some CONNECTING \/ nth_error (sockets c) k = Some OPEN)
  /\ (0 <= reconnectAttempt c)%Z
  /\ (0 <= requestCount c)%Z
  /\ (forall t, reconnectTimer c = Some t -> (t < List.length (timers c))%nat).

Lemma invariant_new (cfg : PluginClientConfig) : client_invariant (new_PluginClient cfg).
Proof. repeat split; cbn; try lia; discriminate. Qed.

Lemma invariant_frame (c c' : PluginClient) :
  ws c' = ws c -> sockets c' = sockets c ->
  reconnectAttempt c' = reconnectAttempt c -> requestCount c' = requestCount c ->
  reconnectTimer c' = reconnectTimer c -> timers c' = timers c ->
  client_invariant c -> client_invariant c'.
Proof.
  intros E1 E2 E3 E4 E5 E6 (I1 & I2 & I3 & I4).
  unfold client_invariant. rewrite E1, E2, E3, E4, E5, E6. auto.
Qed.

Lemma invariant_no_socket (c c' : PluginClient) :
  ws c' = None ->
  (0 <= reconnectAttempt c')%Z -> requestCount c' = requestCount c ->
  (forall t, reconnectTimer c' = Some t -> (t < List.length (timers c'))%nat) ->
  client_invariant c -> client_invariant c'.
Proof.
  intros E1 E3 E4 E5 (I1 & I2 & I3 & I4).
  unfold client_invariant. rewrite E1, E4.
  repeat split; try assumption. discriminate.
Qed.

Lemma sendMessage_frame (msg : json) (c : PluginClient) :
  let c' := sendMessage msg c in
  ws c' = ws c /\ sockets c' = sockets c
  /\ reconnectAttempt c' = reconnectAttempt c /\ requestCount c' = requestCount c
  /\ reconnectTimer c' = reconnectTimer c /\ timers c' = timers c.
Proof.
  unfold sendMessage. destruct (ws c) as [k|] eqn:E.
  - destruct (nth_error (sockets c) k) as [[| | |]|]; cbn; rewrite ?E; repeat split.
  - cbn. rewrite ?E. repeat split.
Qed.

Lemma reconnectAttempt_stop (c : PluginClient) :
  reconnectAttempt (stop c) = reconnectAttempt c.
Proof.
  unfold stop. cbn.
  destruct (reconnectTimer c); cbn; destruct (ws c) as [k|]; cbn; try reflexivity;
    unfold socket_close; cbn;
    destruct (nth_error (sockets c) k) as [[| | |]|]; reflexivity.
Qed.

Lemma ws_on_close (code : Z) (rnd : Q) (c : PluginClient) :
  ws (on_close code rnd c) = None.
Proof.
  unfold on_close, scheduleReconnect.
  destruct (code =? 1012)%Z; cbn; destruct (closed c); reflexivity.
Qed.

Lemma auth_error_frame_fields (m : string) (c : PluginClient) :
  let c' := dispatch (ServerAuthError m) c in
  ws c' = None /\ reconnectAttempt c' = reconnectAttempt c
  /\ requestCount c' = requestCount c /\ reconnectTimer c' = reconnectTimer c
  /\ timers c' = timers c.
Proof.
  cbn. destruct (ws c) as [k|] eqn:E; cbn.
  - destruct (socket_close_fields k 1000 "auth failed" (set_closed true c))
      as (_ & _ & _ & A4 & A5 & A6 & _ & _ & A9 & _).
    rewrite A4, A5, A6, A9. repeat split.
  - rewrite E. repeat split.
Qed.

Lemma invariant_connect (c : PluginClient) :
  client_invariant c -> client_invariant (connect c).
Proof.
  intros (I1 & I2 & I3 & I4). unfold connect.
  destruct (closed c); [repeat split; assumption|].
  repeat split; cbn; try assumption.
  intros k Hk. injection Hk as <-. left. apply nth_error_snoc.
Qed.

Lemma invariant_step (c : PluginClient) (ev : Event) :
  client_invariant c -> client_invariant (step JSON_parse c ev).
Proof.
  intros I. pose proof I as (I1 & I2 & I3 & I4).
  destruct ev as [| |i o|k|k raw|k code rnd|k m|t|msg|]; cbn [step].
  - unfold start. apply invariant_connect. exact I.
  - destruct (stop_state c) as (_ & Hws & Hrt & _).
    apply (invariant_no_socket c); try assumption.
    + now rewrite reconnectAttempt_stop.
    + apply requestCount_stop.
    + rewrite Hrt. discriminate.
  - unfold updatePricing.
    destruct (sendMessage_frame
                (JObj [("type", JStr "price_update"); ("inputTokenPrice", JStr i);
                       ("outputTokenPrice", JStr o)]) c)
      as (E1 & E2 & E3 & E4 & E5 & E6).
    now apply (invariant_frame c).
  - destruct (nth_error (sockets c) k) as [[| | |]|] eqn:Ek; try exact I.
    unfold on_open.
    set (c1 := setStatus authenticating
                 (set_sockets (update_nth k OPEN (sockets c)) c)).
    destruct (sendMessage_frame (auth_message (config c1)) c1)
      as (E1 & E2 & E3 & E4 & E5 & E6).
    apply (invariant_frame c1); try assumption.
    subst c1. repeat split; cbn; try assumption.
    intros k' Hk'. destruct (Nat.eq_dec k k') as [<-|Hne].
    + right. apply nth_error_update_nth_same.
      apply nth_error_Some. congruence.
    + rewrite nth_error_update_nth_other by exact Hne. now apply I1.
  - assert (Hm : client_invariant (handleMessage JSON_parse raw c)).
    { unfold handleMessage.
      destruct (JSON_parse raw) as [j|]; [|exact I].
      destruct (ServerMessageSchema_safeParse j) as [msg|]; [|exact I].
      destruct msg as [id body|ts|pid|m|j'|i o].
      - now apply (invariant_frame c).
      - cbn [dispatch].
        destruct (sendMessage_frame (JObj [("type", JStr "pong"); ("ts", JNum ts)]) c)
          as (E1 & E2 & E3 & E4 & E5 & E6).
        now apply (invariant_frame c).
      - repeat split; cbn; try assumption; lia.
      - destruct (auth_error_frame_fields m c) as (F1 & F2 & F3 & F4 & F5).
        apply (invariant_no_socket c); try assumption.
        + now rewrite F2.
        + now rewrite F4, F5.
      - now apply (invariant_frame c).
      - now apply (invariant_frame c). }
    destruct (nth_error (sockets c) k) as [[| | |]|]; assumption.
  - destruct (nth_error (sockets c) k) as [[| | |]|] eqn:Ek; try exact I;
      match goal with
      | |- client_invariant (on_close code rnd ?c0) =>
          apply (invariant_no_socket c);
          [ apply ws_on_close
          | destruct (closed c0) eqn:Ecl;
            [ destruct (on_close_when_closed code rnd c0 Ecl) as (_ & A2 & _);
              rewrite A2; destruct (code =? 1012)%Z; cbn; (lia || assumption)
            | destruct (on_close_reconnects code rnd c0 Ecl) as (_ & A2 & _);
              rewrite A2; unfold attempt_after_close;
              destruct (code =? 1012)%Z; cbn; lia ]
          | now rewrite requestCount_on_close
          | destruct (closed c0) eqn:Ecl;
            [ destruct (on_close_when_closed code rnd c0 Ecl)
                as (_ & _ & A3 & A4 & _);
              rewrite A3, A4; exact I4
            | destruct (on_close_reconnects code rnd c0 Ecl)
                as (_ & _ & A3 & A4 & _);
              rewrite A3, A4; cbn; intros t' Ht'; injection Ht' as <-;
              rewrite length_app; cbn; lia ]
          | exact I ]
      end.
  - destruct (nth_error (sockets c) k); exact I.
  - destruct (nth_error (timers c) t) as [[|]|]; try exact I.
    apply invariant_connect.
    repeat split; cbn; try assumption.
    intros t' Ht'. rewrite update_nth_length. now apply I4.
  - destruct (sendMessage_frame msg c) as (E1 & E2 & E3 & E4 & E5 & E6).
    now apply (invariant_frame c).
  - repeat split; cbn; try assumption. lia.
Qed.

(** X8.  Whatever has happened since the constructor: the socket the client
    holds, if any, is one it has not closed and whose ['close'] event has
    not been delivered; the attempt counter and the request counter are not
    negative; a reconnect timer it remembers is one it has set.  Hence the
    attempt number every delay is computed from is at least 1. *)
Theorem client_invariant_always (cfg : PluginClientConfig) (evs : list Event) :
  let c := run JSON_parse (new_PluginClient cfg) evs in
  client_invariant c
  /\ forall code, (1 <= attempt_after_close code c)%Z.
Proof.
  assert (H : forall c, client_invariant c ->
                        client_invariant (run JSON_parse c evs)).
  { induction evs as [|ev evs IH]; intros c I; [exact I|].
    change (run JSON_parse c (ev :: evs))
      with (run JSON_parse (step JSON_parse c ev) evs).
    apply IH. now apply invariant_step. }
  intro c. pose proof (H _ (invariant_new cfg)) as I. fold c in I.
  split; [exact I|].
  destruct I as (_ & I2 & _). intros code. unfold attempt_after_close.
  destruct (code =? 1012)%Z; lia.
Qed.

End BackoffFacts.

Lemma backoff_escalates_and_resets_witness :
  reconnectAttempt
    (step JSON_parse_text (set_reconnectAttempt 3 connected_client)
       (SocketClosed 0 1006 0)) = 4%Z
  /\ reconnectAttempt
       (step JSON_parse_text (stop (set_reconnectAttempt 3 connected_client))
          (SocketClosed 0 1000 0)) = 3%Z.
Proof.
  split.
  - apply (backoff_escalates_and_resets JSON_parse_text
             (set_reconnectAttempt 3 connected_client) 0 1006 0 "p").
    + exists OPEN. split; [reflexivity | discriminate].
    + discriminate.
    + reflexivity.
  - apply (backoff_escalates_and_resets JSON_parse_text
             (stop (set_reconnectAttempt 3 connected_client)) 0 1000 0 "p").
    + exists CLOSING. split; [reflexivity | discriminate].
    + discriminate.
    + reflexivity.
Defined.

(* ------------------------------------------------------------------------ *)
(** ** The messages of the plugin against their schema                        *)
(* ------------------------------------------------------------------------ *)

Definition conforms (msg : json) : bool :=
  match PluginMessageSchema_safeParse msg with Some _ => true | None => false end.

Lemma min1_nonempty (s : string) : s <> "" -> z_string_min1 (Some (JStr s)) = Some s.
Proof. intro H. cbn. apply String.eqb_neq in H. now rewrite H. Qed.

Lemma stream_event_conforms (id : string) (event : json) :
  id <> "" -> conforms (stream_event_msg id event) = true.
Proof.
  intro H. unfold conforms, stream_event_msg. cbn.
  apply String.eqb_neq in H. now rewrite H.
Qed.

Lemma response_conforms (id : string) (body : json) :
  id <> "" -> conforms (response_msg id body) = true.
Proof.
  intro H. unfold conforms, response_msg. cbn.
  apply String.eqb_neq in H. now rewrite H.
Qed.

Lemma error_conforms (id message : string) :
  id <> "" -> conforms (error_msg id message) = true.
Proof.
  intro H. unfold conforms, error_msg. cbn.
  apply String.eqb_neq in H. now rewrite H.
Qed.

Definition well_formed_usage (u : json) : bool :=
  match z_usage (Some u) with Some _ => true | None => false end.

Lemma stream_end_conforms (id : string) (u : json) :
  id <> "" -> conforms (stream_end_msg id u) = well_formed_usage u.
Proof.
  intro H. unfold conforms, stream_end_msg, well_formed_usage. cbn -[z_usage].
  apply String.eqb_neq in H. rewrite H. cbn -[z_usage].
  now destruct (z_usage (Some u)).
Qed.

Lemma zero_usage_well_formed : well_formed_usage zero_usage = true.
Proof. reflexivity. Qed.

Lemma last_in {A : Type} (l : list A) (d : A) : l <> [] -> In (last l d) l.
Proof.
  induction l as [|a l IH]; [congruence|]. intros _.
  destruct l as [|b l]; [now left|].
  right. apply IH. discriminate.
Qed.

(** What the server-side schema demands of each message beyond its shape. *)
Definition valid_server (msg : ServerMessage) : bool :=
  match msg with
  | ServerRequest id body =>
      negb (String.eqb id "") && match body with Some _ => true | None => false end
  | ServerPing ts => safe_integer ts
  | ServerAuthOk pluginId => negb (String.eqb pluginId "")
  | ServerAuthError _ => true
  | ServerJwtRefresh j => negb (String.eqb j "")
  | ServerPriceUpdateAck i o => negb (String.eqb i "") && negb (String.eqb o "")
  end.


Lemma min1_inv (x : option json) (s : string) :
  z_string_min1 x = Some s -> String.eqb s "" = false.
Proof.
  destruct x as [[| | |t| |]|]; try discriminate. cbn.
  destruct (String.eqb t "") eqn:E; [discriminate|]. now intros [= <-].
Qed.

Lemma int_inv (x : option json) (q : Q) :
  z_number_int x = Some q -> safe_integer q = true.
Proof.
  destruct x as [[| |r| | |]|]; try discriminate. unfold z_number_int.
  destruct (safe_integer r) eqn:E; [|discriminate].
  now intros [= <-].
Qed.

Ltac invert_parse Hs :=
  repeat (cbn [opt_bind] in Hs;
          match type of Hs with
          | (if ?b then _ else _) = _ => destruct b eqn:?
          | opt_bind ?x _ = _ => destruct x eqn:?; [|discriminate Hs]
          | None = Some _ => discriminate Hs
          end).

Lemma ServerMessageSchema_sound (input : json) (msg : ServerMessage) :
  ServerMessageSchema_safeParse input = Some msg -> valid_server msg = true.
Proof.
  intro Hs. unfold ServerMessageSchema_safeParse in Hs.
  destruct input as [| | | | |fields]; try discriminate Hs.
  destruct (assoc "type" fields) as [[| | |t| |]|]; try discriminate Hs.
  invert_parse Hs; injection Hs as <-; cbn [valid_server];
    repeat match goal with
           | H : z_string_min1 _ = Some _ |- _ => apply min1_inv in H; rewrite H
           | H : z_number_int _ = Some _ |- _ => apply int_inv in H; rewrite H
           end; reflexivity.
Qed.


Section ConformanceFacts.

Variable JSON_parse : string -> option json.
Variable JSON_stringify : json -> string.

(** X9.  Every message the relay sends for a request with a non-empty id
    passes the plugin-side schema of the protocol, with one exception it
    cannot rule out: a [stream_end] whose usage, copied as it came from a
    [response.completed] event of the gateway, is not an object of exactly
    the three non-negative integer counters.  A [stream_end] with the zero
    usage always passes. *)
Theorem relay_messages_conform (requestId : string) (body : option json)
  (cfg : OpenClawClientConfig) (gateway : json -> bool -> Backend) (msg : json) :
  requestId <> "" ->
  In msg (fst (handleIncomingRequest JSON_parse JSON_stringify requestId body
                 cfg gateway)) ->
  conforms msg = true
  \/ exists u, msg = stream_end_msg requestId u /\ well_formed_usage u = false
               /\ In u (completed_usages
                          (forwarded_events JSON_parse
                             (snd (relay_call body cfg))
                             (gateway (fst (relay_call body cfg))
                                      (snd (relay_call body cfg))))).
Proof.
  intros Hid Hin.
  pose proof (handleIncomingRequest_trace JSON_parse JSON_stringify
                requestId body cfg gateway) as Htr.
  destruct (relay_call body cfg) as [sentBody streaming]. cbn [fst snd] in *.
  rewrite Htr in Hin. clear Htr.
  destruct (terminal_of JSON_parse JSON_stringify requestId streaming
              (gateway sentBody streaming)) as [t|] eqn:Et; [|contradiction].
  cbn [fst] in Hin. apply in_app_iff in Hin as [Hin | [<- | []]].
  - left. apply in_map_iff in Hin as (e & <- & _).
    now apply stream_event_conforms.
  - unfold terminal_of in Et.
    destruct streaming.
    + destruct (gateway sentBody true) as [m | st chunks fin].
      * injection Et as <-. left. now apply error_conforms.
      * cbn [forwarded_events].
        destruct (is_http_error st).
        -- destruct fin; [|discriminate Et].
           injection Et as <-. left. now apply error_conforms.
        -- destruct fin.
           ++ injection Et as <-.
              rewrite (stream_end_conforms _ _ Hid).
              destruct (completed_usages (decoded JSON_parse chunks))
                as [|u0 us'] eqn:Eus.
              ** left. exact zero_usage_well_formed.
              ** destruct (well_formed_usage (last (u0 :: us') zero_usage)) eqn:Ew;
                   [now left|].
                 right. exists (last (u0 :: us') zero_usage).
                 split; [reflexivity|]. split; [exact Ew|].
                 apply last_in. discriminate.
           ++ injection Et as <-. left. now apply error_conforms.
    + destruct (forwardToOpenClaw JSON_parse JSON_stringify (gateway sentBody false));
        [| |discriminate Et]; injection Et as <-; left.
      * now apply response_conforms.
      * now apply error_conforms.
Qed.

(** X10.  A valid [ping] frame is answered on the held socket, when that is
    open, by one [pong] with the same [ts], and the [pong] passes the
    plugin-side schema; nothing else changes.  When no open socket is held
    the frame has no effect at all. *)
Theorem ping_answered_by_conforming_pong (c : PluginClient) (raw : string)
  (j : json) (ts : Q) :
  JSON_parse raw = Some j ->
  ServerMessageSchema_safeParse j = Some (ServerPing ts) ->
  let pong := JObj [("type", JStr "pong"); ("ts", JNum ts)] in
  PluginMessageSchema_safeParse pong = Some (PluginPong ts)
  /\ (forall k, ws c = Some k -> nth_error (sockets c) k = Some OPEN ->
        handleMessage JSON_parse raw c = emit (SocketSend k pong) c)
  /\ ((forall k, ws c = Some k -> nth_error (sockets c) k <> Some OPEN) ->
      handleMessage JSON_parse raw c = c).
Proof.
  intros Hj Hs pong.
  assert (Hts : z_number_int (Some (JNum ts)) = Some ts).
  { apply ServerMessageSchema_sound in Hs. cbn [valid_server] in Hs.
    unfold z_number_int. now rewrite Hs. }
  assert (Hm : handleMessage JSON_parse raw c = sendMessage pong c).
  { unfold handleMessage. now rewrite Hj, Hs. }
  split.
  { subst pong. cbn -[z_number_int]. now rewrite Hts. }
  split.
  - intros k Hk Hopen. rewrite Hm. unfold sendMessage. now rewrite Hk, Hopen.
  - intros Hno. rewrite Hm. unfold sendMessage.
    destruct (ws c) as [k|] eqn:Ek; [|reflexivity].
    specialize (Hno k eq_refl).
    destruct (nth_error (sockets c) k) as [[| | |]|]; try reflexivity.
    now contradiction Hno.
Qed.

End ConformanceFacts.

Lemma relay_messages_conform_witness :
  conforms (stream_event_msg "req-1" delta_event) = true
  \/ exists u, stream_event_msg "req-1" delta_event = stream_end_msg "req-1" u
               /\ well_formed_usage u = false
               /\ In u (completed_usages (decoded JSON_parse_text sample_stream)).
Proof.
  apply (relay_messages_conform JSON_parse_text JSON_stringify_text "req-1"
           streaming_request (openClawConfig sample_config)
           (fun _ _ => Response (Some 200%Z) sample_stream ResEnd)
           (stream_event_msg "req-1" delta_event)).
  - discriminate.
  - vm_compute. left. reflexivity.
Defined.

Lemma ping_answered_by_conforming_pong_witness :
  PluginMessageSchema_safeParse (JObj [("type", JStr "pong"); ("ts", JNum 7)])
  = Some (PluginPong 7).
Proof.
  apply (ping_answered_by_conforming_pong JSON_parse_text connected_client
           (frame [("type", JStr "ping"); ("ts", JNum 7)])
           (JObj [("type", JStr "ping"); ("ts", JNum 7)]) 7); reflexivity.
Defined.


(* ------------------------------------------------------------------------ *)
(** ** The frames of a started client                                         *)
(* ------------------------------------------------------------------------ *)

Definition price_update_msg (i o : string) : json :=
  JObj [("type", JStr "price_update");
        ("inputTokenPrice", JStr i);
        ("outputTokenPrice", JStr o)].

(** Where a frame on a socket comes from: it passes the plugin-side schema,
    or the relay handed it over, or it is the [price_update] of an
    [updatePricing] call with an empty price. *)
Definition accounted (seen : list Event) (e : Effect) : Prop :=
  match e with
  | SocketSend _ msg =>
      conforms msg = true
      \/ In (RelaySends msg) seen
      \/ exists i o, In (UpdatePricing i o) seen /\ msg = price_update_msg i o
                     /\ (i = "" \/ o = "")
  | _ => True
  end.

Definition frames_accounted (seen : list Event) (c : PluginClient) : Prop :=
  jwt (config c) <> "" /\ Forall (accounted seen) (effects c).

Lemma accounted_mono (seen more : list Event) (e : Effect) :
  accounted seen e -> accounted (seen ++ more) e.
Proof.
  destruct e; cbn; try tauto.
  intros [H | [H | (i & o & H & R)]].
  - now left.
  - right; left. apply in_app_iff. now left.
  - right; right. exists i, o. split; [|exact R]. apply in_app_iff. now left.
Qed.

Lemma auth_message_conforms (cfg : PluginClientConfig) :
  jwt cfg <> "" -> conforms (auth_message cfg) = true.
Proof.
  intro H. apply String.eqb_neq in H.
  unfold conforms, auth_message, nonempty.
  destruct (pricing cfg) as [p|];
    destruct (agentName cfg) as [n|]; try destruct (String.eqb n "");
    destruct (agentDescription cfg) as [d|]; try destruct (String.eqb d "");
    cbn; rewrite H; reflexivity.
Qed.

Lemma price_update_conforms (i o : string) :
  conforms (price_update_msg i o) = negb (String.eqb i "") && negb (String.eqb o "").
Proof.
  unfold conforms, price_update_msg. cbn.
  destruct (String.eqb i ""); [reflexivity|]. now destruct (String.eqb o "").
Qed.

Lemma pong_conforms (ts : Q) :
  safe_integer ts = true ->
  conforms (JObj [("type", JStr "pong"); ("ts", JNum ts)]) = true.
Proof. intro H. unfold conforms. cbn -[safe_integer]. now rewrite H. Qed.

Section FrameFacts.

Variable JSON_parse : string -> option json.
Variable seen : list Event.

Let good (c : PluginClient) : Prop := frames_accounted seen c.

Lemma good_same (c c' : PluginClient) :
  config c' = config c -> effects c' = effects c -> good c -> good c'.
Proof. unfold good, frames_accounted. now intros -> ->. Qed.

Lemma good_emit (e : Effect) (c : PluginClient) :
  accounted seen e -> good c -> good (emit e c).
Proof.
  intros He [Hj Hf]. split; [exact Hj|]. cbn.
  apply Forall_app. split; [exact Hf|]. now constructor.
Qed.

Lemma good_setStatus (st : ConnectionStatus) (c : PluginClient) :
  good c -> good (setStatus st c).
Proof.
  intro H. unfold setStatus. apply good_emit; [exact I|].
  now apply (good_same c).
Qed.

Lemma good_sendMessage (msg : json) (c : PluginClient) :
  (forall k, accounted seen (SocketSend k msg)) -> good c -> good (sendMessage msg c).
Proof.
  intros Hm H. unfold sendMessage.
  destruct (ws c) as [k|]; [|exact H].
  destruct (nth_error (sockets c) k) as [[| | |]|]; try exact H.
  now apply good_emit.
Qed.

Lemma good_socket_close (k : nat) (code : Z) (reason : string) (c : PluginClient) :
  good c -> good (socket_close k code reason c).
Proof.
  intro H. unfold socket_close.
  assert (G : good (emit (SocketClose k code reason) c)) by now apply good_emit.
  cbn [sockets emit].
  destruct (nth_error (sockets c) k) as [[| | |]|]; try exact G;
    now apply (good_same (emit (SocketClose k code reason) c)).
Qed.

Lemma good_connect (c : PluginClient) : good c -> good (connect c).
Proof.
  intro H. unfold connect. destruct (closed c); [exact H|].
  apply (good_same (emit (SocketCreated (List.length (sockets (setStatus connecting c)))
                            (serverUrl (config (setStatus connecting c))))
                      (setStatus connecting c))); try reflexivity.
  apply good_emit; [exact I|]. now apply good_setStatus.
Qed.

Lemma good_stop (c : PluginClient) : good c -> good (stop c).
Proof.
  intro H. unfold stop. apply good_setStatus.
  set (c1 := set_closed true c).
  assert (G1 : good c1) by now apply (good_same c).
  set (c2 := match reconnectTimer c1 with Some t => _ | None => c1 end).
  assert (G2 : good c2).
  { subst c2. destruct (reconnectTimer c1) as [t|]; [|exact G1].
    apply (good_same (emit (TimerCleared t) c1)); try reflexivity.
    now apply good_emit. }
  destruct (ws c2) as [k|]; [|exact G2].
  apply (good_same (socket_close k 1000 "plugin stopping" c2)); try reflexivity.
  now apply good_socket_close.
Qed.

Lemma good_scheduleReconnect (rnd : Q) (c : PluginClient) :
  good c -> good (scheduleReconnect rnd c).
Proof.
  intro H. unfold scheduleReconnect.
  destruct (closed c); [now apply good_setStatus|].
  set (c1 := set_reconnectAttempt _ (setStatus reconnecting c)).
  assert (G1 : good c1).
  { apply (good_same (setStatus reconnecting c)); try reflexivity.
    now apply good_setStatus. }
  apply (good_same (emit (TimerSet (List.length (timers c1))
                            (computeBackoff (policy c1) (reconnectAttempt c1) rnd))
                      c1)); try reflexivity.
  now apply good_emit.
Qed.

Lemma good_on_close (code : Z) (rnd : Q) (c : PluginClient) :
  good c -> good (on_close code rnd c).
Proof.
  intro H. unfold on_close. apply good_scheduleReconnect.
  destruct (code =? 1012)%Z; now apply (good_same c).
Qed.

Lemma good_dispatch (msg : ServerMessage) (c : PluginClient) :
  valid_server msg = true -> good c -> good (dispatch msg c).
Proof.
  intros Hv H. destruct msg as [id body|ts|p|m|j|i o]; cbn [dispatch].
  - now apply good_emit.
  - apply good_sendMessage; [|exact H]. intro k. left. now apply pong_conforms.
  - apply good_setStatus. now apply (good_same c).
  - apply good_setStatus.
    set (c1 := set_closed true c).
    assert (G1 : good c1) by now apply (good_same c).
    destruct (ws c1) as [k|]; [|exact G1].
    apply (good_same (socket_close k 1000 "auth failed" c1)); try reflexivity.
    now apply good_socket_close.
  - apply good_emit; [exact I|]. destruct H as [_ Hf]. split; [|exact Hf].
    cbn in *. apply String.eqb_neq. now destruct (String.eqb j "").
  - apply good_emit; [exact I|]. destruct H as [Hj Hf]. now split.
Qed.

Lemma good_handleMessage (raw : string) (c : PluginClient) :
  good c -> good (handleMessage JSON_parse raw c).
Proof.
  intro H. unfold handleMessage.
  destruct (JSON_parse raw) as [parsed|]; [|exact H].
  destruct (ServerMessageSchema_safeParse parsed) as [msg|] eqn:E; [|exact H].
  apply good_dispatch; [|exact H]. now apply (ServerMessageSchema_sound parsed).
Qed.

End FrameFacts.

Section OriginFacts.

Variable JSON_parse : string -> option json.
Variable WebSocket_error : string -> option string.

Lemma frames_step (seen : list Event) (c : PluginClient) (ev : Event) :
  frames_accounted seen c ->
  frames_accounted (seen ++ [ev]) (step JSON_parse c ev).
Proof.
  intro H0.
  assert (H : frames_accounted (seen ++ [ev]) c).
  { destruct H0 as [Hj Hf]. split; [exact Hj|].
    eapply Forall_impl; [|exact Hf]. intros e. apply accounted_mono. }
  clear H0. set (now := (seen ++ [ev])%list) in *.
  assert (Hin : In ev now) by (apply in_app_iff; right; now left).
  destruct ev as [| |i o|k|k raw|k code rnd|k m|t|msg|]; cbn [step].
  - unfold start. apply good_connect. now apply (good_same now c).
  - now apply good_stop.
  - unfold updatePricing. apply good_sendMessage; [|exact H].
    intro k. cbn [accounted].
    pose proof (price_update_conforms i o) as Hc. unfold price_update_msg in Hc.
    destruct (String.eqb i "") eqn:Ei.
    { right; right. exists i, o. split; [exact Hin|]. split; [reflexivity|].
      left. now apply String.eqb_eq. }
    destruct (String.eqb o "") eqn:Eo.
    { right; right. exists i, o. split; [exact Hin|]. split; [reflexivity|].
      right. now apply String.eqb_eq. }
    left. exact Hc.
  - destruct (nth_error (sockets c) k) as [[| | |]|]; try exact H.
    unfold on_open.
    set (c1 := setStatus authenticating _).
    assert (G1 : frames_accounted now c1).
    { apply good_setStatus. now apply (good_same now c). }
    apply good_sendMessage; [|exact G1].
    intro k'. left. apply auth_message_conforms. exact (proj1 G1).
  - destruct (nth_error (sockets c) k) as [[| | |]|]; try exact H;
      now apply good_handleMessage.
  - destruct (nth_error (sockets c) k) as [[| | |]|]; try exact H;
      apply good_on_close; now apply (good_same now c).
  - now destruct (nth_error (sockets c) k).
  - destruct (nth_error (timers c) t) as [[|]|]; try exact H.
    apply good_connect. now apply (good_same now c).
  - apply good_sendMessage; [|exact H]. intro k. right; left. exact Hin.
  - unfold on_relay_settled. apply good_emit; [exact I|].
    now apply (good_same now c).
Qed.

Lemma frames_run (evs seen : list Event) (c : PluginClient) :
  frames_accounted seen c ->
  frames_accounted (seen ++ evs) (run JSON_parse c evs).
Proof.
  revert seen c. induction evs as [|ev evs IH]; intros seen c H.
  - now rewrite app_nil_r.
  - change (run JSON_parse c (ev :: evs))
      with (run JSON_parse (step JSON_parse c ev) evs).
    replace (seen ++ ev :: evs)%list with ((seen ++ [ev]) ++ evs)%list
      by now rewrite <- app_assoc.
    apply IH. now apply frames_step.
Qed.

(** X12.  [startPlugin] throws exactly when the server URL or the token is
    empty or the WebSocket constructor refuses the URL.  Of the client it
    returns otherwise, every frame ever put on a socket is accounted for: it
    passes the plugin-side schema of the protocol (every [auth] and every
    [pong] does), or it is a message handed over by the relay, or it is the
    [price_update] of an [updatePricing] call with an empty price. *)
Theorem started_client_frames (cfg : Plugin.PluginConfig) :
  ((exists message, startPlugin WebSocket_error cfg = Throw message)
   <-> Plugin.serverUrl cfg = "" \/ Plugin.jwt cfg = ""
       \/ WebSocket_error (Plugin.serverUrl cfg) <> None)
  /\ forall c0 evs k msg,
       startPlugin WebSocket_error cfg = Ok c0 ->
       In (SocketSend k msg) (effects (run JSON_parse c0 evs)) ->
       conforms msg = true
       \/ In (RelaySends msg) evs
       \/ exists i o, In (UpdatePricing i o) evs /\ msg = price_update_msg i o
                      /\ (i = "" \/ o = "").
Proof.
  unfold startPlugin. split.
  - destruct (String.eqb (Plugin.serverUrl cfg) "") eqn:Eu.
    { apply String.eqb_eq in Eu. split; [now left|]. intros _. now eexists. }
    destruct (String.eqb (Plugin.jwt cfg) "") eqn:Ej.
    { apply String.eqb_eq in Ej. split; [now right; left|]. intros _. now eexists. }
    apply String.eqb_neq in Eu, Ej.
    destruct (WebSocket_error (Plugin.serverUrl cfg)) as [m|].
    { split; [intros _; right; right; discriminate|]. intros _. now eexists. }
    split; [intros [m Hm]; discriminate Hm|].
    intros [H | [H | H]]; [now contradiction Eu | now contradiction Ej |
                            now contradiction H].
  - intros c0 evs k msg Hs Hin.
    destruct (String.eqb (Plugin.serverUrl cfg) ""); [discriminate Hs|].
    destruct (String.eqb (Plugin.jwt cfg) "") eqn:Ej; [discriminate Hs|].
    destruct (WebSocket_error (Plugin.serverUrl cfg)); [discriminate Hs|].
    injection Hs as <-.
    match type of Hin with
    | In _ (effects (run _ (start ?c) _)) => set (c0 := c) in *
    end.
    assert (G0 : frames_accounted [] (start c0)).
    { unfold start. apply good_connect. split.
      - cbn. now apply String.eqb_neq.
      - constructor. }
    pose proof (frames_run evs [] _ G0) as [_ Hf]. cbn [app] in Hf.
    rewrite Forall_forall in Hf. exact (Hf _ Hin).
Qed.

End OriginFacts.

Definition sample_plugin_config : Plugin.PluginConfig := {|
  Plugin.serverUrl := "wss://relay.example/ws";
  Plugin.jwt := "token-1";
  Plugin.openClawUrl := None;
  Plugin.openClawToken := "gw";
  Plugin.openClawTimeoutMs := None;
  Plugin.pricing := None;
  Plugin.agentName := None;
  Plugin.agentDescription := None
|}.

(** A constructor for the examples: it takes the two WebSocket schemes. *)
Definition WebSocket_error_text (url : string) : option string :=
  if String.prefix "ws://" url || String.prefix "wss://" url then None
  else Some ("Invalid URL: " ++ url).

Lemma started_client_frames_witness :
  exists c0, startPlugin WebSocket_error_text sample_plugin_config = Ok c0
  /\ (conforms (auth_message (config c0)) = true
      \/ In (RelaySends (auth_message (config c0))) [SocketOpen 0]
      \/ exists i o, In (UpdatePricing i o) [SocketOpen 0]
                     /\ auth_message (config c0) = price_update_msg i o
                     /\ (i = "" \/ o = "")).
Proof.
  eexists. split; [reflexivity|].
  eapply (proj2 (started_client_frames JSON_parse_text WebSocket_error_text
                   sample_plugin_config)
            _ [SocketOpen 0] 0%nat).
  - reflexivity.
  - vm_compute. right; right; right; left. reflexivity.
Defined.

(* ------------------------------------------------------------------------ *)
(** ** reconnect.ts, for any policy                                           *)
(* ------------------------------------------------------------------------ *)

(** Every number the computation meets is a double: nothing is rounded.
    The factor is an integer, so that its power is the exact one in every
    engine. *)
Definition exact_steps (p : BackoffPolicy) (k : Z) (U : Q) : bool :=
  let e := Z.max (k - 1) 0 in
  let base := initialMs p * factor p ^ e in
  Qeq_bool (factor p) (inject_Z (Qfloor (factor p)))
  && is_double (initialMs p) && is_double (factor p) && is_double (jitter p)
  && is_double (maxMs p) && is_double (factor p ^ e) && is_double base
  && is_double (base * jitter p) && is_double (base * jitter p * U)
  && is_double (base + base * jitter p * U).

Lemma js_pow_exact (f : Q) (e : Z) :
  is_double (f ^ e) = true -> js_pow (Fin (Qred f)) e = Fin (Qred (f ^ e)).
Proof.
  intro H. unfold js_pow. destruct (e =? 0)%Z eqn:E.
  - apply Z.eqb_eq in E. subst e. reflexivity.
  - rewrite <- (double_exact _ H). apply round64_compat.
    now rewrite (Qred_correct f).
Qed.

Lemma js_mul_exact (a b : Q) :
  is_double (a * b) = true -> js_mul (Fin (Qred a)) (Fin (Qred b)) = Fin (Qred (a * b)).
Proof.
  intro H. cbn [js_mul]. rewrite <- (double_exact _ H). apply round64_compat.
  now rewrite !Qred_correct.
Qed.

Lemma computeBackoff_exact (p : BackoffPolicy) (k : Z) (U : Q) :
  exact_steps p k U = true ->
  exists d, computeBackoff p k U = Fin d /\ d == backoff_formula p k U.
Proof.
  unfold exact_steps; cbv zeta.
  set (e := Z.max (k - 1) 0). set (base := initialMs p * factor p ^ e).
  intro H. repeat (apply andb_true_iff in H as [H ?]).
  unfold computeBackoff; cbv zeta. fold e.
  rewrite (double_exact (initialMs p)), (double_exact (factor p)),
    (double_exact (jitter p)), (double_exact (maxMs p)) by assumption.
  rewrite (js_pow_exact (factor p) e) by assumption.
  rewrite (js_mul_exact (initialMs p) (factor p ^ e)) by assumption. fold base.
  rewrite (js_mul_exact base (jitter p)) by assumption.
  assert (Ej : js_mul (Fin (Qred (base * jitter p))) (Fin U)
               = Fin (Qred (base * jitter p * U))).
  { cbn [js_mul]. rewrite <- (double_exact (base * jitter p * U)) by assumption.
    apply round64_compat. now rewrite Qred_correct. }
  rewrite Ej.
  assert (Ea : js_add (Fin (Qred base)) (Fin (Qred (base * jitter p * U)))
               = Fin (Qred (base + base * jitter p * U))).
  { cbn [js_add]. rewrite <- (double_exact (base + base * jitter p * U)) by assumption.
    apply round64_compat. now rewrite !Qred_correct. }
  rewrite Ea. cbn [js_Math_round js_Math_min].
  assert (Er : Math_round (Qred (base + base * jitter p * U))
               = Math_round (initialMs p * factor p ^ e * (1 + jitter p * U))).
  { apply Math_round_compat. rewrite Qred_correct. subst base. ring. }
  rewrite Er. unfold backoff_formula. fold e.
  set (r := inject_Z (Math_round (initialMs p * factor p ^ e * (1 + jitter p * U)))).
  destruct (Qle_bool (Qred (maxMs p)) r) eqn:El.
  - exists (Qred (maxMs p)). split; [reflexivity|].
    apply Qle_bool_iff in El. rewrite Qred_correct in *.
    symmetry. now apply Q.min_l.
  - exists r. split; [reflexivity|].
    assert (Hlt : r <= maxMs p).
    { apply Qlt_le_weak, Qnot_le_lt. intro Hle.
      rewrite <- (Qred_correct (maxMs p)) in Hle.
      apply Qle_bool_iff in Hle. congruence. }
    symmetry. now apply Q.min_r.
Qed.

(** X13.  For any policy: every attempt number up to 1, zero and the negative
    ones included, gives the delay of attempt 1; without jitter the draw
    does not matter; and wherever the factor is an integer and every step
    of the double arithmetic is exact (the numbers of the policy, the power,
    the products and the sum are doubles) the delay is the formula of the
    specification. *)
Theorem computeBackoff_where_exact (p : BackoffPolicy) (k : Z) (U U' : Q) :
  ((k <= 1)%Z -> computeBackoff p k U = computeBackoff p 1 U)
  /\ (jitter p == 0 -> computeBackoff p k U = computeBackoff p k U')
  /\ (exact_steps p k U = true ->
      exists d, computeBackoff p k U = Fin d /\ d == backoff_formula p k U).
Proof.
  split; [apply computeBackoff_low_attempts|].
  split; [apply computeBackoff_no_jitter | apply computeBackoff_exact].
Qed.

Lemma computeBackoff_where_exact_witness :
  exists d, computeBackoff DEFAULT_RECONNECT_POLICY 3 (1 # 2) = Fin d
            /\ d == backoff_formula DEFAULT_RECONNECT_POLICY 3 (1 # 2).
Proof.
  apply (proj2 (proj2 (computeBackoff_where_exact DEFAULT_RECONNECT_POLICY 3
                         (1 # 2) (1 # 2)))).
  vm_compute. reflexivity.
Defined.

(* ------------------------------------------------------------------------ *)
(** ** The consumer client and the proxy's upstream calls                     *)
(* ------------------------------------------------------------------------ *)

Section ConsumerFacts.

Variable JSON_parse : string -> option json.
Variable JSON_stringify : json -> string.
Variable btoa : string -> string.

(** Every call of the payment flow is a POST of the same body to the same
    URL, with the JSON content type and at most the payment header added. *)
Lemma flow_calls (fetch : Fetch) (now_nonce now_deadline : Z)
  (cfg : SixerrClientConfig) (url body : string) (override : option string)
  (call : Request) :
  In call (snd (postWith402Handling JSON_stringify btoa fetch now_nonce
                  now_deadline cfg url body override)) ->
  req_url call = url /\ req_method call = "POST" /\ req_body call = Some body
  /\ (req_headers call = post_headers
      \/ exists x, req_headers call = (post_headers ++ [("X-PAYMENT", x)])%list).
Proof.
  assert (F : forall c, c = first_call url body ->
                req_url c = url /\ req_method c = "POST" /\ req_body c = Some body
                /\ (req_headers c = post_headers
                    \/ exists x, req_headers c
                                 = (post_headers ++ [("X-PAYMENT", x)])%list)).
  { intros c ->. repeat split. now left. }
  unfold postWith402Handling. fold (first_call url body).
  destruct (fetch [] _) as [firstRes|m]; cbn [snd].
  2:{ intros [<- | []]. now apply F. }
  destruct (negb (resp_status firstRes =? 402)%Z); cbn [snd].
  { intros [<- | []]. now apply F. }
  destruct (resp_payment firstRes) as [paymentBody|m]; cbn [snd].
  2:{ intros [<- | []]. now apply F. }
  destruct (match accepts paymentBody with
            | Some l => find _ l
            | None => None
            end) as [requirements|]; cbn [snd].
  2:{ intros [<- | []]. now apply F. }
  destruct (signPermit2Payment _ _ _ _ _ _ _) as [xPayment|m]; cbn [snd].
  2:{ intros [<- | []]. now apply F. }
  intros [<- | [<- | []]]; [now apply F|].
  repeat split. right. now exists xPayment.
Qed.

(** A response the flow returns is the server's answer to the last call. *)
Lemma flow_result (fetch : Fetch) (now_nonce now_deadline : Z)
  (cfg : SixerrClientConfig) (url body : string) (override : option string)
  (res : HttpResponse) :
  fst (postWith402Handling JSON_stringify btoa fetch now_nonce
         now_deadline cfg url body override) = Ok res ->
  exists before call,
    snd (postWith402Handling JSON_stringify btoa fetch now_nonce
           now_deadline cfg url body override) = (before ++ [call])%list
    /\ fetch before call = Ok res.
Proof.
  unfold postWith402Handling. fold (first_call url body).
  destruct (fetch [] _) as [firstRes|m] eqn:E1; cbn [fst snd]; [|discriminate].
  destruct (negb (resp_status firstRes =? 402)%Z); cbn [fst snd].
  { intros [= <-]. now exists [], (first_call url body). }
  destruct (resp_payment firstRes) as [paymentBody|m]; cbn [fst snd]; [|discriminate].
  destruct (match accepts paymentBody with
            | Some l => find _ l
            | None => None
            end) as [requirements|]; cbn [fst snd]; [|discriminate].
  destruct (signPermit2Payment _ _ _ _ _ _ _) as [xPayment|m]; cbn [fst snd];
    [|discriminate].
  intro H. now exists [first_call url body], (retry_call url body xPayment).
Qed.

Lemma respond_body_no_stream (options : RespondOptions) :
  assoc "stream" (respond_body (without_stream options)) = None.
Proof.
  unfold respond_body, without_stream; cbn.
  destruct (opt_input options); cbn;
    destruct (nonempty (opt_routing options)); reflexivity.
Qed.

(** X14.  [respondJson] makes one or two calls, each a POST to the responses
    URL of the configured server whose body is the serialisation of one
    object that has a [model] and no [stream] key, whatever the options
    say.  When it returns a value, that value is the JSON body of the
    server's answer to the last call, and that answer had a status from 200
    to 299; a 402 that remains after the payment is thrown, not returned. *)
Theorem respondJson_outcome (fetch : Fetch) (now_nonce now_deadline : Z)
  (cfg : SixerrClientConfig) (options : RespondOptions) :
  let out := respondJson JSON_stringify btoa fetch now_nonce now_deadline cfg options in
  (1 <= List.length (snd out) <= 2)%nat
  /\ (exists fields,
        assoc "stream" fields = None
        /\ (exists m, assoc "model" fields = Some (JStr m))
        /\ forall call, In call (snd out) ->
             req_method call = "POST"
             /\ req_url call = responses_url cfg (opt_agentId options)
             /\ req_body call = Some (JSON_stringify (JObj fields)))
  /\ (forall j, fst out = Ok j ->
        exists before call res,
          snd out = (before ++ [call])%list /\ fetch before call = Ok res
          /\ resp_json res = Ok j
          /\ (200 <= resp_status res <= 299)%Z).
Proof.
  intro out. subst out. unfold respondJson, respond.
  set (url := responses_url cfg (opt_agentId (without_stream options))).
  set (body := JSON_stringify (JObj (respond_body (without_stream options)))).
  set (ov := opt_maxAmount (without_stream options)).
  pose proof (at_most_two_calls JSON_stringify btoa fetch now_nonce now_deadline
                cfg url body ov) as [Hlen _].
  pose proof (flow_calls fetch now_nonce now_deadline cfg url body ov) as Hcalls.
  pose proof (flow_result fetch now_nonce now_deadline cfg url body ov) as Hres.
  destruct (postWith402Handling JSON_stringify btoa fetch now_nonce now_deadline
              cfg url body ov) as [r calls].
  cbn [fst snd] in *.
  assert (Hsnd : snd (match r with
                      | Ok res =>
                          if resp_ok res then (resp_json res, calls)
                          else (Throw ("Sixerr request failed ("
                                       ++ Z_to_string (resp_status res) ++ "): "
                                       ++ match resp_text res with
                                          | Ok t => t
                                          | Throw _ => ""
                                          end), calls)
                      | Throw m => (Throw m, calls)
                      end) = calls).
  { destruct r as [res|m]; [destruct (resp_ok res)|]; reflexivity. }
  rewrite Hsnd. split; [exact Hlen|]. split.
  - exists (respond_body (without_stream options)).
    split; [apply respond_body_no_stream|].
    split; [now eexists|].
    intros call Hin. destruct (Hcalls call Hin) as (Hu & Hm & Hb & _).
    now repeat split.
  - intros j Hj. destruct r as [res|m]; [|discriminate Hj].
    destruct (resp_ok res) eqn:Eok; [|discriminate Hj]. cbn [fst] in Hj.
    destruct (Hres res eq_refl) as (before & call & Hc & Hf).
    exists before, call, res. repeat split; try assumption;
      unfold resp_ok in Eok; apply andb_true_iff in Eok as [A B]; lia.
Qed.

(** X15.  Whatever the request, the proxy calls the upstream at most twice,
    and only the configured server: every call goes to the server URL
    followed by the path that was requested, with the method of the request.
    On the responses route the body of every call is the serialisation of
    the parsed request body, not the text that was received. *)
Theorem proxy_calls_upstream_only (fetch : Fetch) (now_nonce now_deadline : Z)
  (cfg : SixerrClientConfig) (req : IncomingMessage) :
  let calls := snd (proxy_listener JSON_parse JSON_stringify btoa fetch
                      now_nonce now_deadline cfg req) in
  (List.length calls <= 2)%nat
  /\ forall call, In call calls ->
       req_url call = client_serverUrl cfg ++ request_url req
       /\ req_method call = request_method req
       /\ (is_providers_route req = true /\ req_body call = None
           \/ exists rawBody, parsed_body JSON_parse req = Some rawBody
                              /\ req_body call = Some (JSON_stringify rawBody)).
Proof.
  intro calls. subst calls. unfold proxy_listener.
  assert (Hsnd : forall (x : result Reply * list Request),
             snd (match x with
                  | (Ok reply, calls) => (reply, calls)
                  | (Throw _, calls) =>
                      (error_reply JSON_stringify 500 "Internal proxy error", calls)
                  end) = snd x).
  { now intros [[r|m] calls]. }
  rewrite Hsnd. clear Hsnd.
  unfold handleRequest. fold (request_url req) (request_method req).
  fold (is_providers_route req).
  destruct (is_providers_route req) eqn:Ep.
  - unfold is_providers_route in Ep. apply andb_true_iff in Ep as [Em Eu].
    apply String.eqb_eq in Em, Eu.
    assert (Hone : forall call,
               call = {| req_url := client_serverUrl cfg ++ "/v1/providers";
                         req_method := "GET"; req_headers := [];
                         req_body := None |} ->
               req_url call = client_serverUrl cfg ++ request_url req
               /\ req_method call = request_method req
               /\ (true = true /\ req_body call = None
                   \/ exists rawBody, parsed_body JSON_parse req = Some rawBody
                                      /\ req_body call = Some (JSON_stringify rawBody))).
    { intros call ->. cbn [req_url req_method req_body].
      rewrite Em, Eu. repeat split. now left. }
    unfold listProviders. cbv zeta.
    destruct (fetch [] _) as [res|m];
      [destruct (_ && _); [destruct (resp_json res)|]|];
      cbn [snd]; (split; [cbn; lia|]); intros call [<- | []]; now apply Hone.
  - fold (responses_route req).
    destruct (responses_route req) as [agent|] eqn:Er; [|cbn; split; [lia|tauto]].
    unfold handleResponses. fold (parsed_body JSON_parse req).
    destruct (parsed_body JSON_parse req) as [rawBody|]; [|cbn; split; [lia|tauto]].
    unfold respondRaw.
    set (url := responses_url cfg agent).
    set (body := JSON_stringify rawBody).
    pose proof (at_most_two_calls JSON_stringify btoa fetch now_nonce now_deadline
                  cfg url body None) as [Hlen _].
    pose proof (flow_calls fetch now_nonce now_deadline cfg url body None) as Hcalls.
    destruct (postWith402Handling JSON_stringify btoa fetch now_nonce now_deadline
                cfg url body None) as [r calls].
    cbn [snd] in Hlen, Hcalls.
    assert (Hgoal : forall call, In call calls ->
               req_url call = client_serverUrl cfg ++ request_url req
               /\ req_method call = request_method req
               /\ (false = true /\ req_body call = None
                   \/ exists rawBody0, Some rawBody = Some rawBody0
                        /\ req_body call = Some (JSON_stringify rawBody0))).
    2:{ cbv zeta.
        destruct r as [upstream|m];
          [destruct (_ && _); [|destruct (resp_text upstream)]|];
          cbn [snd]; (split; [lia | exact Hgoal]). }
    intros call Hin. destruct (Hcalls call Hin) as (Hu & Hm & Hb & _).
    unfold responses_route in Er.
    destruct (String.eqb (request_method req) "POST") eqn:Emeth; [|discriminate Er].
    apply String.eqb_eq in Emeth.
    split; [|split].
    + rewrite Hu. subst url. unfold responses_url.
      destruct (match_responses_spec _ _ Er) as [[-> ->] | (seg & -> & -> & Hne & _)].
      * reflexivity.
      * cbn [nonempty]. apply String.eqb_neq in Hne. now rewrite Hne.
    + now rewrite Hm, Emeth.
    + right. exists rawBody. split; [reflexivity | exact Hb].
Qed.

(** The content type the proxy reads off an upstream answer. *)
Definition upstream_content_type (upstream : HttpResponse) : string :=
  match resp_content_type upstream with
  | Some t => t
  | None => "application/json"
  end.

Definition is_event_stream (upstream : HttpResponse) : bool :=
  includes "text/event-stream" (upstream_content_type upstream)
  && resp_has_body upstream.

(** X16.  What the proxy replies, route by route.  On the provider route the
    status is 200 when the list of providers is fetched and 502 when that
    throws.  On neither route it is 404, and on the responses
    route with a body that is not JSON it is 400.  On the responses route
    with a JSON body, when the payment flow throws the status is 502, and
    when it returns an answer of the upstream, that answer is the server's
    reply to the last call made and it is passed on: an event stream with a
    body is piped through under the upstream's status with the three
    streaming headers; any other answer is replied with the upstream's
    status, whatever it is, its own text and its content type,
    [application/json] when it names none; only when that text cannot be
    read is the reply 500. *)
Theorem proxy_reply_status (fetch : Fetch) (now_nonce now_deadline : Z)
  (cfg : SixerrClientConfig) (req : IncomingMessage) :
  let out := proxy_listener JSON_parse JSON_stringify btoa fetch
               now_nonce now_deadline cfg req in
  let reply := fst out in
  (is_providers_route req = true ->
   reply_status reply
   = match fst (listProviders fetch cfg) with Ok _ => 200%Z | Throw _ => 502%Z end)
  /\ (is_providers_route req = false -> responses_route req = None ->
      reply_status reply = 404%Z)
  /\ (forall agent,
        is_providers_route req = false -> responses_route req = Some agent ->
        parsed_body JSON_parse req = None -> reply_status reply = 400%Z)
  /\ (forall agent rawBody message calls,
        is_providers_route req = false -> responses_route req = Some agent ->
        parsed_body JSON_parse req = Some rawBody ->
        respondRaw JSON_stringify btoa fetch now_nonce now_deadline cfg rawBody agent
        = (Throw message, calls) ->
        reply_status reply = 502%Z)
  /\ (forall agent rawBody upstream calls,
        is_providers_route req = false -> responses_route req = Some agent ->
        parsed_body JSON_parse req = Some rawBody ->
        respondRaw JSON_stringify btoa fetch now_nonce now_deadline cfg rawBody agent
        = (Ok upstream, calls) ->
        snd out = calls
        /\ (exists before call, calls = (before ++ [call])%list
                                /\ fetch before call = Ok upstream)
        /\ (is_event_stream upstream = true ->
            reply = {| reply_status := resp_status upstream;
                       reply_headers := [("Content-Type", "text/event-stream");
                                         ("Cache-Control", "no-cache");
                                         ("Connection", "keep-alive")];
                       reply_body := Piped upstream |})
        /\ (forall text,
              is_event_stream upstream = false -> resp_text upstream = Ok text ->
              reply = {| reply_status := resp_status upstream;
                         reply_headers :=
                           [("Content-Type", upstream_content_type upstream)];
                         reply_body := Text text |})
        /\ (forall message,
              is_event_stream upstream = false ->
              resp_text upstream = Throw message ->
              reply_status reply = 500%Z)).
Proof.
  intros out reply. subst reply out.
  unfold proxy_listener, handleRequest.
  fold (request_url req) (request_method req). fold (is_providers_route req).
  fold (responses_route req).
  split; [|split; [|split; [|split]]].
  - intros ->. now destruct (listProviders fetch cfg) as [[p|m] calls].
  - intros -> ->. reflexivity.
  - intros agent -> -> Hb. unfold handleResponses.
    fold (parsed_body JSON_parse req). now rewrite Hb.
  - intros agent rawBody message calls -> -> Hb Hr. unfold handleResponses.
    fold (parsed_body JSON_parse req). now rewrite Hb, Hr.
  - intros agent rawBody upstream calls -> -> Hb Hr. unfold handleResponses.
    fold (parsed_body JSON_parse req). rewrite Hb, Hr.
    fold (upstream_content_type upstream). cbv zeta.
    fold (is_event_stream upstream).
    assert (Hlast : exists before call, calls = (before ++ [call])%list
                                        /\ fetch before call = Ok upstream).
    { unfold respondRaw in Hr.
      pose proof (flow_result fetch now_nonce now_deadline cfg
                    (responses_url cfg agent) (JSON_stringify rawBody) None
                    upstream) as H.
      rewrite Hr in H. cbn [fst snd] in H. exact (H eq_refl). }
    destruct (is_event_stream upstream) eqn:Esse.
    + cbn [fst snd]. split; [reflexivity|]. split; [exact Hlast|].
      split; [reflexivity|]. split; intros; discriminate.
    + destruct (resp_text upstream) as [text|m] eqn:Et; cbn [fst snd].
      * split; [reflexivity|]. split; [exact Hlast|].
        split; [discriminate|]. split.
        -- intros text' _ [= <-]. reflexivity.
        -- intros message _ H. discriminate H.
      * split; [reflexivity|]. split; [exact Hlast|].
        split; [discriminate|]. split.
        -- intros text' _ H. discriminate H.
        -- intros message _ _. reflexivity.
Qed.

End ConsumerFacts.

Definition ok_response : HttpResponse := {|
  resp_status := 200;
  resp_content_type := Some "application/json";
  resp_has_body := true;
  resp_text := Ok "{}";
  resp_json := Ok (JObj []);
  resp_payment := Ok {| x402Version := 0; error := ""; accepts := None |}
|}.

(** A server that asks for payment once and then answers. *)
Definition paid_server : Fetch :=
  fun before _ =>
    match before with
    | [] => Ok (payment_required "eip155:8453")
    | _ => Ok ok_response
    end.

Definition sample_options : RespondOptions := {|
  opt_model := None;
  opt_input := Some (JStr "Hello");
  opt_stream := Some true;
  opt_agentId := Some "agent-7";
  opt_routing := None;
  opt_maxAmount := None
|}.

Lemma respondJson_outcome_witness :
  exists before call res,
    snd (respondJson JSON_stringify_text btoa_text paid_server
           1700000000123 1700000000456 sample_client sample_options)
    = (before ++ [call])%list
    /\ paid_server before call = Ok res
    /\ resp_json res = Ok (JObj [])
    /\ (200 <= resp_status res <= 299)%Z.
Proof.
  apply (proj2 (proj2 (respondJson_outcome JSON_stringify_text btoa_text paid_server
                         1700000000123 1700000000456 sample_client sample_options))
           (JObj [])).
  reflexivity.
Defined.

Definition sample_post : IncomingMessage :=
  {| im_url := Some "/v1/responses/agent-7"; im_method := Some "POST";
     im_body := Ok "{}" |}.

Lemma proxy_calls_upstream_only_witness :
  req_url (first_call "https://sixerr.ai/v1/responses/agent-7" "{}")
  = client_serverUrl sample_client ++ request_url sample_post
  /\ req_method (first_call "https://sixerr.ai/v1/responses/agent-7" "{}")
     = request_method sample_post
  /\ (is_providers_route sample_post = true
      /\ req_body (first_call "https://sixerr.ai/v1/responses/agent-7" "{}") = None
      \/ exists rawBody,
           parsed_body JSON_parse_text sample_post = Some rawBody
           /\ req_body (first_call "https://sixerr.ai/v1/responses/agent-7" "{}")
              = Some (JSON_stringify_text rawBody)).
Proof.
  apply (proj2 (proxy_calls_upstream_only JSON_parse_text JSON_stringify_text
                  btoa_text paid_server 1700000000123 1700000000456
                  sample_client sample_post)).
  vm_compute. left. reflexivity.
Defined.

Lemma proxy_reply_status_witness :
  fst (proxy_listener JSON_parse_text JSON_stringify_text btoa_text paid_server
         1700000000123 1700000000456 sample_client sample_post)
  = {| reply_status := 200;
       reply_headers := [("Content-Type", "application/json")];
       reply_body := Text "{}" |}.
Proof.
  apply (proj1 (proj2 (proj2 (proj2
           (proj2 (proj2 (proj2 (proj2
              (proxy_reply_status JSON_parse_text JSON_stringify_text btoa_text
                 paid_server 1700000000123 1700000000456 sample_client
                 sample_post))))
              (Some "agent-7") (JObj []) ok_response
              [first_call "https://sixerr.ai/v1/responses/agent-7" "{}";
               retry_call "https://sixerr.ai/v1/responses/agent-7" "{}"
                 sample_token]
              eq_refl eq_refl eq_refl eq_refl)))) "{}"); reflexivity.
Defined.

(* ------------------------------------------------------------------------ *)
(** ** The SSE decoder on a well-formed stream                                *)
(* ------------------------------------------------------------------------ *)

Definition newline_free (s : string) : bool :=
  forallb (fun c => negb (Ascii.eqb c "010")) (list_ascii_of_string s).

(** One event as a server writes it: the [event:] line, one [data:] line and
    the empty line that closes the block. *)
Definition sse_frame (name data : string) : string :=
  "event: " ++ name ++ nl ++ "data: " ++ data ++ blank.

Definition frame_body (name data : string) : string :=
  "event: " ++ name ++ nl ++ "data: " ++ data.

Definition prepend (s : string) (l : list string) : list string :=
  match l with
  | piece :: pieces => (s ++ piece) :: pieces
  | [] => [s]
  end.

Lemma prefix_empty (s : string) : String.prefix "" s = true.
Proof. now destruct s. Qed.

Lemma prefix_app (p s : string) : String.prefix p (p ++ s) = true.
Proof.
  induction p as [|a p IH]; [apply prefix_empty|].
  cbn [append]. rewrite prefix_cons, Ascii.eqb_refl. exact IH.
Qed.

Lemma slice_from_app (p s : string) : slice_from (String.length p) (p ++ s) = s.
Proof. induction p as [|a p IH]; [reflexivity | exact IH]. Qed.

Lemma split_blank_plain (s t : string) :
  newline_free s = true ->
  split_from blank 0 (s ++ t) = prepend s (split_from blank 0 t).
Proof.
  induction s as [|c s IH]; intro H.
  - cbn [append]. pose proof (split_from_nonempty blank t 0) as Hne.
    now destruct (split_from blank 0 t).
  - unfold newline_free in H. cbn [list_ascii_of_string forallb] in H.
    apply andb_true_iff in H as [Hc Hs]. cbn [append].
    rewrite split_blank_cons.
    assert (Hp : String.prefix blank (String c (s ++ t)) = false).
    { unfold blank, nl. cbn [append]. rewrite prefix_cons.
      destruct (Ascii.eqb "010" c) eqn:E; [|reflexivity].
      apply Ascii.eqb_eq in E. subst c. discriminate Hc. }
    rewrite Hp, (IH Hs).
    pose proof (split_from_nonempty blank t 0) as Hne.
    now destruct (split_from blank 0 t).
Qed.

Lemma split_blank_newline (c : ascii) (r : string) :
  Ascii.eqb c "010" = false ->
  split_from blank 0 (nl ++ String c r) = prepend nl (split_from blank 0 (String c r)).
Proof.
  intro Hc. unfold nl at 1. cbn [append]. rewrite split_blank_cons.
  assert (Hp : String.prefix blank (String "010" (String c r)) = false).
  { unfold blank, nl. cbn [append]. rewrite !prefix_cons, Ascii.eqb_refl.
    destruct (Ascii.eqb "010" c) eqn:E; [|reflexivity].
    apply Ascii.eqb_eq in E. subst c. discriminate Hc. }
  rewrite Hp.
  pose proof (split_from_nonempty blank (String c r) 0) as Hne.
  now destruct (split_from blank 0 (String c r)).
Qed.

Lemma split_blank_separator (t : string) :
  split_from blank 0 (blank ++ t) = "" :: split_from blank 0 t.
Proof.
  unfold blank at 2, nl. cbn [append]. rewrite split_blank_cons.
  assert (Hp : String.prefix blank (String "010" (String "010" t)) = true).
  { unfold blank, nl. cbn [append]. rewrite !prefix_cons, !Ascii.eqb_refl.
    apply prefix_empty. }
  now rewrite Hp.
Qed.

Lemma newline_free_app (a b : string) :
  newline_free a = true -> newline_free b = true -> newline_free (a ++ b) = true.
Proof.
  intros Ha Hb. induction a as [|c a IH]; [exact Hb|].
  unfold newline_free in *. cbn [append list_ascii_of_string forallb] in *.
  apply andb_true_iff in Ha as [Hc Ha]. rewrite Hc. now apply IH.
Qed.

(** A block is cut off exactly at its closing empty line. *)
Lemma split_frame (name data rest : string) :
  newline_free name = true -> newline_free data = true ->
  split_from blank 0 (sse_frame name data ++ rest)
  = frame_body name data :: split_from blank 0 rest.
Proof.
  intros Hn Hd. unfold sse_frame, frame_body.
  assert (E : ("event: " ++ name ++ nl ++ "data: " ++ data ++ blank) ++ rest
              = ("event: " ++ name) ++ nl ++ String "d" (("ata: " ++ data) ++ blank ++ rest)).
  { rewrite !string_app_assoc. reflexivity. }
  rewrite E.
  rewrite split_blank_plain by (apply newline_free_app; [reflexivity | exact Hn]).
  rewrite split_blank_newline by reflexivity.
  change (String "d" (("ata: " ++ data) ++ blank ++ rest))
    with (("data: " ++ data) ++ blank ++ rest).
  rewrite split_blank_plain by (apply newline_free_app; [reflexivity | exact Hd]).
  rewrite split_blank_separator. cbn [prepend].
  rewrite string_app_nil_r. f_equal; now rewrite !string_app_assoc.
Qed.

Definition sse_text (frames : list (string * string)) : string :=
  fold_right (fun f rest => sse_frame (fst f) (snd f) ++ rest) "" frames.

Lemma concat_frames (frames : list (string * string)) :
  String.concat "" (map (fun f => sse_frame (fst f) (snd f)) frames) = sse_text frames.
Proof.
  induction frames as [|f fs IH]; [reflexivity|].
  cbn [map sse_text fold_right]. fold (sse_text fs). rewrite <- IH.
  destruct fs as [|g gs]; [cbn; now rewrite string_app_nil_r | reflexivity].
Qed.

Definition well_formed_frames (frames : list (string * string)) : bool :=
  forallb (fun f => newline_free (fst f) && newline_free (snd f)) frames.

Lemma split_frames (frames : list (string * string)) :
  well_formed_frames frames = true ->
  split_from blank 0 (sse_text frames)
  = (map (fun f => frame_body (fst f) (snd f)) frames ++ [""])%list.
Proof.
  induction frames as [|f fs IH]; intro H; [reflexivity|].
  cbn [well_formed_frames forallb] in H.
  apply andb_true_iff in H as [Hf Hfs]. apply andb_true_iff in Hf as [Hn Hd].
  cbn [sse_text fold_right map app]. fold (sse_text fs).
  rewrite split_frame by assumption. f_equal. now apply IH.
Qed.

(** The lines of a block. *)
Lemma split_nl_cons (c : ascii) (r : string) :
  split_from nl 0 (String c r)
  = if Ascii.eqb c "010" then "" :: split_from nl 0 r
    else cons_head c (split_from nl 0 r).
Proof.
  cbn [split_from]. unfold nl at 1. rewrite prefix_cons, prefix_empty.
  cbn [String.length Nat.sub].
  destruct (Ascii.eqb_spec "010" c) as [<- | Hne]; [reflexivity|].
  destruct (Ascii.eqb_spec c "010") as [-> | _]; [now contradiction Hne | reflexivity].
Qed.

Lemma split_nl_plain (s : string) :
  newline_free s = true -> split_from nl 0 s = [s].
Proof.
  induction s as [|c s IH]; intro H; [reflexivity|].
  unfold newline_free in H. cbn [list_ascii_of_string forallb] in H.
  apply andb_true_iff in H as [Hc Hs].
  rewrite split_nl_cons. destruct (Ascii.eqb c "010"); [discriminate|].
  now rewrite (IH Hs).
Qed.

Lemma split_nl_line (s t : string) :
  newline_free s = true ->
  split_from nl 0 (s ++ nl ++ t) = s :: split_from nl 0 t.
Proof.
  induction s as [|c s IH]; intro H.
  - cbn [append]. unfold nl at 2. cbn [append]. now rewrite split_nl_cons.
  - unfold newline_free in H. cbn [list_ascii_of_string forallb] in H.
    apply andb_true_iff in H as [Hc Hs]. cbn [append].
    rewrite split_nl_cons. destruct (Ascii.eqb c "010"); [discriminate|].
    now rewrite (IH Hs).
Qed.

Lemma sse_data_frame (name data : string) :
  newline_free name = true -> newline_free data = true ->
  sse_data (frame_body name data) = data.
Proof.
  intros Hn Hd. unfold sse_data, str_split, frame_body.
  assert (E : "event: " ++ name ++ nl ++ "data: " ++ data
              = ("event: " ++ name) ++ nl ++ "data: " ++ data).
  { now rewrite string_app_assoc. }
  rewrite E.
  rewrite split_nl_line by (apply newline_free_app; [reflexivity | exact Hn]).
  rewrite split_nl_plain by (apply newline_free_app; [reflexivity | exact Hd]).
  cbn [fold_left]. unfold startsWith.
  rewrite (prefix_app "event: " name).
  assert (P1 : String.prefix "event: " ("data: " ++ data) = false).
  { cbn [append]. now rewrite prefix_cons. }
  rewrite P1, (prefix_app "data: " data).
  change 6%nat with (String.length "data: "). now rewrite slice_from_app.
Qed.

Lemma trim_start_snoc (m : list ascii) (c : ascii) :
  is_space c = false -> exists m', trim_start (m ++ [c]) = (m' ++ [c])%list.
Proof.
  intro Hc. induction m as [|a m IH].
  - exists []. cbn. now rewrite Hc.
  - cbn [app trim_start]. destruct (is_space a); [exact IH|].
    now exists (a :: m).
Qed.

Lemma trim_head (c : ascii) (s : string) :
  is_space c = false -> exists r, trim (String c s) = String c r.
Proof.
  intro Hc. unfold trim, trim_l. cbn [list_ascii_of_string trim_start].
  rewrite Hc. cbn [rev].
  destruct (trim_start_snoc (rev (list_ascii_of_string s)) c Hc) as (m' & ->).
  rewrite rev_app_distr. cbn [rev app]. now eexists.
Qed.

Section DecoderFacts.

Variable JSON_parse : string -> option json.

(** What the decoder makes of the data of one block. *)
Definition event_of (data : string) : list json :=
  if String.eqb data "" then []
  else match JSON_parse data with Some e => [e] | None => [] end.

(** The callbacks' state after [onEvent] has been called on each of the
    events in turn. *)
Definition delivered {S : Type} (cb : StreamCallbacks S) (evs : list json) (s : S)
  : S :=
  fold_left (fun s e => fst (onEvent cb e s)) evs s.

Lemma delivered_app {S : Type} (cb : StreamCallbacks S) (evs evs' : list json)
  (s : S) :
  delivered cb (evs ++ evs') s = delivered cb evs' (delivered cb evs s).
Proof. unfold delivered. apply fold_left_app. Qed.

Lemma sse_part_frame {S : Type} (cb : StreamCallbacks S) (name data : string)
  (s : S) :
  newline_free name = true -> newline_free data = true ->
  sse_part JSON_parse cb (frame_body name data) s
  = delivered cb (event_of data) s.
Proof.
  intros Hn Hd. unfold sse_part, event_of.
  destruct (trim_head "e" ("vent: " ++ name ++ nl ++ "data: " ++ data) eq_refl)
    as (r & Hr).
  change (String "e" ("vent: " ++ name ++ nl ++ "data: " ++ data))
    with (frame_body name data) in Hr.
  rewrite Hr. cbn [String.eqb Ascii.eqb Bool.eqb].
  rewrite (sse_data_frame name data Hn Hd).
  destruct (String.eqb data ""); [reflexivity|].
  destruct (JSON_parse data); reflexivity.
Qed.

Lemma sse_parts_frames {S : Type} (cb : StreamCallbacks S)
  (frames : list (string * string)) :
  well_formed_frames frames = true ->
  forall s,
    fold_left (fun s part => sse_part JSON_parse cb part s)
      (map (fun f => frame_body (fst f) (snd f)) frames) s
    = delivered cb (flat_map (fun f => event_of (snd f)) frames) s.
Proof.
  induction frames as [|f fs IH]; intros H s; [reflexivity|].
  cbn [well_formed_frames forallb] in H.
  apply andb_true_iff in H as [Hf Hfs]. apply andb_true_iff in Hf as [Hn Hd].
  cbn [map fold_left flat_map].
  rewrite (sse_part_frame cb _ _ _ Hn Hd), (IH Hfs). now rewrite delivered_app.
Qed.

(** The state of the callbacks when the chunks have been read. *)
Lemma sse_chunks_state {S : Type} (cb : StreamCallbacks S) (chunks : list string)
  (s : S) :
  snd (fold_left (sse_chunk JSON_parse cb) chunks ("", s))
  = fold_left (fun s part => sse_part JSON_parse cb part s)
      (removelast (str_split blank (String.concat "" chunks))) s.
Proof.
  destruct chunks as [|c cs]; [reflexivity|].
  now rewrite (sse_chunks_joined JSON_parse cb (c :: cs)) by discriminate.
Qed.

(** X17.  When the gateway answers below 400 with a stream of blocks, each
    an [event:] line, one [data:] line and an empty line, then whatever the
    callbacks are and wherever the transport cut the chunks: [onEvent] is
    called with exactly the parsed data of the blocks, in order, each once,
    a block whose data is empty or is not JSON being skipped; when the
    response ends [onDone] is called, once and after all of them; [onError]
    is not called, and the promise resolves. *)
Theorem sse_stream_decoded {S : Type} (cb : StreamCallbacks S) (s : S)
  (frames : list (string * string)) (chunks : list string) (st : option Z) :
  is_http_error st = false ->
  well_formed_frames frames = true ->
  String.concat "" chunks
  = String.concat "" (map (fun f => sse_frame (fst f) (snd f)) frames) ->
  streamFromOpenClaw JSON_parse cb (Response st chunks ResEnd) s
  = (onDone cb (delivered cb (flat_map (fun f => event_of (snd f)) frames) s),
     true).
Proof.
  intros Hst Hwf Hc. cbn [streamFromOpenClaw]. rewrite Hst.
  cbv zeta. rewrite sse_chunks_state, Hc, concat_frames. unfold str_split.
  rewrite (split_frames frames Hwf), removelast_last.
  now rewrite (sse_parts_frames cb frames Hwf s).
Qed.

End DecoderFacts.

(** The calls made on the callbacks, in order. *)
Inductive CallbackCall : Type :=
| OnEvent (event : json)
| OnError (message : string)
| OnDone.

Definition tracer : StreamCallbacks (list CallbackCall) := {|
  onEvent := fun event t => ((t ++ [OnEvent event])%list, false);
  onError := fun message t => (t ++ [OnError message])%list;
  onDone := fun t => (t ++ [OnDone])%list
|}.

Lemma sse_stream_decoded_witness :
  streamFromOpenClaw JSON_parse_text tracer
    (Response (Some 200%Z)
       ["event: a" ++ nl ++ "da"; "ta: 1" ++ nl; nl ++ "event: b" ++ nl ++ "data: [2]" ++ blank]
       ResEnd) []
  = ([OnEvent (JNum 1); OnEvent (JArr [JNum 2]); OnDone], true).
Proof.
  apply (sse_stream_decoded JSON_parse_text tracer [] [("a", "1"); ("b", "[2]")]
           ["event: a" ++ nl ++ "da"; "ta: 1" ++ nl;
            nl ++ "event: b" ++ nl ++ "data: [2]" ++ blank] (Some 200%Z));
    reflexivity.
Defined.

(* ------------------------------------------------------------------------ *)
(** ** permit2.ts and the payment header                                      *)
(* ------------------------------------------------------------------------ *)

(** The [payload] object [signPermit2Payment] encodes. *)
Definition payment_payload (sender token amount : string) (nonce_ deadline_ : Z)
  (signature : string) : json :=
  JObj [("sender", JStr sender);
        ("permit",
         JObj [("permitted", JObj [("token", JStr token); ("amount", JStr amount)]);
               ("nonce", JStr (Z_to_string nonce_));
               ("deadline", JNum (inject_Z deadline_))]);
        ("signature", JStr signature)].

Section HeaderFacts.

Variable JSON_stringify : json -> string.
Variable btoa : string -> string.

(** A header value is only ever produced from a signature the signer gave
    for typed data built from the requirement and the amount. *)
Lemma signPermit2Payment_inv (s : PaymentSigner)
  (requirements : Permit2PaymentRequirements) (amountText : string)
  (now_nonce now_deadline : Z) (xPayment : string) :
  signPermit2Payment JSON_stringify btoa s requirements amountText
    now_nonce now_deadline = Ok xPayment ->
  exists typedData signature amount,
    signTypedData s typedData = Ok signature
    /\ BigInt_of_string amountText = Some amount
    /\ permitted_amount typedData = amount
    /\ permitted_token typedData = asset requirements
    /\ spender typedData = permit2Terminal requirements
    /\ domain_verifyingContract typedData = PERMIT2_ADDRESS
    /\ parseChainId (network requirements) = Ok (domain_chainId typedData)
    /\ nonce typedData = now_nonce
    /\ inject_Z (deadline typedData)
       == inject_Z (now_deadline / 1000) + maxTimeoutSeconds requirements
    /\ xPayment = btoa (JSON_stringify
                          (payment_payload (address s) (asset requirements)
                             amountText now_nonce (deadline typedData) signature)).
Proof.
  unfold signPermit2Payment.
  destruct (parseChainId (network requirements)) as [chainId|m]; [|discriminate].
  destruct (BigInt_of_number _) as [deadline_|] eqn:Ed; [|discriminate].
  destruct (BigInt_of_string amountText) as [amount|]; [|discriminate].
  match goal with
  | |- context [signTypedData s ?td] => set (typedData := td)
  end.
  destruct (signTypedData s typedData) as [signature|m] eqn:Es; [|discriminate].
  intros [= <-]. exists typedData, signature, amount.
  repeat split; try assumption; try reflexivity.
  subst typedData. cbn [deadline].
  unfold BigInt_of_number in Ed.
  destruct (Qeq_bool _ _) eqn:Eq; [|discriminate Ed].
  injection Ed as <-. apply Qeq_bool_iff in Eq. now symmetry.
Qed.

(** X18.  Whenever a call of the payment flow carries an [X-PAYMENT]
    header, the first call was answered 402, the requirement is the first
    [permit2] entry of that answer, and the header encodes a signature the
    configured signer gave over typed data whose amount is the caller's cap
    (the override, else the configured maximum, else the server's
    [maxCost]), and whose token and spender are the requirement's asset and
    terminal.  No call carries the header twice, and the first call never
    carries it. *)
Theorem payment_header_is_signed (fetch : Fetch) (now_nonce now_deadline : Z)
  (cfg : SixerrClientConfig) (url body : string) (override : option string)
  (call : Request) (xPayment : string) :
  In call (snd (postWith402Handling JSON_stringify btoa fetch now_nonce
                  now_deadline cfg url body override)) ->
  In ("X-PAYMENT", xPayment) (req_headers call) ->
  exists firstRes paymentBody requirements typedData signature amount,
    fetch [] (first_call url body) = Ok firstRes
    /\ resp_status firstRes = 402%Z
    /\ resp_payment firstRes = Ok paymentBody
    /\ permit2_of paymentBody = Some requirements
    /\ scheme requirements = "permit2"
    /\ signTypedData (signer cfg) typedData = Ok signature
    /\ BigInt_of_string (chosen_amount cfg override requirements) = Some amount
    /\ permitted_amount typedData = amount
    /\ permitted_token typedData = asset requirements
    /\ spender typedData = permit2Terminal requirements
    /\ xPayment = btoa (JSON_stringify
                          (payment_payload (address (signer cfg)) (asset requirements)
                             (chosen_amount cfg override requirements)
                             now_nonce (deadline typedData) signature))
    /\ call = retry_call url body xPayment
    /\ call <> first_call url body.
Proof.
  assert (F : ~ In ("X-PAYMENT", xPayment) (req_headers (first_call url body))).
  { cbn. intros [H | []]. discriminate H. }
  unfold postWith402Handling. fold (first_call url body).
  destruct (fetch [] _) as [firstRes|m] eqn:E1; cbn [snd].
  2:{ intros [<- | []] H. now contradiction F. }
  destruct (negb (resp_status firstRes =? 402)%Z) eqn:Est; cbn [snd].
  { intros [<- | []] H. now contradiction F. }
  destruct (resp_payment firstRes) as [paymentBody|m] eqn:Ep; cbn [snd].
  2:{ intros [<- | []] H. now contradiction F. }
  fold (permit2_of paymentBody).
  destruct (permit2_of paymentBody) as [requirements|] eqn:Er; cbn [snd].
  2:{ intros [<- | []] H. now contradiction F. }
  fold (chosen_amount cfg override requirements).
  destruct (signPermit2Payment _ _ _ _ _ _ _) as [x|m] eqn:Es; cbn [snd].
  2:{ intros [<- | []] H. now contradiction F. }
  intros [<- | [<- | []]] H; [now contradiction F|].
  cbn [req_headers post_headers app] in H.
  destruct H as [H | [H | []]]; [discriminate H|]. injection H as ->.
  destruct (signPermit2Payment_inv _ _ _ _ _ _ Es)
    as (typedData & signature & amount & Hs & Ha & Hpa & Hpt & Hsp & _ & _ & _ & _ & Hx).
  exists firstRes, paymentBody, requirements, typedData, signature, amount.
  apply negb_false_iff, Z.eqb_eq in Est.
  assert (Hscheme : scheme requirements = "permit2").
  { unfold permit2_of in Er. destruct (accepts paymentBody) as [l|]; [|discriminate Er].
    apply find_some in Er as [_ Er]. now apply String.eqb_eq. }
  repeat split; try assumption; try reflexivity.
  intro Hc. apply (f_equal req_headers) in Hc. discriminate Hc.
Qed.

End HeaderFacts.

Lemma payment_header_is_signed_witness :
  exists firstRes paymentBody requirements typedData signature amount,
    always_402 "eip155:8453" [] (first_call "https://sixerr.ai/v1/responses" "{}")
    = Ok firstRes
    /\ resp_status firstRes = 402%Z
    /\ resp_payment firstRes = Ok paymentBody
    /\ permit2_of paymentBody = Some requirements
    /\ scheme requirements = "permit2"
    /\ signTypedData (signer sample_client) typedData = Ok signature
    /\ BigInt_of_string (chosen_amount sample_client None requirements) = Some amount
    /\ permitted_amount typedData = amount
    /\ permitted_token typedData = asset requirements
    /\ spender typedData = permit2Terminal requirements
    /\ sample_token
       = btoa_text (JSON_stringify_text
                      (payment_payload (address (signer sample_client))
                         (asset requirements)
                         (chosen_amount sample_client None requirements)
                         1700000000123 (deadline typedData) signature))
    /\ retry_call "https://sixerr.ai/v1/responses" "{}" sample_token
       = retry_call "https://sixerr.ai/v1/responses" "{}" sample_token
    /\ retry_call "https://sixerr.ai/v1/responses" "{}" sample_token
       <> first_call "https://sixerr.ai/v1/responses" "{}".
Proof.
  apply (payment_header_is_signed JSON_stringify_text btoa_text
           (always_402 "eip155:8453") 1700000000123 1700000000456 sample_client
           "https://sixerr.ai/v1/responses" "{}" None
           (retry_call "https://sixerr.ai/v1/responses" "{}" sample_token)
           sample_token).
  - vm_compute. right; left. reflexivity.
  - vm_compute. right; left. reflexivity.
Defined.

(* ------------------------------------------------------------------------ *)
(** ** parseChainId and the namespace of a network                            *)
(* ------------------------------------------------------------------------ *)

(** X19.  Only the text after the last colon of a network name counts:
    whatever stands before it, [parseChainId] gives the number it gives for
    that text alone, and throws exactly when it throws for that text alone,
    the message naming the whole network.  The namespace is never looked
    at. *)
Theorem parseChainId_ignores_namespace (pre seg : string) :
  no_colon seg = true ->
  match parseChainId seg with
  | Ok id => parseChainId (pre ++ ":" ++ seg) = Ok id
  | Throw _ =>
      parseChainId (pre ++ ":" ++ seg)
      = Throw ("Cannot parse chain ID from network: " ++ pre ++ ":" ++ seg)
  end.
Proof.
  intro H. unfold parseChainId.
  rewrite (last_part_compound pre seg H), (split_no_colon seg H).
  cbn [last_part last].
  now destruct (isNaN (Number seg)).
Qed.

Lemma parseChainId_ignores_namespace_witness :
  parseChainId ("solana" ++ ":" ++ "8453") = Ok (Fin (inject_Z 8453)).
Proof. exact (parseChainId_ignores_namespace "solana" "8453" eq_refl). Defined.
